(** * MXL: time/rate conversions and flow-directory management

    A shallow embedding of [lib/src/time.cpp] and of
    [lib/src/internal/FlowManager.cpp], with the properties the
    specification states about them.

    - Module [Time]: the index/timestamp conversions.  Unsigned 64-bit
      values are integers in [Z]; the signed 64- and 128-bit
      intermediates of the C++ code are written with their wrap-around.
      The clock is an argument of the functions that read it.
    - Module [Flows]: the flow manager over a file system given as a
      finite map from paths to nodes, in a state-and-exception monad of
      its own; what the surroundings decide in a call (the name [mkdtemp]
      picks, which operations fail) is an argument, the [World].
    - Modules [TimeProperties] and [FlowsProperties]: the lemmas, the
      properties C1 to C10 and the further properties X1 to X22, with
      examples on concrete inputs. *)

From Stdlib Require Import ZArith Lia Ascii String.
From stdpp Require Import base numbers option list strings gmap pretty.

(* ===================================================================== *)
(** ** Time and rate                                                      *)
(* ===================================================================== *)

Module Time.

Local Open Scope Z_scope.

(** [Rational] of [mxl/rational.h].  The header declares the two fields
    with an integer type; every comparison and product below is taken in
    a type that holds the exact value, so the fields are integers here. *)
Record Rational : Type := mkRational { numerator : Z; denominator : Z }.

(** A [Rational const*] argument: [None] is the null pointer. *)
Definition RationalPtr : Type := option Rational.

Definition UINT64_MAX : Z := 18446744073709551615.
Definition INT128_MAX : Z := 170141183460469231731687303715884105727.

(** Modelled from the spec: [MXL_UNDEFINED_INDEX] of [mxl/time.h], "a
    fixed all-ones u64 value"; [time.cpp] calls it the "maximum timestamp
    value". *)
Definition MXL_UNDEFINED_INDEX : Z := UINT64_MAX.

Definition MAX_REASONABLE_NUMERATOR : Z := 1000000000.
Definition MAX_REASONABLE_DENOMINATOR : Z := 1000000000.
Definition MIN_REASONABLE_RATE_COMPONENT : Z := 1.
Definition MAX_REASONABLE_TIMESTAMP : Z := 18446744073709551615 / 2.

(** Two's-complement wrap-around of a signed [w]-bit integer. *)
Definition wrap_signed (w : Z) (z : Z) : Z :=
  (z + 2 ^ (w - 1)) mod 2 ^ w - 2 ^ (w - 1).

(** [long long] and [__int128_t] results. *)
Definition i64 (z : Z) : Z := wrap_signed 64 z.
Definition i128 (z : Z) : Z := wrap_signed 128 z.

(** [static_cast<uint64_t>]. *)
Definition u64 (z : Z) : Z := z mod 2 ^ 64.

Definition isValidEditRate (editRate : RationalPtr) : bool :=
  match editRate with
  | None => false
  | Some r =>
      if (denominator r =? 0) || (numerator r =? 0) then false
      else if (numerator r >? MAX_REASONABLE_NUMERATOR)
              || (denominator r >? MAX_REASONABLE_DENOMINATOR) then false
      else if (numerator r <? MIN_REASONABLE_RATE_COMPONENT)
              || (denominator r <? MIN_REASONABLE_RATE_COMPONENT) then false
      else true
  end.

Definition isValidTimestamp (timestamp : Z) : bool :=
  if timestamp =? MXL_UNDEFINED_INDEX then false
  else if timestamp >? MAX_REASONABLE_TIMESTAMP then false
  else true.

Definition isValidIndex (index : Z) : bool :=
  if index =? MXL_UNDEFINED_INDEX then false
  else if index >? MAX_REASONABLE_TIMESTAMP then false
  else true.

Definition safecast128ToUint64 (value : Z) : Z :=
  if value <? 0 then MXL_UNDEFINED_INDEX
  else if value >? UINT64_MAX then MXL_UNDEFINED_INDEX
  else if u64 value >? MAX_REASONABLE_TIMESTAMP then MXL_UNDEFINED_INDEX
  else u64 value.

Definition isValidTimeResult (result : Z) : bool :=
  negb (result =? MXL_UNDEFINED_INDEX) && (result <=? MAX_REASONABLE_TIMESTAMP).

(** What [currentTime(Clock::TAI)] of [internal/Timing.hpp] hands back:
    the outcome of the timepoint's boolean conversion and its signed
    64-bit nanosecond count.  The clock is the only state the functions
    of this file read, once per call; it is an argument here. *)
Record Timepoint : Type := mkTimepoint { tp_ok : bool; value : Z }.

Definition mxlGetTime (timepoint : Timepoint) : Z :=
  if negb (tp_ok timepoint) then 0
  else if value timepoint <? 0 then 0
  else
    let result := u64 (value timepoint) in
    if result >? MAX_REASONABLE_TIMESTAMP then 0 else result.

Definition mxlTimestampToIndex (editRate : RationalPtr) (timestamp : Z) : Z :=
  if negb (isValidEditRate editRate) then MXL_UNDEFINED_INDEX
  else match editRate with
  | None => MXL_UNDEFINED_INDEX
  | Some r =>
      if negb (isValidTimestamp timestamp) then MXL_UNDEFINED_INDEX
      else
        let numerator128 := i128 (timestamp * numerator r) in
        let rounding := i128 (i64 (500000000 * denominator r)) in
        let denominator128 := i128 (i64 (1000000000 * denominator r)) in
        if (numerator128 <? 0) || (rounding <? 0) || (denominator128 <=? 0)
        then MXL_UNDEFINED_INDEX
        else if numerator128 >? INT128_MAX - rounding then MXL_UNDEFINED_INDEX
        else
          let result := i128 (Z.quot (i128 (numerator128 + rounding)) denominator128) in
          safecast128ToUint64 result
  end.

Definition mxlIndexToTimestamp (editRate : RationalPtr) (index : Z) : Z :=
  if negb (isValidEditRate editRate) then MXL_UNDEFINED_INDEX
  else match editRate with
  | None => MXL_UNDEFINED_INDEX
  | Some r =>
      if negb (isValidIndex index) then MXL_UNDEFINED_INDEX
      else
        let numerator128 := i128 (i128 (index * denominator r) * 1000000000) in
        let rounding := i128 (Z.quot (numerator r) 2) in
        let denominator128 := i128 (numerator r) in
        if (numerator128 <? 0) || (rounding <? 0) || (denominator128 <=? 0)
        then MXL_UNDEFINED_INDEX
        else if numerator128 >? INT128_MAX - rounding then MXL_UNDEFINED_INDEX
        else
          let result := i128 (Z.quot (i128 (numerator128 + rounding)) denominator128) in
          safecast128ToUint64 result
  end.

Definition mxlGetCurrentIndex (editRate : RationalPtr) (timepoint : Timepoint) : Z :=
  if negb (isValidEditRate editRate) then MXL_UNDEFINED_INDEX
  else
    let now := mxlGetTime timepoint in
    if now =? 0 then MXL_UNDEFINED_INDEX
    else mxlTimestampToIndex editRate now.

Definition mxlGetNsUntilIndex (index : Z) (editRate : RationalPtr)
    (timepoint : Timepoint) : Z :=
  if negb (isValidEditRate editRate) then MXL_UNDEFINED_INDEX
  else if negb (isValidIndex index) then MXL_UNDEFINED_INDEX
  else
    let targetNs := mxlIndexToTimestamp editRate index in
    if targetNs =? MXL_UNDEFINED_INDEX then MXL_UNDEFINED_INDEX
    else
      let nowNs := mxlGetTime timepoint in
      if nowNs =? 0 then MXL_UNDEFINED_INDEX
      else if targetNs <? nowNs then 0
      else
        let diff := u64 (targetNs - nowNs) in
        if diff >? MAX_REASONABLE_TIMESTAMP then MXL_UNDEFINED_INDEX
        else diff.

(** The three ways an intermediate of the conversions could leave the
    signed 128-bit range: the exact value is compared with the range. *)
Definition fits128 (z : Z) : Prop := - INT128_MAX - 1 <= z <= INT128_MAX.

Definition timestampToIndex_overflows (r : Rational) (timestamp : Z) : Prop :=
  ~ fits128 (timestamp * numerator r)
  \/ ~ fits128 (timestamp * numerator r + 500000000 * denominator r).

Definition indexToTimestamp_overflows (r : Rational) (index : Z) : Prop :=
  ~ fits128 (index * denominator r)
  \/ ~ fits128 (index * denominator r * 1000000000)
  \/ ~ fits128 (index * denominator r * 1000000000 + Z.quot (numerator r) 2).

(** A rate the validation accepts, as the specification words it. *)
Definition valid_rate (r : Rational) : Prop :=
  1 <= numerator r <= 10 ^ 9 /\ 1 <= denominator r <= 10 ^ 9.

(** The argument faults the specification lists for a conversion called
    with [editRate] and [arg]; [overflows] says when an intermediate of
    that conversion leaves the 128-bit range. *)
Definition rejected_call (overflows : Rational -> Z -> Prop)
    (editRate : RationalPtr) (arg : Z) : Prop :=
  editRate = None
  \/ (exists r, editRate = Some r
        /\ (numerator r = 0 \/ denominator r = 0
            \/ numerator r > 10 ^ 9 \/ denominator r > 10 ^ 9))
  \/ arg > UINT64_MAX / 2
  \/ (exists r, editRate = Some r /\ overflows r arg).

(** The rate the tests use throughout: 30000/1001. *)
Definition rate_30000_1001 : RationalPtr := Some (mkRational 30000 1001).

(** [std::numeric_limits<int64_t>::max()]. *)
Definition INT64_MAX : Z := 9223372036854775807.

(** What [mxlSleepForNs] asks of [this_thread::sleep] of
    [internal/Thread.hpp]: nothing, or a sleep on the TAI clock for a
    [Duration] of that many nanoseconds, a signed 64-bit count. *)
Inductive sleep_request : Type :=
  | NoSleep
  | Sleep (duration : Z).

(** [mxlSleepForNs] catches whatever the sleep throws and returns in every
    case; what is left to say is what it asks for. *)
Definition mxlSleepForNs (ns : Z) : sleep_request :=
  let ns := if ns >? INT64_MAX then INT64_MAX else ns in
  if ns =? 0 then NoSleep
  else Sleep (i64 ns).

End Time.

(* ===================================================================== *)
(** ** Flow directories                                                   *)
(* ===================================================================== *)

Module Flows.

(** *** The file system

    A path is the list of its components, and the file system maps the
    paths that exist to what is there.  Operations fail for the reasons
    the state gives (a missing parent, an occupied name) and also when the
    [World] of the call says so.  A single system call that fails
    ([open], [mkdir], [chmod], [rename]) leaves the state as it found it.
    The two operations that are not a single call leave their part done
    when they fail: the stream insertion [out << s], which the source does
    not test, may have written only a prefix of [s], and a recursive
    removal that fails has removed some of the entries it was to remove;
    the source discards the error of the non-throwing
    [remove_all(p, ec)]. *)

Definition path : Type := list string.

(** [p / name] of [std::filesystem::path]. *)
Definition path_append (p : path) (name : string) : path := p ++ [name].
Infix "//" := path_append (at level 40, left associativity).

Inductive node : Type :=
  | Directory
  | RegularFile (content : string)
  | SharedMemory.

#[global] Instance node_eq_dec : EqDecision node.
Proof. solve_decision. Defined.

Abbreviation FS := (gmap path node).

Inductive errc : Type :=
  | io_error
  | file_exists
  | no_such_file_or_directory
  | os_error.

Inductive exception : Type :=
  | runtime_error (what : string)
  | invalid_argument (what : string)
  | filesystem_error (what : string) (path1 : path) (code : errc)
  | std_exception (what : string)
  | foreign_exception.

(** Whether [catch (std::exception const&)] catches it. *)
Definition is_std_exception (e : exception) : bool :=
  match e with foreign_exception => false | _ => true end.

(** [e.what()].  For a [filesystem_error] the standard library appends the
    paths and the text of the code to the message it was built with; the
    message is what is kept here. *)
Definition what (e : exception) : string :=
  match e with
  | runtime_error w | invalid_argument w | filesystem_error w _ _
  | std_exception w => w
  | foreign_exception => ""
  end.

Inductive outcome (A : Type) : Type :=
  | Returned (a : A)
  | Thrown (e : exception).
Arguments Returned {A} a.
Arguments Thrown {A} e.

(** A computation on the file system that returns or throws. *)
Definition M (A : Type) : Type := FS -> outcome A * FS.

Definition ret {A} (a : A) : M A := fun fs => (Returned a, fs).
Definition throw {A} (e : exception) : M A := fun fs => (Thrown e, fs).
Definition bind {A B} (m : M A) (k : A -> M B) : M B :=
  fun fs =>
    match m fs with
    | (Returned a, fs') => k a fs'
    | (Thrown e, fs') => (Thrown e, fs')
    end.

Notation "'let*' x ':=' m 'in' k" := (bind m (fun x => k))
  (at level 10, x name, m at level 100, k at level 200).
Notation "m '>>' k" := (bind m (fun _ => k))
  (at level 100, k at level 200, right associativity).

(** [try { body } catch (...) { handler }]. *)
Definition try_catch_all {A} (body : M A) (handler : exception -> M A) : M A :=
  fun fs =>
    match body fs with
    | (Thrown e, fs') => handler e fs'
    | r => r
    end.

(** [try { body } catch (std::exception const& e) { handler }]. *)
Definition try_catch_std {A} (body : M A) (handler : exception -> M A) : M A :=
  fun fs =>
    match body fs with
    | (Thrown e, fs') =>
        if is_std_exception e then handler e fs' else (Thrown e, fs')
    | r => r
    end.

(** What the surroundings decide in one call: the name [mkdtemp] picks,
    and which of the operations that can fail do.  [descriptor_write_fails]
    is [Some n] when the stream of the descriptor fails after [n]
    characters; [remove_all_fails] is [Some removed] when a recursive
    removal fails after it has removed the entries that [removed]
    selects. *)
Record World : Type := mkWorld {
  mkdtemp_suffix : option string;
  descriptor_open_fails : bool;
  descriptor_write_fails : option nat;
  access_open_fails : bool;
  flow_data_throws : option exception;
  create_directory_fails : bool;
  emplace_grain_throws : nat -> option exception;
  channel_buffers_throw : option exception;
  permissions_fails : bool;
  rename_fails : bool;
  remove_all_fails : option (path -> bool);
  directory_iterator_fails : bool;
  clock : Time.Timepoint
}.

Definition exists_ (fs : FS) (p : path) : bool := bool_decide (is_Some (fs !! p)).
Definition is_directory (fs : FS) (p : path) : bool :=
  bool_decide (fs !! p = Some Directory).

Definition parent_path (p : path) : path := removelast p.

(** The paths at or below [p]. *)
Definition below (p : path) (q : path) : Prop := p `prefix_of` q.

(** The state after everything at or below [p] is gone. *)
Definition without (p : path) (fs : FS) : FS :=
  filter (fun entry => ~ below p entry.1) fs.

(** The state after a removal of [p] that failed: of the entries at or
    below [p], those that [removed] selects are gone. *)
Definition partly_without (removed : path -> bool) (p : path) (fs : FS) : FS :=
  filter (fun entry => ~ (below p entry.1 /\ removed entry.1 = true)) fs.

(** The number of entries at or below [p]. *)
Definition count_below (p : path) (fs : FS) : nat :=
  size (filter (fun entry => below p entry.1) fs).

(** [mkdtemp]: the last six characters of the template are replaced by
    six characters; the directory is created with a name that was free.
    [None] is [nullptr]. *)
Definition mkdtemp (w : World) (template : path) : M (option path) :=
  fun fs =>
    match mkdtemp_suffix w with
    | None => (Returned None, fs)
    | Some six =>
        let base := parent_path template in
        let name := List.last template "" in
        let chosen :=
          base // (String.substring 0 (String.length name - 6) name +:+ six) in
        if (String.length six =? 6) && is_directory fs base
           && negb (exists_ fs chosen)
        then (Returned (Some chosen), <[chosen := Directory]> fs)
        else (Returned None, fs)
    end.

(** [std::ofstream{p, out | trunc}]: whether the stream is good. *)
Definition ofstream_open (fails : bool) (p : path) : M bool :=
  fun fs =>
    if negb fails && is_directory fs (parent_path p) && negb (is_directory fs p)
    then (Returned true, <[p := RegularFile ""]> fs)
    else (Returned false, fs).

(** What reaches the file of [s] when the stream fails after [n]
    characters ([Some n]) or does not fail ([None]). *)
Definition written (fails : option nat) (s : string) : string :=
  match fails with
  | None => s
  | Some n => String.substring 0 n s
  end.

(** [out << s] on a good stream for [p], followed by the stream's
    destructor: the characters that were written are in the file, and
    nothing tells the caller whether these are all. *)
Definition ofstream_insert (fails : option nat) (p : path) (s : string) : M unit :=
  fun fs =>
    match fs !! p with
    | Some (RegularFile before) =>
        (Returned tt, <[p := RegularFile (before +:+ written fails s)]> fs)
    | _ => (Returned tt, fs)
    end.

(** [std::filesystem::create_directory(p)]. *)
Definition create_directory (w : World) (p : path) : M bool :=
  fun fs =>
    if create_directory_fails w || negb (is_directory fs (parent_path p))
    then (Thrown (filesystem_error "create_directory" p os_error), fs)
    else match fs !! p with
         | None => (Returned true, <[p := Directory]> fs)
         | Some Directory => (Returned false, fs)
         | Some _ => (Thrown (filesystem_error "create_directory" p file_exists), fs)
         end.

(** [std::filesystem::permissions(p, ..., perm_options::add)]; permission
    bits are not part of the state. *)
Definition permissions (w : World) (p : path) : M unit :=
  fun fs =>
    if permissions_fails w || negb (exists_ fs p)
    then (Thrown (filesystem_error "permissions" p os_error), fs)
    else (Returned tt, fs).

(** The state after [source] and all below it has moved to [dest]. *)
Definition moved (source dest : path) (fs : FS) : FS :=
  list_to_map
    (prod_map (fun p => dest ++ drop (length source) p) id
       <$> map_to_list (filter (fun entry => below source entry.1) fs))
  ∪ without dest (without source fs).

(** [std::filesystem::rename(source, dest)], POSIX [rename]: [dest] may be
    absent, an empty directory when [source] is a directory, or a file
    when [source] is a file. *)
Definition rename (w : World) (source dest : path) : M unit :=
  fun fs =>
    let replaceable :=
      match fs !! source, fs !! dest with
      | Some _, None => true
      | Some Directory, Some Directory => bool_decide (count_below dest fs = 1)
      | Some Directory, Some _ => false
      | Some _, Some Directory => false
      | Some _, Some _ => true
      | None, _ => false
      end in
    if rename_fails w
       || negb replaceable
       || negb (is_directory fs (parent_path dest))
       || (bool_decide (below source dest) && negb (bool_decide (source = dest)))
    then (Thrown (filesystem_error "rename" source os_error), fs)
    else if bool_decide (source = dest) then (Returned tt, fs)
    else (Returned tt, moved source dest fs).

(** [std::filesystem::remove_all(p)]: the number of entries removed.  It
    removes entry by entry and throws at the first entry it cannot
    remove. *)
Definition remove_all (w : World) (p : path) : M nat :=
  fun fs =>
    match remove_all_fails w with
    | Some removed =>
        (Thrown (filesystem_error "remove_all" p os_error),
         partly_without removed p fs)
    | None =>
        match fs !! p with
        | None => (Returned 0, fs)
        | Some _ => (Returned (count_below p fs), without p fs)
        end
    end.

(** [std::filesystem::remove_all(p, ec)] where [ec] is not looked at: the
    same removal, which returns also when it failed. *)
Definition remove_all_ec (w : World) (p : path) : M unit :=
  fun fs =>
    match remove_all_fails w with
    | Some removed => (Returned tt, partly_without removed p fs)
    | None => (Returned tt, without p fs)
    end.

(** The name of [p] when it lies directly in [d]. *)
Fixpoint child_of (d p : path) : option string :=
  match d, p with
  | [], [name] => Some name
  | x :: d', y :: p' => if decide (x = y) then child_of d' p' else None
  | _, _ => None
  end.

(** [std::filesystem::directory_iterator{d}]: the entries of [d], each
    with its file name. *)
Definition directory_iterator (w : World) (d : path) : M (list (string * node)) :=
  fun fs =>
    if directory_iterator_fails w || negb (is_directory fs d)
    then (Thrown (filesystem_error "directory_iterator" d os_error), fs)
    else (Returned
            (omap (fun entry => name ← child_of d entry.1; Some (name, entry.2))
               (map_to_list fs)), fs).

(** Reading the state: [exists(p)], [is_directory(p)]. *)
Definition query {A} (f : FS -> A) : M A := fun fs => (Returned (f fs), fs).

(** *** What the flow manager takes from elsewhere *)

(** The UUID library: [uuids::to_string] and [uuids::uuid::from_string]. *)
Class UuidLibrary (uuid : Type) : Type := {
  to_string : uuid -> string;
  from_string : string -> option uuid
}.

(** Modelled from the spec: [mxlDataFormat] of [mxl/flow.h],
    "enum(Video, Audio, Unspecified, ...)"; the last constructor stands
    for the values the spec does not name. *)
Inductive mxlDataFormat : Type :=
  | MXL_DATA_FORMAT_UNSPECIFIED
  | MXL_DATA_FORMAT_VIDEO
  | MXL_DATA_FORMAT_AUDIO
  | MXL_DATA_FORMAT_OTHER (code : nat).

(** Modelled from the spec: the format predicates of [mxl/flow.h].  Video
    is the discrete format and audio the continuous one; "unsupported
    formats are mapped to Unspecified", which "is neither discrete nor
    continuous". *)
Definition mxlIsSupportedDataFormat (format : mxlDataFormat) : bool :=
  match format with
  | MXL_DATA_FORMAT_VIDEO | MXL_DATA_FORMAT_AUDIO => true
  | _ => false
  end.

Definition mxlIsDiscreteDataFormat (format : mxlDataFormat) : bool :=
  match format with MXL_DATA_FORMAT_VIDEO => true | _ => false end.

Definition mxlIsContinuousDataFormat (format : mxlDataFormat) : bool :=
  match format with MXL_DATA_FORMAT_AUDIO => true | _ => false end.

(** Modelled from the spec: the names of [internal/PathUtils.hpp].  A flow
    directory is [<uuid><suffix>] with the suffix [.mxl-flow]; it holds
    [descriptor.json], [access], [data], and [grains/] with one file per
    slot "named by slot index", or [channels]. *)
Definition FLOW_DIRECTORY_NAME_SUFFIX : string := ".mxl-flow".

Definition makeFlowDirectoryName (base : path) (uuidString : string) : path :=
  base // (uuidString +:+ FLOW_DIRECTORY_NAME_SUFFIX).
Definition makeFlowDescriptorFilePath (flowDir : path) : path :=
  flowDir // "descriptor.json".
Definition makeFlowAccessFilePath (flowDir : path) : path := flowDir // "access".
Definition makeFlowDataFilePath (flowDir : path) : path := flowDir // "data".
Definition makeGrainDirectoryName (flowDir : path) : path := flowDir // "grains".
Definition makeGrainDataFilePath (grainDir : path) (index : nat) : path :=
  grainDir // pretty index.
Definition makeChannelDataFilePath (flowDir : path) : path := flowDir // "channels".

(** Modelled from the spec: what the constructors of [DiscreteFlowData]
    and [ContinuousFlowData], [emplaceGrain] and [openChannelBuffers] of
    [internal/FlowData] and [internal/SharedMemory.hpp] do to the file
    system in mode [CREATE_READ_WRITE]: they create the "file-backed
    shared-memory segment" at the path they are given, or throw. *)
Definition create_segment (throws : option exception) (p : path) : M unit :=
  fun fs =>
    match throws with
    | Some e => (Thrown e, fs)
    | None =>
        if is_directory fs (parent_path p) && negb (is_directory fs p)
        then (Returned tt, <[p := SharedMemory]> fs)
        else (Thrown (std_exception "SharedMemory: cannot create segment"), fs)
    end.

(** [path::extension()] and [path::stem()] of a file name: the extension
    starts at the last period, unless that is the first character or the
    name is [.] or [..]. *)
Fixpoint rfind_dot (s : string) : option nat :=
  match s with
  | EmptyString => None
  | String c s' =>
      match rfind_dot s' with
      | Some n => Some (S n)
      | None => if Ascii.eqb c "."%char then Some 0 else None
      end
  end.

Definition extension_start (filename : string) : option nat :=
  if bool_decide (filename = "." \/ filename = "..") then None
  else match rfind_dot filename with
       | Some (S n) => Some (S n)
       | _ => None
       end.

Definition extension (filename : string) : string :=
  match extension_start filename with
  | Some n => String.substring n (String.length filename - n) filename
  | None => ""
  end.

Definition stem (filename : string) : string :=
  match extension_start filename with
  | Some n => String.substring 0 n filename
  | None => filename
  end.

(** *** The flow manager *)

Section FlowManager.

Context {uuid : Type} `{UuidLibrary uuid}.

Record CommonFlowInfo : Type := mkCommonFlowInfo {
  id : uuid;
  lastWriteTime : Z;
  lastReadTime : Z;
  format : mxlDataFormat
}.

Record GrainInfo : Type := mkGrainInfo {
  grainSize : nat;
  grain_version : nat;
  deviceIndex : Z
}.

Record DiscreteFlowData : Type := mkDiscreteFlowData {
  discrete_version : nat;
  discrete_common : CommonFlowInfo;
  grainRate : Time.Rational;
  grainCount : nat;
  syncCounter : nat;
  grains : list GrainInfo
}.

Record ContinuousFlowData : Type := mkContinuousFlowData {
  continuous_version : nat;
  continuous_common : CommonFlowInfo;
  sampleRate : Time.Rational;
  channelCount : nat;
  bufferLength : nat;
  sampleWordSize : nat
}.

Definition createTemporaryFlowDirectory (w : World) (base : path) : M path :=
  let pathBuffer := base // ".mxl-tmp-XXXXXXXXXXXXXXXX" in
  let* made := mkdtemp w pathBuffer in
  match made with
  | None =>
      throw (filesystem_error "FlowManager: Could not create temporary directory."
               base os_error)
  | Some created => ret created
  end.

Definition publishFlowDirectory (w : World) (source dest : path) : M unit :=
  permissions w source >> rename w source dest.

Definition sanitizeFlowFormat (format : mxlDataFormat) : mxlDataFormat :=
  if mxlIsSupportedDataFormat format then format else MXL_DATA_FORMAT_UNSPECIFIED.

Definition writeFlowDescriptor (w : World) (flowDir : path) (flowDef : string) : M unit :=
  let flowJsonFile := makeFlowDescriptorFilePath flowDir in
  let* out := ofstream_open (descriptor_open_fails w) flowJsonFile in
  if out then ofstream_insert (descriptor_write_fails w) flowJsonFile flowDef
  else throw (filesystem_error "FlowManager: Failed to create flow resource definition."
                flowJsonFile io_error).

Definition initCommonFlowInfo (w : World) (flowId : uuid) (format : mxlDataFormat)
    : CommonFlowInfo :=
  let lastWriteTime := Time.mxlGetTime (clock w) in
  mkCommonFlowInfo flowId lastWriteTime lastWriteTime format.

(** The loop over the grain slots [i, i + n). *)
Fixpoint emplaceGrains (w : World) (grainDir : path) (grainPayloadSize : nat)
    (i n : nat) : M (list GrainInfo) :=
  match n with
  | 0 => ret []
  | S n' =>
      let grainPath := makeGrainDataFilePath grainDir i in
      create_segment (emplace_grain_throws w i) grainPath >>
      let gInfo := mkGrainInfo grainPayloadSize 1 (-1) in
      let* rest := emplaceGrains w grainDir grainPayloadSize (S i) n' in
      ret (gInfo :: rest)
  end.

Definition createDiscreteFlow (w : World) (_mxlDomain : path) (flowId : uuid)
    (flowDef : string) (flowFormat : mxlDataFormat) (grainCount : nat)
    (grainRate : Time.Rational) (grainPayloadSize : nat) : M DiscreteFlowData :=
  let uuidString := to_string flowId in
  let flowFormat := sanitizeFlowFormat flowFormat in
  if negb (mxlIsDiscreteDataFormat flowFormat)
  then throw (runtime_error
    "FlowManager: Attempt to create discrete flow with unsupported or non matching format.")
  else
    let* tempDirectory := createTemporaryFlowDirectory w _mxlDomain in
    try_catch_all
      (writeFlowDescriptor w tempDirectory flowDef >>
       let readAccessFile := makeFlowAccessFilePath tempDirectory in
       let* out := ofstream_open (access_open_fails w) readAccessFile in
       if negb out
       then throw (filesystem_error "FlowManager: Failed to create flow access file."
                     readAccessFile file_exists)
       else
         create_segment (flow_data_throws w) (makeFlowDataFilePath tempDirectory) >>
         let common := initCommonFlowInfo w flowId flowFormat in
         let grainDir := makeGrainDirectoryName tempDirectory in
         let* created := create_directory w grainDir in
         if negb created
         then throw (filesystem_error "FlowManager: Could not create grain directory"
                       grainDir io_error)
         else
           let* grains := emplaceGrains w grainDir grainPayloadSize 0 grainCount in
           let flowData :=
             mkDiscreteFlowData 1 common grainRate grainCount 0 grains in
           let finalDir := makeFlowDirectoryName _mxlDomain uuidString in
           try_catch_std (publishFlowDirectory w tempDirectory finalDir)
             (fun e =>
                throw (filesystem_error "FlowManager: Failed to publish flow directory"
                         finalDir io_error)) >>
           ret flowData)
      (fun e => remove_all_ec w tempDirectory >> throw e).

Definition createContinuousFlow (w : World) (_mxlDomain : path) (flowId : uuid)
    (flowDef : string) (flowFormat : mxlDataFormat) (sampleRate : Time.Rational)
    (channelCount sampleWordSize bufferLength : nat) : M ContinuousFlowData :=
  let uuidString := to_string flowId in
  let flowFormat := sanitizeFlowFormat flowFormat in
  if negb (mxlIsContinuousDataFormat flowFormat)
  then throw (runtime_error
    "FlowManager: Attempt to create continuous flow with unsupported or non matching format.")
  else
    let* tempDirectory := createTemporaryFlowDirectory w _mxlDomain in
    try_catch_all
      (writeFlowDescriptor w tempDirectory flowDef >>
       try_catch_std
         (create_segment (flow_data_throws w) (makeFlowDataFilePath tempDirectory))
         (fun e =>
            throw (runtime_error
              ("FlowManager: Failed to mmap continuous flow data: " +:+ what e))) >>
       let common := initCommonFlowInfo w flowId flowFormat in
       let flowData :=
         mkContinuousFlowData 1 common sampleRate channelCount bufferLength
           sampleWordSize in
       try_catch_std
         (create_segment (channel_buffers_throw w)
            (makeChannelDataFilePath tempDirectory))
         (fun e =>
            throw (runtime_error
              ("FlowManager: Failed to open channel buffers: " +:+ what e))) >>
       let FinalDir := makeFlowDirectoryName _mxlDomain uuidString in
       try_catch_std (publishFlowDirectory w tempDirectory FinalDir)
         (fun e =>
            throw (runtime_error
              ("FlowManager: Failed to publish flow dir: " +:+ what e))) >>
       ret flowData)
      (fun e => remove_all_ec w tempDirectory >> throw e).

(** [deleteFlow(uuids::uuid const&)]. *)
Definition deleteFlow (w : World) (_mxlDomain : path) (flowId : uuid) : M bool :=
  let uuid := to_string flowId in
  let flowPath := makeFlowDirectoryName _mxlDomain uuid in
  try_catch_all
    (let* removed := remove_all w flowPath in
     if Nat.eqb removed 0 then ret false else ret true)
    (fun e =>
       match e with
       | filesystem_error _ _ _ => ret false
       | _ => ret false
       end).

(** The body of the loop of [listFlows] for one directory entry. *)
Definition listFlows_step (flowIds : list uuid) (entry : string * node) : list uuid :=
  if bool_decide (entry.2 = Directory)
     && bool_decide (extension entry.1 = FLOW_DIRECTORY_NAME_SUFFIX)
  then match from_string (stem entry.1) with
       | Some id => flowIds ++ [id]
       | None => flowIds
       end
  else flowIds.

Definition listFlows (w : World) (_mxlDomain : path) : M (list uuid) :=
  let base := _mxlDomain in
  let* present := query (fun fs => exists_ fs base) in
  let* isdir := query (fun fs => is_directory fs base) in
  if present && isdir
  then
    try_catch_all
      (let* entries := directory_iterator w _mxlDomain in
       ret (foldl listFlows_step [] entries))
      (fun e =>
         match e with
         | filesystem_error msg path1 code =>
             throw (filesystem_error
                      ("FlowManager: Failed to iterate flow directory: " +:+ msg)
                      path1 code)
         | foreign_exception => throw e
         | _ => throw (runtime_error ("FlowManager: Error listing flows: " +:+ what e))
         end)
  else
    throw (filesystem_error "FlowManager: Base directory not found." base
             no_such_file_or_directory).

End FlowManager.

Arguments CommonFlowInfo uuid : clear implicits.
Arguments DiscreteFlowData uuid : clear implicits.
Arguments ContinuousFlowData uuid : clear implicits.


(** *** Reasoning about computations

    [wp m fs Qr Qt]: run from [fs], [m] returns a value and a state that
    satisfy [Qr], or throws with an exception and a state that satisfy
    [Qt]. *)
Definition wp {A : Type} (m : M A) (fs : FS) (Qr : A -> FS -> Prop)
    (Qt : exception -> FS -> Prop) : Prop :=
  match m fs with
  | (Returned a, fs') => Qr a fs'
  | (Thrown e, fs') => Qt e fs'
  end.

(** [fs'] differs from [fs] at paths of [S] only. *)
Definition writes_in (S : path -> Prop) (fs fs' : FS) : Prop :=
  forall q, ~ S q -> fs' !! q = fs !! q.

(** The staging area of one creation: the paths below [tmp] other than the
    descriptor. *)
Definition beside_descriptor (tmp : path) (q : path) : Prop :=
  below tmp q /\ q <> makeFlowDescriptorFilePath tmp.


Section Outcomes.

Context {uuid : Type} `{UuidLibrary uuid}.

(** What a creation that throws leaves behind.  A rejected format and a
    staging directory that could not be made leave the state untouched.
    Once the staging directory [tmp] was made, the state differs from the
    one before at most at or below [tmp], and nothing is left there when
    the removal of [tmp] did not fail. *)
Definition rolled_back (shape_ok : bool) (w : World) (domain : path)
    (fs fs' : FS) : Prop :=
  (shape_ok = false -> fs' = fs)
  /\ (forall e fs1,
        createTemporaryFlowDirectory w domain fs = (Thrown e, fs1) -> fs' = fs)
  /\ (forall tmp fs1,
        shape_ok = true ->
        createTemporaryFlowDirectory w domain fs = (Returned tmp, fs1) ->
        (forall q, ~ below tmp q -> fs' !! q = fs !! q)
        /\ (remove_all_fails w = None -> forall q, below tmp q -> fs' !! q = None)).

(** The published directory of [flowId] holds a descriptor with the
    content [stored]. *)
Definition descriptor_published (domain : path) (flowId : uuid)
    (stored : string) (fs' : FS) : Prop :=
  fs' !! makeFlowDescriptorFilePath (makeFlowDirectoryName domain (to_string flowId))
  = Some (RegularFile stored).


End Outcomes.

(** *** The layout of a flow directory *)

(** Within [domain], whatever exists lies in a directory that exists. *)
Definition nested (domain : path) (fs : FS) : Prop :=
  forall p name,
    below domain p -> is_Some (fs !! (p // name)) -> fs !! p = Some Directory.

(** What a discrete flow directory holds at the path [rest] below it: the
    directory itself, [descriptor.json], [access], [data], [grains] and one
    grain file for each index below [grainCount]. *)
Definition discrete_entry (flowDef : string) (grainCount : nat) (rest : path)
    (x : node) : Prop :=
  (rest = [] /\ x = Directory)
  \/ (rest = makeFlowDescriptorFilePath [] /\ x = RegularFile flowDef)
  \/ (rest = makeFlowAccessFilePath [] /\ x = RegularFile "")
  \/ (rest = makeFlowDataFilePath [] /\ x = SharedMemory)
  \/ (rest = makeGrainDirectoryName [] /\ x = Directory)
  \/ (exists i, i < grainCount
        /\ rest = makeGrainDataFilePath (makeGrainDirectoryName []) i
        /\ x = SharedMemory).

(** What a continuous flow directory holds at the path [rest] below it: the
    directory itself, [descriptor.json], [data] and [channels]. *)
Definition continuous_entry (flowDef : string) (rest : path) (x : node) : Prop :=
  (rest = [] /\ x = Directory)
  \/ (rest = makeFlowDescriptorFilePath [] /\ x = RegularFile flowDef)
  \/ (rest = makeFlowDataFilePath [] /\ x = SharedMemory)
  \/ (rest = makeChannelDataFilePath [] /\ x = SharedMemory).

(** *** The constructor, opening a flow, deleting through a handle *)


(** Modelled from the spec: [AccessMode] of [internal/SharedMemory.hpp];
    "open(id, mode) (disallows CREATE_READ_WRITE)". *)
Inductive AccessMode : Type :=
  | OPEN_READ_ONLY
  | OPEN_READ_WRITE
  | CREATE_READ_WRITE.

Section Handles.

Context {uuid : Type} `{UuidLibrary uuid}.



(** Modelled from the spec: "FlowData is a two-variant sum
    (Discrete | Continuous)"; [flowInfo()->common]. *)
Inductive FlowData : Type :=
  | Discrete (flowData : DiscreteFlowData uuid)
  | Continuous (flowData : ContinuousFlowData uuid).

Definition flowInfo_common (flowData : FlowData) : CommonFlowInfo uuid :=
  match flowData with
  | Discrete d => discrete_common d
  | Continuous c => continuous_common c
  end.

(** [deleteFlow(std::unique_ptr<FlowData>&&)]; [None] is the null pointer.
    Closing the flow unmaps its segments, which leaves the files. *)
Definition deleteFlowData (w : World) (_mxlDomain : path)
    (flowData : option FlowData) : M bool :=
  match flowData with
  | Some opened =>
      let id := id (flowInfo_common opened) in
      try_catch_all (deleteFlow w _mxlDomain id) (fun e => ret false)
  | None => ret false
  end.

(** Modelled from the spec: the "FlowHeader" a mapped [data] segment shows,
    with both members of its "variant union, discriminated by format". *)
Record FlowInfo : Type := mkFlowInfo {
  info_version : nat;
  info_common : CommonFlowInfo uuid;
  info_grainRate : Time.Rational;
  info_grainCount : nat;
  info_syncCounter : nat;
  info_sampleRate : Time.Rational;
  info_channelCount : nat;
  info_bufferLength : nat
}.

(** Modelled from the spec: what mapping the segments of a flow yields in
    the open modes ("file missing (open)", "mapping failure (I/O kind)"):
    the constructor of [SharedMemoryInstance<Flow>] throws or yields a
    segment whose [get()] is null or a header; [emplaceGrain(path, 0)]
    throws or yields the grain's header; [openChannelBuffers(path, 0)]
    throws or yields the sample word size ("size inferred"). *)
Record Segments : Type := mkSegments {
  flow_segment : exception + option FlowInfo;
  grain_segment : nat -> exception + GrainInfo;
  channel_buffers : exception + nat
}.

(** Mapping the file at [p] without creating it. *)
Definition open_segment {A : Type} (mapped : exception + A) (p : path) : M A :=
  fun fs =>
    match mapped with
    | inl e => (Thrown e, fs)
    | inr a =>
        if exists_ fs p && negb (is_directory fs p) then (Returned a, fs)
        else (Thrown (std_exception "SharedMemory: cannot open segment"), fs)
    end.

(** The loop of [openDiscreteFlow] over the grain slots [i, i + n).  Its
    counter is an [unsigned]: this is the source's loop for grain counts
    below [2 ^ 32]. *)
Fixpoint openGrains (s : Segments) (grainDir : path) (i n : nat)
    : M (list GrainInfo) :=
  match n with
  | 0 => ret []
  | S n' =>
      let grainPath := makeGrainDataFilePath grainDir i in
      let* grain :=
        try_catch_all (open_segment (grain_segment s i) grainPath)
          (fun e =>
             if is_std_exception e
             then throw (filesystem_error
                           ("FlowManager: Failed to open grain [" +:+ pretty i +:+ "]")
                           grainPath io_error)
             else throw (filesystem_error
                           ("FlowManager: Failed to open grain [" +:+ pretty i
                            +:+ "]: unknown error")
                           grainPath io_error)) in
      let* rest := openGrains s grainDir (S i) n' in
      ret (grain :: rest)
  end.

Definition openDiscreteFlow (s : Segments) (flowDir : path) (flow : FlowInfo)
    : M (DiscreteFlowData uuid) :=
  let flowData :=
    mkDiscreteFlowData (info_version flow) (info_common flow) (info_grainRate flow)
      (info_grainCount flow) (info_syncCounter flow) in
  let grainCount := info_grainCount flow in
  if 0 <? grainCount
  then
    let grainDir := makeGrainDirectoryName flowDir in
    let* present := query (fun fs => exists_ fs grainDir) in
    let* isdir := query (fun fs => is_directory fs grainDir) in
    if present && isdir
    then
      let* grains := openGrains s grainDir 0 grainCount in
      ret (flowData grains)
    else throw (filesystem_error "FlowManager: Grain directory not found." grainDir
                  no_such_file_or_directory)
  else ret (flowData []).

Definition openContinuousFlow (s : Segments) (flowDir : path) (flow : FlowInfo)
    : M (ContinuousFlowData uuid) :=
  let channelPath := makeChannelDataFilePath flowDir in
  let* present := query (fun fs => exists_ fs channelPath) in
  if negb present
  then throw (filesystem_error "FlowManager: Channel buffer file not found."
                channelPath no_such_file_or_directory)
  else
    let* sampleWordSize :=
      try_catch_std (open_segment (channel_buffers s) channelPath)
        (fun e =>
           throw (runtime_error
             ("FlowManager: Failed to open continuous channel buffers: " +:+ what e))) in
    ret (mkContinuousFlowData (info_version flow) (info_common flow)
           (info_sampleRate flow) (info_channelCount flow) (info_bufferLength flow)
           sampleWordSize).

Definition openFlow (s : Segments) (_mxlDomain : path) (in_flowId : uuid)
    (in_mode : AccessMode) : M FlowData :=
  match in_mode with
  | CREATE_READ_WRITE =>
      throw (invalid_argument
               "FlowManager: Attempt to open flow with invalid access mode.")
  | _ =>
      let uuid := to_string in_flowId in
      let base := makeFlowDirectoryName _mxlDomain uuid in
      let flowFile := makeFlowDataFilePath base in
      let* present := query (fun fs => exists_ fs flowFile) in
      if present
      then
        let* flowSegment :=
          try_catch_std (open_segment (flow_segment s) flowFile)
            (fun e =>
               throw (filesystem_error "FlowManager: Failed to open flow data segment"
                        flowFile io_error)) in
        match flowSegment with
        | None =>
            throw (runtime_error
              "FlowManager: Failed to access flow data: invalid shared memory segment")
        | Some flow =>
            let flowFormat := format (info_common flow) in
            if mxlIsDiscreteDataFormat flowFormat
            then
              try_catch_std
                (let* opened := openDiscreteFlow s base flow in ret (Discrete opened))
                (fun e =>
                   throw (filesystem_error "FlowManager: Failed to open discrete flow"
                            base io_error))
            else if mxlIsContinuousDataFormat flowFormat
            then
              try_catch_std
                (let* opened := openContinuousFlow s base flow in
                 ret (Continuous opened))
                (fun e =>
                   throw (runtime_error
                     ("FlowManager: Failed to open continuous flow: " +:+ what e)))
            else
              throw (runtime_error
                "FlowManager: Attempt to open flow with unsupported data format.")
        end
      else throw (filesystem_error "FlowManager: Flow file not found" flowFile
                    no_such_file_or_directory)
  end.

End Handles.

(** Computations that leave the file system as it is. *)
Definition reads_only {A : Type} (m : M A) : Prop := forall fs, (m fs).2 = fs.

Arguments FlowData uuid : clear implicits.
Arguments FlowInfo uuid : clear implicits.
Arguments Segments uuid : clear implicits.

(** *** Sample data

    A UUID library in which a UUID is its 36-character text, a domain
    directory as the tests use it, and worlds in which nothing fails, in
    which the access file cannot be opened, in which the descriptor's
    stream fails after ten characters, in which [remove_all] fails after
    it has removed what lies below a [grains] directory, and in which the
    access file cannot be opened and [remove_all] fails at once. *)
Definition text_uuid : UuidLibrary string :=
  {| to_string := fun s => s;
     from_string := fun s =>
       if decide (String.length s = 36) then Some s else None |}.

Definition sample_domain : path := ["dev"; "shm"; "mxl_domain"].
Definition sample_id : string := "5fbec3b1-1b0f-417d-9059-8b94a47197ed".
Definition sample_descriptor : string := "{ format: urn:x-nmos:format:video }".
Definition sample_rate : Time.Rational := Time.mkRational 60000 1001.

Definition calm_world : World :=
  mkWorld (Some "a1B2c3") false None false None false (fun _ => None) None
    false false None false (Time.mkTimepoint true 1700000000000000000).

Definition world_without_access : World :=
  mkWorld (Some "a1B2c3") false None true None false (fun _ => None) None
    false false None false (Time.mkTimepoint true 1700000000000000000).


Definition world_without_removal : World :=
  mkWorld (Some "a1B2c3") false None false None false (fun _ => None) None
    false false
    (Some (fun q => bool_decide (List.last (removelast q) "" = "grains")))
    false (Time.mkTimepoint true 1700000000000000000).

Definition world_without_access_and_removal : World :=
  mkWorld (Some "a1B2c3") false None true None false (fun _ => None) None
    false false (Some (fun _ => false)) false
    (Time.mkTimepoint true 1700000000000000000).

Definition empty_domain : FS := {[ sample_domain := Directory ]}.

(** The domain after the discrete flow [sample_id] has been created in it
    with two grains. *)
Definition domain_with_flow : FS :=
  (createDiscreteFlow (H := text_uuid) calm_world sample_domain sample_id
     sample_descriptor MXL_DATA_FORMAT_VIDEO 2 sample_rate 1024 empty_domain).2.

(** What that creation returns. *)
Definition sample_flow_data : DiscreteFlowData string :=
  mkDiscreteFlowData 1
    (initCommonFlowInfo calm_world sample_id MXL_DATA_FORMAT_VIDEO)
    sample_rate 2 0 [mkGrainInfo 1024 1 (-1); mkGrainInfo 1024 1 (-1)].

(** A continuous flow as the tests create it, and what its creation
    returns. *)
Definition sample_audio_id : string := "b3bb5be7-9fe9-4324-a5bb-4c70e1084449".

Definition sample_audio_data : ContinuousFlowData string :=
  mkContinuousFlowData 1
    (initCommonFlowInfo calm_world sample_audio_id MXL_DATA_FORMAT_AUDIO)
    (Time.mkRational 48000 1) 2 4096 4.

(** That domain with a directory whose stem is no UUID and a stray file
    next to the flow. *)
Definition cluttered_domain : FS :=
  <[sample_domain // "not-a-valid-uuid.mxl-flow" := Directory]>
    (<[sample_domain // "README" := RegularFile "notes"]> domain_with_flow).

(** The header a reader finds in the [data] segment of the sample flow,
    the grain headers of its two grains, and the segments of a flow whose
    files all map. *)
Definition sample_flow_info : FlowInfo string :=
  mkFlowInfo 1 (initCommonFlowInfo calm_world sample_id MXL_DATA_FORMAT_VIDEO)
    sample_rate 2 0 (Time.mkRational 0 1) 0 0.

Definition sample_segments : Segments string :=
  mkSegments (inr (Some sample_flow_info))
    (fun _ => inr (mkGrainInfo 1024 1 (-1))) (inr 4).

(** The domain after the continuous flow [sample_audio_id] has been created
    in it, the header a reader finds in its [data] segment, and its
    segments. *)
Definition domain_with_audio_flow : FS :=
  (createContinuousFlow (H := text_uuid) calm_world sample_domain sample_audio_id
     sample_descriptor MXL_DATA_FORMAT_AUDIO (Time.mkRational 48000 1) 2 4 4096
     empty_domain).2.

Definition sample_audio_info : FlowInfo string :=
  mkFlowInfo 1 (initCommonFlowInfo calm_world sample_audio_id MXL_DATA_FORMAT_AUDIO)
    (Time.mkRational 0 1) 0 0 (Time.mkRational 48000 1) 2 4096.

Definition sample_audio_segments : Segments string :=
  mkSegments (inr (Some sample_audio_info))
    (fun _ => inl (std_exception "SharedMemory: cannot open segment")) (inr 4).

End Flows.

(* ===================================================================== *)
(** ** Properties of the time and rate conversions                        *)
(* ===================================================================== *)

Module TimeProperties.

Import Time.

Local Open Scope Z_scope.

Example index_0_and_1 :
  mxlTimestampToIndex rate_30000_1001 0 = 0
  /\ mxlTimestampToIndex rate_30000_1001 33366667 = 1
  /\ mxlIndexToTimestamp rate_30000_1001 0 = 0
  /\ mxlIndexToTimestamp rate_30000_1001 1 = 33366667.
Proof. repeat split; vm_compute; reflexivity. Qed.

Example extreme_arguments_rejected :
  mxlTimestampToIndex rate_30000_1001 (UINT64_MAX / 2 + 1) = MXL_UNDEFINED_INDEX
  /\ mxlIndexToTimestamp rate_30000_1001 UINT64_MAX = MXL_UNDEFINED_INDEX
  /\ mxlIndexToTimestamp (Some (mkRational 2000000000 1)) 1000 = MXL_UNDEFINED_INDEX.
Proof. repeat split; vm_compute; reflexivity. Qed.

(** *** Validation and wrap-around *)

(** The limits of the source as numerals, for [lia]. *)
Ltac limits :=
  unfold valid_rate, fits128, MXL_UNDEFINED_INDEX, MAX_REASONABLE_TIMESTAMP,
    MAX_REASONABLE_NUMERATOR, MAX_REASONABLE_DENOMINATOR,
    MIN_REASONABLE_RATE_COMPONENT, UINT64_MAX, INT128_MAX in *;
  change (18446744073709551615 / 2) with 9223372036854775807 in *;
  change (10 ^ 9) with 1000000000 in *.

Lemma isValidEditRate_spec (editRate : RationalPtr) :
  isValidEditRate editRate = true <-> exists r, editRate = Some r /\ valid_rate r.
Proof.
  unfold isValidEditRate. limits.
  destruct editRate as [r|]; split.
  - intros H. exists r. split; [reflexivity|].
    destruct (Z.eqb_spec (denominator r) 0), (Z.eqb_spec (numerator r) 0),
      (Z.gtb_spec (numerator r) 1000000000),
      (Z.gtb_spec (denominator r) 1000000000),
      (Z.ltb_spec (numerator r) 1), (Z.ltb_spec (denominator r) 1);
      simpl in H; try discriminate; lia.
  - intros (r' & [= <-] & Hn & Hd).
    destruct (Z.eqb_spec (denominator r) 0), (Z.eqb_spec (numerator r) 0),
      (Z.gtb_spec (numerator r) 1000000000),
      (Z.gtb_spec (denominator r) 1000000000),
      (Z.ltb_spec (numerator r) 1), (Z.ltb_spec (denominator r) 1);
      simpl; try reflexivity; lia.
  - discriminate.
  - intros (r' & [=] & _).
Qed.

Lemma isValidEditRate_valid (r : Rational) :
  valid_rate r -> isValidEditRate (Some r) = true.
Proof. intros H. apply isValidEditRate_spec. eauto. Qed.

Lemma i128_fits (z : Z) : fits128 z -> i128 z = z.
Proof.
  unfold fits128, i128, wrap_signed, INT128_MAX. intros H.
  replace (2 ^ (128 - 1)) with 170141183460469231731687303715884105728
    by reflexivity.
  replace (2 ^ 128) with 340282366920938463463374607431768211456
    by reflexivity.
  rewrite Z.mod_small; lia.
Qed.

Lemma i64_fits (z : Z) :
  - 9223372036854775808 <= z <= 9223372036854775807 -> i64 z = z.
Proof.
  unfold i64, wrap_signed. intros H.
  replace (2 ^ (64 - 1)) with 9223372036854775808 by reflexivity.
  replace (2 ^ 64) with 18446744073709551616 by reflexivity.
  rewrite Z.mod_small; lia.
Qed.

Lemma u64_fits (z : Z) : 0 <= z <= UINT64_MAX -> u64 z = z.
Proof.
  unfold u64, UINT64_MAX. intros H.
  replace (2 ^ 64) with 18446744073709551616 by reflexivity.
  apply Z.mod_small. lia.
Qed.

Lemma isValidTimestamp_spec (timestamp : Z) :
  isValidTimestamp timestamp = true <-> timestamp <= UINT64_MAX / 2.
Proof.
  unfold isValidTimestamp. limits.
  destruct (Z.eqb_spec timestamp 18446744073709551615),
    (Z.gtb_spec timestamp 9223372036854775807); split; intros;
    try discriminate; try reflexivity; lia.
Qed.

Lemma isValidIndex_spec (index : Z) :
  isValidIndex index = true <-> index <= UINT64_MAX / 2.
Proof. exact (isValidTimestamp_spec index). Qed.

(** A value that the cast lets through is the value itself, and at most
    [UINT64_MAX / 2]. *)
Lemma safecast128ToUint64_cases (v : Z) :
  (safecast128ToUint64 v = MXL_UNDEFINED_INDEX
   /\ (v < 0 \/ UINT64_MAX / 2 < v))
  \/ (safecast128ToUint64 v = v /\ 0 <= v <= UINT64_MAX / 2).
Proof.
  unfold safecast128ToUint64, MXL_UNDEFINED_INDEX, MAX_REASONABLE_TIMESTAMP.
  destruct (Z.ltb_spec v 0); [left; split; [reflexivity | lia]|].
  destruct (Z.gtb_spec v UINT64_MAX).
  { left. split; [reflexivity|]. limits. lia. }
  rewrite u64_fits by lia. limits.
  destruct (Z.gtb_spec v 9223372036854775807); [left | right]; split;
    try reflexivity; lia.
Qed.

(** *** The conversions on validated arguments

    With a validated rate and argument no intermediate leaves its type, so
    each conversion is one exact integer division. *)

Lemma quotient_bounds (a b c : Z) :
  0 <= a -> 0 < b -> a < b * (c + 1) -> 0 <= a / b <= c.
Proof.
  intros Ha Hb Hc. split.
  - apply Z.div_pos; lia.
  - enough (a / b < c + 1) by lia.
    apply Z.div_lt_upper_bound; lia.
Qed.

Lemma mxlTimestampToIndex_exact (r : Rational) (timestamp : Z) :
  valid_rate r ->
  0 <= timestamp <= UINT64_MAX / 2 ->
  mxlTimestampToIndex (Some r) timestamp
  = (timestamp * numerator r + denominator r * 500000000)
    / (denominator r * 1000000000)
  /\ 0 <= mxlTimestampToIndex (Some r) timestamp <= timestamp.
Proof.
  intros Hr Hts. unfold mxlTimestampToIndex.
  rewrite (isValidEditRate_valid r Hr). cbn [negb].
  rewrite (proj2 (isValidTimestamp_spec timestamp)) by lia. cbn [negb].
  destruct r as [N D]. unfold valid_rate in Hr. cbn [numerator denominator] in *.
  change (10 ^ 9) with 1000000000 in Hr.
  unfold UINT64_MAX in Hts.
  change (18446744073709551615 / 2) with 9223372036854775807 in Hts.
  assert (HP : 0 <= timestamp * N <= timestamp * 1000000000) by nia.
  set (P := timestamp * N) in *.
  rewrite !i64_fits by lia.
  rewrite (i128_fits P), (i128_fits (500000000 * D)),
    (i128_fits (1000000000 * D)), (i128_fits (P + 500000000 * D))
    by (unfold fits128, INT128_MAX; lia).
  destruct (Z.ltb_spec P 0); [lia|].
  destruct (Z.ltb_spec (500000000 * D) 0); [lia|].
  destruct (Z.leb_spec (1000000000 * D) 0); [lia|]. cbn [orb].
  destruct (Z.gtb_spec P (INT128_MAX - 500000000 * D));
    [unfold INT128_MAX in *; lia|].
  rewrite Z.quot_div_nonneg by lia.
  assert (Hq : 0 <= (P + 500000000 * D) / (1000000000 * D) <= timestamp).
  { apply quotient_bounds; nia. }
  rewrite i128_fits by (unfold fits128, INT128_MAX; lia).
  destruct (safecast128ToUint64_cases ((P + 500000000 * D) / (1000000000 * D)))
    as [[_ Hbad] | [-> _]].
  - limits. lia.
  - split; [|lia]. f_equal; lia.
Qed.

Lemma mxlIndexToTimestamp_exact (r : Rational) (index : Z) :
  valid_rate r ->
  0 <= index <= UINT64_MAX / 2 ->
  let q := (index * denominator r * 1000000000 + numerator r / 2) / numerator r in
  0 <= q
  /\ mxlIndexToTimestamp (Some r) index
     = if q >? UINT64_MAX / 2 then MXL_UNDEFINED_INDEX else q.
Proof.
  intros Hr Hi. unfold mxlIndexToTimestamp.
  rewrite (isValidEditRate_valid r Hr). cbn [negb].
  rewrite (proj2 (isValidIndex_spec index)) by lia. cbn [negb].
  destruct r as [N D]. unfold valid_rate in Hr. cbn [numerator denominator] in *.
  change (10 ^ 9) with 1000000000 in Hr.
  unfold UINT64_MAX in *.
  change (18446744073709551615 / 2) with 9223372036854775807 in *.
  assert (HP : 0 <= index * D <= index * 1000000000) by nia.
  set (P := index * D) in *.
  rewrite (Z.quot_div_nonneg N 2) by lia.
  assert (Hh : 0 <= N / 2 <= 500000000).
  { split; [apply Z.div_pos; lia|].
    apply Z.div_le_upper_bound; lia. }
  set (h := N / 2) in *.
  rewrite (i128_fits P) by (unfold fits128, INT128_MAX; lia).
  rewrite (i128_fits (P * 1000000000)), (i128_fits h), (i128_fits N),
    (i128_fits (P * 1000000000 + h))
    by (unfold fits128, INT128_MAX; lia).
  destruct (Z.ltb_spec (P * 1000000000) 0); [lia|].
  destruct (Z.ltb_spec h 0); [lia|].
  destruct (Z.leb_spec N 0); [lia|]. cbn [orb].
  destruct (Z.gtb_spec (P * 1000000000) (INT128_MAX - h));
    [unfold INT128_MAX in *; lia|].
  rewrite Z.quot_div_nonneg by lia.
  assert (Hq : 0 <= (P * 1000000000 + h) / N <= P * 1000000000 + h).
  { split; [apply Z.div_pos; lia|].
    apply Z.div_le_upper_bound; [lia|]. nia. }
  rewrite i128_fits by (unfold fits128, INT128_MAX; lia).
  cbv zeta. split; [lia|].
  destruct (safecast128ToUint64_cases ((P * 1000000000 + h) / N))
    as [[-> Hbad] | [-> Hok]]; limits.
  - destruct (Z.gtb_spec ((P * 1000000000 + h) / N) 9223372036854775807);
      [reflexivity | lia].
  - destruct (Z.gtb_spec ((P * 1000000000 + h) / N) 9223372036854775807);
      [lia | reflexivity].
Qed.

Lemma mxlGetTime_range (timepoint : Timepoint) :
  0 <= mxlGetTime timepoint <= UINT64_MAX / 2.
Proof.
  unfold mxlGetTime, MAX_REASONABLE_TIMESTAMP, UINT64_MAX, u64.
  change (18446744073709551615 / 2) with 9223372036854775807.
  replace (2 ^ 64) with 18446744073709551616 by reflexivity.
  destruct (tp_ok timepoint); cbn [negb]; [|lia].
  destruct (Z.ltb_spec (value timepoint) 0); [lia|].
  pose proof (Z.mod_pos_bound (value timepoint) 18446744073709551616).
  destruct (Z.gtb_spec (value timepoint mod 18446744073709551616)
              9223372036854775807); lia.
Qed.

Lemma mxlIndexToTimestamp_range (editRate : RationalPtr) (index : Z) :
  mxlIndexToTimestamp editRate index = MXL_UNDEFINED_INDEX
  \/ 0 <= mxlIndexToTimestamp editRate index <= UINT64_MAX / 2.
Proof.
  unfold mxlIndexToTimestamp.
  destruct (isValidEditRate editRate); cbn [negb]; [|left; reflexivity].
  destruct editRate as [r|]; [|left; reflexivity].
  destruct (isValidIndex index); cbn [negb]; [|left; reflexivity].
  cbv zeta.
  destruct (_ || _); [left; reflexivity|].
  destruct (_ >? _); [left; reflexivity|].
  match goal with |- context [safecast128ToUint64 ?v] =>
    destruct (safecast128ToUint64_cases v) as [[-> _] | [-> ?]] end;
    [left; reflexivity | right; assumption].
Qed.

Lemma mxlTimestampToIndex_range (editRate : RationalPtr) (timestamp : Z) :
  mxlTimestampToIndex editRate timestamp = MXL_UNDEFINED_INDEX
  \/ 0 <= mxlTimestampToIndex editRate timestamp <= UINT64_MAX / 2.
Proof.
  unfold mxlTimestampToIndex.
  destruct (isValidEditRate editRate); cbn [negb]; [|left; reflexivity].
  destruct editRate as [r|]; [|left; reflexivity].
  destruct (isValidTimestamp timestamp); cbn [negb]; [|left; reflexivity].
  cbv zeta.
  destruct (_ || _); [left; reflexivity|].
  destruct (_ >? _); [left; reflexivity|].
  match goal with |- context [safecast128ToUint64 ?v] =>
    destruct (safecast128ToUint64_cases v) as [[-> _] | [-> ?]] end;
    [left; reflexivity | right; assumption].
Qed.

(** *** The properties of the specification *)

(** C1. For every edit rate that passes validation and every index
    [i <= UINT64_MAX / 2] whose timestamp is defined, converting the index
    to a timestamp and back gives the index again. *)
Theorem index_timestamp_roundtrip (editRate : RationalPtr) (i : Z) :
  isValidEditRate editRate = true ->
  0 <= i <= UINT64_MAX / 2 ->
  mxlIndexToTimestamp editRate i <> MXL_UNDEFINED_INDEX ->
  mxlTimestampToIndex editRate (mxlIndexToTimestamp editRate i) = i.
Proof.
  intros Hvalid Hi Hdef.
  apply isValidEditRate_spec in Hvalid as (r & -> & Hr).
  destruct (mxlIndexToTimestamp_exact r i Hr Hi) as [Hq0 Hts].
  cbv zeta in Hq0, Hts.
  set (q := (i * denominator r * 1000000000 + numerator r / 2) / numerator r) in *.
  destruct (Z.gtb_spec q (UINT64_MAX / 2)) as [Hbig | Hsmall];
    [congruence|].
  rewrite Hts.
  destruct (mxlTimestampToIndex_exact r q Hr (conj Hq0 Hsmall)) as [-> _].
  destruct r as [N D]. unfold valid_rate in Hr. cbn [numerator denominator] in *.
  change (10 ^ 9) with 1000000000 in Hr.
  assert (Hlow : N * q <= i * D * 1000000000 + N / 2)
    by (apply Z.mul_div_le; lia).
  assert (Hhigh : i * D * 1000000000 + N / 2 < N * Z.succ q)
    by (apply Z.mul_succ_div_gt; lia).
  assert (Hhalf : 2 * (N / 2) <= N < 2 * (N / 2) + 2).
  { pose proof (Z.mul_div_le N 2). pose proof (Z.mul_succ_div_gt N 2). lia. }
  clearbody q. set (h := N / 2) in *. clearbody h.
  assert (HP : 0 <= i * D) by nia.
  symmetry.
  apply (Z.div_unique _ _ _ (q * N + D * 500000000 - i * D * 1000000000));
    [|lia].
  left. destruct (Z.eq_dec N 1000000000) as [-> | Hne]; lia.
Qed.

Lemma index_timestamp_roundtrip_witness :
  mxlTimestampToIndex rate_30000_1001
    (mxlIndexToTimestamp rate_30000_1001 30000000) = 30000000.
Proof.
  apply (index_timestamp_roundtrip rate_30000_1001 30000000).
  - reflexivity.
  - unfold UINT64_MAX.
    change (18446744073709551615 / 2) with 9223372036854775807. lia.
  - vm_compute. discriminate.
Defined.

(** C2. For every valid edit rate and every timestamp
    [ts <= UINT64_MAX / 2], [mxlTimestampToIndex] is the exact quotient
    [(ts * num + den * 5*10^8) / (den * 10^9)], rounded down. *)
Theorem timestamp_to_index_is_rounded_quotient (r : Rational) (ts : Z) :
  1 <= numerator r <= 10 ^ 9 ->
  1 <= denominator r <= 10 ^ 9 ->
  0 <= ts <= UINT64_MAX / 2 ->
  mxlTimestampToIndex (Some r) ts
  = (ts * numerator r + denominator r * (5 * 10 ^ 8)) / (denominator r * 10 ^ 9).
Proof.
  intros Hn Hd Hts.
  exact (proj1 (mxlTimestampToIndex_exact r ts (conj Hn Hd) Hts)).
Qed.

Lemma timestamp_to_index_is_rounded_quotient_witness :
  mxlTimestampToIndex (Some (mkRational 30000 1001)) 1000000000000000000
  = (1000000000000000000 * 30000 + 1001 * (5 * 10 ^ 8)) / (1001 * 10 ^ 9).
Proof.
  apply (timestamp_to_index_is_rounded_quotient (mkRational 30000 1001)
           1000000000000000000); cbn [numerator denominator].
  - change (10 ^ 9) with 1000000000. lia.
  - change (10 ^ 9) with 1000000000. lia.
  - unfold UINT64_MAX.
    change (18446744073709551615 / 2) with 9223372036854775807. lia.
Defined.

Lemma invalid_rate_rejected (editRate : RationalPtr) (arg : Z)
    (timepoint : Timepoint) :
  isValidEditRate editRate = false ->
  mxlTimestampToIndex editRate arg = MXL_UNDEFINED_INDEX
  /\ mxlIndexToTimestamp editRate arg = MXL_UNDEFINED_INDEX
  /\ mxlGetNsUntilIndex arg editRate timepoint = MXL_UNDEFINED_INDEX.
Proof.
  intros H.
  unfold mxlTimestampToIndex, mxlIndexToTimestamp, mxlGetNsUntilIndex.
  rewrite H. auto.
Qed.

Lemma large_argument_rejected (editRate : RationalPtr) (arg : Z)
    (timepoint : Timepoint) :
  arg > UINT64_MAX / 2 ->
  mxlTimestampToIndex editRate arg = MXL_UNDEFINED_INDEX
  /\ mxlIndexToTimestamp editRate arg = MXL_UNDEFINED_INDEX
  /\ mxlGetNsUntilIndex arg editRate timepoint = MXL_UNDEFINED_INDEX.
Proof.
  intros H.
  assert (Ht : isValidTimestamp arg = false).
  { destruct (isValidTimestamp arg) eqn:E; [|reflexivity].
    apply isValidTimestamp_spec in E. lia. }
  assert (Hi : isValidIndex arg = false) by exact Ht.
  unfold mxlTimestampToIndex, mxlIndexToTimestamp, mxlGetNsUntilIndex.
  rewrite Ht, Hi.
  destruct (isValidEditRate editRate), editRate; auto.
Qed.

Lemma validated_call_does_not_overflow (r : Rational) (arg : Z) :
  valid_rate r -> 0 <= arg <= UINT64_MAX / 2 ->
  ~ timestampToIndex_overflows r arg /\ ~ indexToTimestamp_overflows r arg.
Proof.
  intros Hr Harg.
  destruct r as [N D]. unfold valid_rate in Hr.
  unfold timestampToIndex_overflows, indexToTimestamp_overflows, fits128,
    INT128_MAX.
  cbn [numerator denominator] in *.
  change (10 ^ 9) with 1000000000 in Hr.
  unfold UINT64_MAX in Harg.
  change (18446744073709551615 / 2) with 9223372036854775807 in Harg.
  assert (0 <= arg * N <= arg * 1000000000) by nia.
  assert (0 <= arg * D <= arg * 1000000000) by nia.
  rewrite (Z.quot_div_nonneg N 2) by lia.
  assert (0 <= N / 2 <= 500000000).
  { split; [apply Z.div_pos; lia | apply Z.div_le_upper_bound; lia]. }
  lia.
Qed.

(** C3. [mxlTimestampToIndex], [mxlIndexToTimestamp] and
    [mxlGetNsUntilIndex] return [MXL_UNDEFINED_INDEX], the all-ones 64-bit
    value, whenever the rate is null, has a zero numerator or denominator,
    has a numerator or denominator above [10^9], the timestamp or index is
    above [UINT64_MAX / 2], or a 128-bit intermediate would overflow. *)
Theorem invalid_calls_return_sentinel (editRate : RationalPtr) (arg : Z)
    (timepoint : Timepoint) :
  0 <= arg <= UINT64_MAX ->
  MXL_UNDEFINED_INDEX = 2 ^ 64 - 1
  /\ (rejected_call timestampToIndex_overflows editRate arg ->
      mxlTimestampToIndex editRate arg = MXL_UNDEFINED_INDEX)
  /\ (rejected_call indexToTimestamp_overflows editRate arg ->
      mxlIndexToTimestamp editRate arg = MXL_UNDEFINED_INDEX
      /\ mxlGetNsUntilIndex arg editRate timepoint = MXL_UNDEFINED_INDEX).
Proof.
  intros Harg. split; [reflexivity|].
  assert (Hcases : forall overflows,
    (forall r, valid_rate r -> 0 <= arg <= UINT64_MAX / 2 -> ~ overflows r arg) ->
    rejected_call overflows editRate arg ->
    isValidEditRate editRate = false \/ arg > UINT64_MAX / 2).
  { intros overflows Hno [-> | [(r & -> & Hbad) | [Hbig | (r & -> & Hov)]]].
    - left. reflexivity.
    - left. destruct (isValidEditRate (Some r)) eqn:E; [|reflexivity].
      apply isValidEditRate_spec in E as (r' & [= <-] & Hn & Hd). lia.
    - right. exact Hbig.
    - destruct (isValidEditRate (Some r)) eqn:E; [|left; reflexivity].
      apply isValidEditRate_spec in E as (r' & [= <-] & Hr).
      destruct (Z_gt_le_dec arg (UINT64_MAX / 2)) as [Hbig | Hsmall];
        [right; exact Hbig|].
      exfalso. apply (Hno r Hr); [lia | exact Hov]. }
  split; intros Hrej.
  - apply Hcases in Hrej as [Hinv | Hbig].
    + apply (invalid_rate_rejected editRate arg timepoint Hinv).
    + apply (large_argument_rejected editRate arg timepoint Hbig).
    + intros r Hr Ha. apply (validated_call_does_not_overflow r arg Hr Ha).
  - apply Hcases in Hrej as [Hinv | Hbig].
    + apply (invalid_rate_rejected editRate arg timepoint Hinv).
    + apply (large_argument_rejected editRate arg timepoint Hbig).
    + intros r Hr Ha. apply (validated_call_does_not_overflow r arg Hr Ha).
Qed.

Lemma invalid_calls_return_sentinel_witness :
  MXL_UNDEFINED_INDEX = 2 ^ 64 - 1
  /\ mxlTimestampToIndex (Some (mkRational 0 1001)) 5 = MXL_UNDEFINED_INDEX
  /\ mxlIndexToTimestamp (Some (mkRational 0 1001)) 5 = MXL_UNDEFINED_INDEX
  /\ mxlGetNsUntilIndex 5 (Some (mkRational 0 1001)) (mkTimepoint true 7)
     = MXL_UNDEFINED_INDEX.
Proof.
  assert (Harg : 0 <= 5 <= UINT64_MAX) by (unfold UINT64_MAX; lia).
  destruct (invalid_calls_return_sentinel (Some (mkRational 0 1001)) 5
              (mkTimepoint true 7) Harg) as (Hall & Hti & Hit).
  assert (Hrej : forall overflows,
            rejected_call overflows (Some (mkRational 0 1001)) 5).
  { intros overflows. right. left. exists (mkRational 0 1001).
    split; [reflexivity | left; reflexivity]. }
  split; [exact Hall|].
  split; [exact (Hti (Hrej _))|].
  exact (Hit (Hrej _)).
Defined.

(** C9. For every rate pointer and every argument, [mxlTimestampToIndex]
    and [mxlIndexToTimestamp] return [MXL_UNDEFINED_INDEX] or a value of at
    most [UINT64_MAX / 2]; the sentinel lies above that bound, so no
    defined result is strictly between [UINT64_MAX / 2] and [UINT64_MAX]. *)
Theorem defined_results_are_at_most_half_range (editRate : RationalPtr)
    (arg : Z) :
  UINT64_MAX / 2 < MXL_UNDEFINED_INDEX
  /\ MXL_UNDEFINED_INDEX = UINT64_MAX
  /\ (mxlTimestampToIndex editRate arg = MXL_UNDEFINED_INDEX
      \/ 0 <= mxlTimestampToIndex editRate arg <= UINT64_MAX / 2)
  /\ (mxlIndexToTimestamp editRate arg = MXL_UNDEFINED_INDEX
      \/ 0 <= mxlIndexToTimestamp editRate arg <= UINT64_MAX / 2)
  /\ ~ (UINT64_MAX / 2 < mxlTimestampToIndex editRate arg < UINT64_MAX)
  /\ ~ (UINT64_MAX / 2 < mxlIndexToTimestamp editRate arg < UINT64_MAX).
Proof.
  assert (Hs : UINT64_MAX / 2 < MXL_UNDEFINED_INDEX) by reflexivity.
  pose proof (mxlTimestampToIndex_range editRate arg) as Ht.
  pose proof (mxlIndexToTimestamp_range editRate arg) as Hi.
  unfold MXL_UNDEFINED_INDEX in *.
  repeat split; try assumption; lia.
Qed.

(** C7, as the code has it. For every valid edit rate and in-range index,
    [mxlGetNsUntilIndex] returns [MXL_UNDEFINED_INDEX] when the conversion
    of the index overflows or when the clock read fails ([mxlGetTime]
    returns 0); with a clock reading [now <> 0] it returns 0 when the
    index's timestamp is at or before [now], and the exact difference
    [timestamp - now] when it is later. *)
Theorem ns_until_index_cases (editRate : RationalPtr) (index : Z)
    (timepoint : Timepoint) :
  isValidEditRate editRate = true ->
  0 <= index <= UINT64_MAX / 2 ->
  let target := mxlIndexToTimestamp editRate index in
  let now := mxlGetTime timepoint in
  let result := mxlGetNsUntilIndex index editRate timepoint in
  (target = MXL_UNDEFINED_INDEX -> result = MXL_UNDEFINED_INDEX)
  /\ (now = 0 -> result = MXL_UNDEFINED_INDEX)
  /\ (target <> MXL_UNDEFINED_INDEX -> now <> 0 -> target <= now -> result = 0)
  /\ (target <> MXL_UNDEFINED_INDEX -> now <> 0 -> now < target ->
      result = target - now).
Proof.
  intros Hvalid Hidx target now result.
  subst result. unfold mxlGetNsUntilIndex.
  rewrite Hvalid. cbn [negb].
  rewrite (proj2 (isValidIndex_spec index)) by lia. cbn [negb]. cbv zeta.
  fold target. fold now.
  pose proof (mxlGetTime_range timepoint) as Hnow. fold now in Hnow.
  pose proof (mxlIndexToTimestamp_range editRate index) as Htarget.
  fold target in Htarget.
  clearbody target now.
  assert (Hs : MXL_UNDEFINED_INDEX = UINT64_MAX) by reflexivity.
  assert (Hm : MAX_REASONABLE_TIMESTAMP = UINT64_MAX / 2) by reflexivity.
  assert (Hh : UINT64_MAX / 2 < UINT64_MAX) by reflexivity.
  destruct (Z.eqb_spec target MXL_UNDEFINED_INDEX) as [Hundef | Hdef].
  { repeat split; intros; try reflexivity; contradiction. }
  destruct Htarget as [? | Htarget]; [contradiction|].
  destruct (Z.eqb_spec now 0) as [Hzero | Hnz].
  { repeat split; intros; try reflexivity; contradiction. }
  destruct (Z.ltb_spec target now) as [Hpast | Hfuture].
  { repeat split; intros; try reflexivity; try contradiction; lia. }
  rewrite u64_fits by lia.
  destruct (Z.gtb_spec (target - now) MAX_REASONABLE_TIMESTAMP); [lia|].
  repeat split; intros; try reflexivity; try contradiction; lia.
Qed.

Lemma ns_until_index_cases_witness :
  mxlGetNsUntilIndex 30 rate_30000_1001 (mkTimepoint true 1000000) = 1000000000
  /\ mxlGetNsUntilIndex 30 rate_30000_1001 (mkTimepoint true 2000000000) = 0
  /\ mxlGetNsUntilIndex 30 rate_30000_1001 (mkTimepoint false 0)
     = MXL_UNDEFINED_INDEX.
Proof.
  assert (Hidx : 0 <= 30 <= UINT64_MAX / 2) by (vm_compute; split; discriminate).
  split; [|split].
  - refine (proj2 (proj2 (proj2 (ns_until_index_cases rate_30000_1001 30
              (mkTimepoint true 1000000) eq_refl Hidx))) _ _ _);
      vm_compute; congruence.
  - refine (proj1 (proj2 (proj2 (ns_until_index_cases rate_30000_1001 30
              (mkTimepoint true 2000000000) eq_refl Hidx))) _ _ _);
      vm_compute; congruence.
  - exact (proj1 (proj2 (ns_until_index_cases rate_30000_1001 30
              (mkTimepoint false 0) eq_refl Hidx)) eq_refl).
Defined.

(** C7, as stated, fails when the clock read fails: index 0 of rate 1/1
    has timestamp 0, which is at or before the reading 0 that [mxlGetTime]
    hands back for a failed clock, yet the result is the sentinel, not 0;
    and index 5, whose timestamp lies after that reading, does not yield
    the difference. *)
Lemma ns_until_index_clock_failure :
  let rate := Some (mkRational 1 1) in
  let failed := mkTimepoint false 0 in
  isValidEditRate rate = true
  /\ mxlGetTime failed = 0
  /\ mxlIndexToTimestamp rate 0 = 0
  /\ mxlIndexToTimestamp rate 0 <= mxlGetTime failed
  /\ mxlGetNsUntilIndex 0 rate failed = MXL_UNDEFINED_INDEX
  /\ mxlGetNsUntilIndex 0 rate failed <> 0
  /\ mxlIndexToTimestamp rate 5 = 5000000000
  /\ mxlGetNsUntilIndex 5 rate failed
     <> mxlIndexToTimestamp rate 5 - mxlGetTime failed.
Proof. repeat split; vm_compute; congruence. Qed.

(** C10. [mxlGetCurrentIndex] returns [MXL_UNDEFINED_INDEX] whenever the
    rate is invalid or the clock read fails ([mxlGetTime] returns 0);
    otherwise it is [mxlTimestampToIndex] of the clock value read during
    the call.  A failed clock read therefore never yields index 0. *)
Theorem current_index_cases (editRate : RationalPtr) (timepoint : Timepoint) :
  (isValidEditRate editRate = false \/ mxlGetTime timepoint = 0 ->
   mxlGetCurrentIndex editRate timepoint = MXL_UNDEFINED_INDEX)
  /\ (isValidEditRate editRate = true -> mxlGetTime timepoint <> 0 ->
      mxlGetCurrentIndex editRate timepoint
      = mxlTimestampToIndex editRate (mxlGetTime timepoint))
  /\ (tp_ok timepoint = false -> mxlGetTime timepoint = 0)
  /\ (mxlGetTime timepoint = 0 -> mxlGetCurrentIndex editRate timepoint <> 0).
Proof.
  unfold mxlGetCurrentIndex.
  assert (Hfail : tp_ok timepoint = false -> mxlGetTime timepoint = 0).
  { unfold mxlGetTime. intros ->. reflexivity. }
  destruct (isValidEditRate editRate); cbn [negb];
    destruct (Z.eqb_spec (mxlGetTime timepoint) 0) as [Hz | Hnz];
    repeat split; intros; try reflexivity; try assumption;
    try discriminate; try contradiction; intuition congruence.
Qed.

Lemma current_index_cases_witness :
  mxlGetCurrentIndex rate_30000_1001 (mkTimepoint true 33366667)
  = mxlTimestampToIndex rate_30000_1001 (mxlGetTime (mkTimepoint true 33366667))
  /\ mxlGetCurrentIndex rate_30000_1001 (mkTimepoint false 0)
     = MXL_UNDEFINED_INDEX.
Proof.
  split.
  - refine (proj1 (proj2 (current_index_cases rate_30000_1001
              (mkTimepoint true 33366667))) eq_refl _).
    vm_compute. discriminate.
  - exact (proj1 (current_index_cases rate_30000_1001 (mkTimepoint false 0))
             (or_intror eq_refl)).
Defined.

(** *** Further properties of the conversions *)

(** Closed comparisons of numerals. *)
Ltac numerals := vm_compute; repeat split; first [discriminate | reflexivity].

(** The quotient [mxlIndexToTimestamp] computes for a validated call. *)
Lemma index_quotient_spec (N D i : Z) :
  1 <= N <= 1000000000 -> 1 <= D -> 0 <= i ->
  let x := i * D * 1000000000 + N / 2 in
  0 <= x /\ N * (x / N) <= x < N * (x / N) + N
  /\ 2 * (N / 2) <= N <= 2 * (N / 2) + 1.
Proof.
  intros HN HD Hi x.
  assert (Hh : 2 * (N / 2) <= N <= 2 * (N / 2) + 1).
  { pose proof (Z.mul_div_le N 2). pose proof (Z.mul_succ_div_gt N 2). lia. }
  assert (Hx : 0 <= x) by (subst x; nia).
  split; [exact Hx|]. split; [|exact Hh].
  pose proof (Z.mul_div_le x N). pose proof (Z.mul_succ_div_gt x N). lia.
Qed.

(** X1. For a rate with both components in 1 .. 10^9 and an index
    [i <= UINT64_MAX / 2], [mxlIndexToTimestamp] returns the quotient
    [(i * denominator * 10^9 + numerator / 2) / numerator] when that
    quotient is at most [UINT64_MAX / 2], and [MXL_UNDEFINED_INDEX] when it
    is larger. *)
Theorem index_to_timestamp_is_rounded_quotient (r : Rational) (i : Z) :
  1 <= numerator r <= 10 ^ 9 ->
  1 <= denominator r <= 10 ^ 9 ->
  0 <= i <= UINT64_MAX / 2 ->
  let q := (i * denominator r * 10 ^ 9 + numerator r / 2) / numerator r in
  (q <= UINT64_MAX / 2 -> mxlIndexToTimestamp (Some r) i = q)
  /\ (UINT64_MAX / 2 < q -> mxlIndexToTimestamp (Some r) i = MXL_UNDEFINED_INDEX).
Proof.
  intros Hn Hd Hi q.
  destruct (mxlIndexToTimestamp_exact r i (conj Hn Hd) Hi) as [_ Heq].
  cbv zeta in Heq. change (10 ^ 9) with 1000000000 in q. fold q in Heq.
  rewrite Heq. split; intros Hq.
  - destruct (Z.gtb_spec q (UINT64_MAX / 2)); [lia | reflexivity].
  - destruct (Z.gtb_spec q (UINT64_MAX / 2)); [reflexivity | lia].
Qed.

Lemma index_to_timestamp_is_rounded_quotient_witness :
  mxlIndexToTimestamp (Some (mkRational 30000 1001)) 1 = 33366667
  /\ mxlIndexToTimestamp (Some (mkRational 1 1000000000)) 10
     = MXL_UNDEFINED_INDEX.
Proof.
  split.
  - refine (proj1 (index_to_timestamp_is_rounded_quotient
                     (mkRational 30000 1001) 1 _ _ _) _); numerals.
  - refine (proj2 (index_to_timestamp_is_rounded_quotient
                     (mkRational 1 1000000000) 10 _ _ _) _); numerals.
Defined.

Lemma mxlTimestampToIndex_mono (r : Rational) (ts1 ts2 : Z) :
  1 <= numerator r <= 10 ^ 9 ->
  1 <= denominator r <= 10 ^ 9 ->
  0 <= ts1 <= ts2 ->
  ts2 <= UINT64_MAX / 2 ->
  mxlTimestampToIndex (Some r) ts1 <= mxlTimestampToIndex (Some r) ts2.
Proof.
  intros Hn Hd H12 H2.
  destruct (mxlTimestampToIndex_exact r ts1 (conj Hn Hd)) as [-> _]; [lia|].
  destruct (mxlTimestampToIndex_exact r ts2 (conj Hn Hd)) as [-> _]; [lia|].
  change (10 ^ 9) with 1000000000 in *.
  apply Z.div_le_mono; [lia | nia].
Qed.

(** X2. For a rate with both components in 1 .. 10^9,
    [mxlTimestampToIndex] is monotone on the timestamps
    [0 .. UINT64_MAX / 2], and defined there. *)
Theorem timestamp_to_index_monotone (r : Rational) (ts1 ts2 : Z) :
  1 <= numerator r <= 10 ^ 9 ->
  1 <= denominator r <= 10 ^ 9 ->
  0 <= ts1 <= ts2 ->
  ts2 <= UINT64_MAX / 2 ->
  mxlTimestampToIndex (Some r) ts1 <= mxlTimestampToIndex (Some r) ts2
  /\ mxlTimestampToIndex (Some r) ts2 <> MXL_UNDEFINED_INDEX.
Proof.
  intros Hn Hd H12 H2. split.
  - by apply mxlTimestampToIndex_mono.
  - destruct (mxlTimestampToIndex_exact r ts2 (conj Hn Hd)) as [_ Hr]; [lia|].
    assert (Hm : UINT64_MAX / 2 < MXL_UNDEFINED_INDEX) by reflexivity. lia.
Qed.

Lemma timestamp_to_index_monotone_witness :
  mxlTimestampToIndex (Some (mkRational 30000 1001)) 33366667
  <= mxlTimestampToIndex (Some (mkRational 30000 1001)) 1000000000
  /\ mxlTimestampToIndex (Some (mkRational 30000 1001)) 1000000000
     <> MXL_UNDEFINED_INDEX.
Proof.
  apply (timestamp_to_index_monotone (mkRational 30000 1001) 33366667 1000000000);
    numerals.
Defined.

(** X3. For a rate with both components in 1 .. 10^9 and indices
    [i < j <= UINT64_MAX / 2]: when the timestamp of [j] is defined, so is
    the timestamp of [i], and it is strictly smaller. *)
Theorem index_to_timestamp_strictly_increasing (r : Rational) (i j : Z) :
  1 <= numerator r <= 10 ^ 9 ->
  1 <= denominator r <= 10 ^ 9 ->
  0 <= i < j ->
  j <= UINT64_MAX / 2 ->
  mxlIndexToTimestamp (Some r) j <> MXL_UNDEFINED_INDEX ->
  mxlIndexToTimestamp (Some r) i <> MXL_UNDEFINED_INDEX
  /\ mxlIndexToTimestamp (Some r) i < mxlIndexToTimestamp (Some r) j.
Proof.
  intros Hn Hd Hij Hj Hdef.
  destruct (mxlIndexToTimestamp_exact r i (conj Hn Hd)) as [Hqi Hi]; [lia|].
  destruct (mxlIndexToTimestamp_exact r j (conj Hn Hd)) as [Hqj Hjeq]; [lia|].
  cbv zeta in *.
  destruct r as [N D]. cbn [numerator denominator] in *.
  change (10 ^ 9) with 1000000000 in *.
  destruct (index_quotient_spec N D i) as (Hxi & Hdi & Hh); [lia | lia | lia|].
  destruct (index_quotient_spec N D j) as (Hxj & Hdj & _); [lia | lia | lia|].
  cbv zeta in *.
  set (qi := (i * D * 1000000000 + N / 2) / N) in *.
  set (qj := (j * D * 1000000000 + N / 2) / N) in *.
  assert (Hlt : qi < qj).
  { assert (Hstep : (i + 1) * D <= j * D) by nia.
    assert (HD : N <= D * 1000000000) by nia.
    assert (Hq : N * qi < N * qj) by nia.
    nia. }
  clearbody qi qj.
  assert (Hs : MXL_UNDEFINED_INDEX = UINT64_MAX) by reflexivity.
  assert (Hm : UINT64_MAX / 2 < UINT64_MAX) by reflexivity.
  rewrite Hjeq in Hdef. rewrite Hi, Hjeq.
  destruct (Z.gtb_spec qj (UINT64_MAX / 2)); [congruence|].
  destruct (Z.gtb_spec qi (UINT64_MAX / 2)); [lia|].
  split; [lia | exact Hlt].
Qed.

Lemma index_to_timestamp_strictly_increasing_witness :
  mxlIndexToTimestamp rate_30000_1001 1 <> MXL_UNDEFINED_INDEX
  /\ mxlIndexToTimestamp rate_30000_1001 1 < mxlIndexToTimestamp rate_30000_1001 2.
Proof.
  apply (index_to_timestamp_strictly_increasing (mkRational 30000 1001) 1 2);
    numerals.
Defined.

(** X4. For a rate with both components in 1 .. 10^9: when the timestamp
    of index [i + 1] is defined, it lies one period after the timestamp of
    [i], the period being [denominator * 10^9 / numerator] nanoseconds
    rounded down, or one nanosecond more. *)
Theorem consecutive_timestamps_one_period_apart (r : Rational) (i : Z) :
  1 <= numerator r <= 10 ^ 9 ->
  1 <= denominator r <= 10 ^ 9 ->
  0 <= i ->
  i + 1 <= UINT64_MAX / 2 ->
  mxlIndexToTimestamp (Some r) (i + 1) <> MXL_UNDEFINED_INDEX ->
  let period := denominator r * 10 ^ 9 / numerator r in
  period
  <= mxlIndexToTimestamp (Some r) (i + 1) - mxlIndexToTimestamp (Some r) i
  <= period + 1.
Proof.
  intros Hn Hd Hi Hj Hdef period.
  destruct (mxlIndexToTimestamp_exact r i (conj Hn Hd)) as [Hqi Hieq]; [lia|].
  destruct (mxlIndexToTimestamp_exact r (i + 1) (conj Hn Hd)) as [Hqj Hjeq];
    [lia|].
  cbv zeta in *.
  destruct r as [N D]. cbn [numerator denominator] in *.
  change (10 ^ 9) with 1000000000 in *.
  destruct (index_quotient_spec N D i) as (Hxi & Hdi & Hh); [lia | lia | lia|].
  destruct (index_quotient_spec N D (i + 1)) as (Hxj & Hdj & _);
    [lia | lia | lia|].
  cbv zeta in *.
  assert (Hp : N * period <= D * 1000000000 < N * period + N).
  { subst period. pose proof (Z.mul_div_le (D * 1000000000) N).
    pose proof (Z.mul_succ_div_gt (D * 1000000000) N). lia. }
  set (qi := (i * D * 1000000000 + N / 2) / N) in *.
  set (qj := ((i + 1) * D * 1000000000 + N / 2) / N) in *.
  assert (Hdiff : period <= qj - qi <= period + 1).
  { clearbody qi qj period. split; nia. }
  clearbody qi qj.
  assert (Hs : MXL_UNDEFINED_INDEX = UINT64_MAX) by reflexivity.
  assert (Hm : UINT64_MAX / 2 < UINT64_MAX) by reflexivity.
  assert (Hp0 : 0 <= period).
  { subst period. apply Z.div_pos; lia. }
  rewrite Hjeq in Hdef. rewrite Hieq, Hjeq.
  destruct (Z.gtb_spec qj (UINT64_MAX / 2)); [congruence|].
  destruct (Z.gtb_spec qi (UINT64_MAX / 2)); [lia|].
  exact Hdiff.
Qed.

Lemma consecutive_timestamps_one_period_apart_witness :
  33366666
  <= mxlIndexToTimestamp rate_30000_1001 1 - mxlIndexToTimestamp rate_30000_1001 0
  <= 33366666 + 1.
Proof.
  apply (consecutive_timestamps_one_period_apart (mkRational 30000 1001) 0);
    numerals.
Defined.

(** How far the timestamp of the index of [ts] lies from [ts], on either
    side. *)
Lemma snapped_timestamp_bounds (r : Rational) (ts : Z) :
  1 <= numerator r <= 10 ^ 9 ->
  1 <= denominator r <= 10 ^ 9 ->
  0 <= ts <= UINT64_MAX / 2 ->
  let ts' := mxlIndexToTimestamp (Some r) (mxlTimestampToIndex (Some r) ts) in
  ts' <> MXL_UNDEFINED_INDEX ->
  2 * numerator r * (ts' - ts) <= denominator r * 10 ^ 9 + numerator r
  /\ 2 * numerator r * (ts - ts') <= denominator r * 10 ^ 9 + numerator r.
Proof.
  intros Hn Hd Hts ts' Hdef. subst ts'.
  destruct (mxlTimestampToIndex_exact r ts (conj Hn Hd) Hts) as [Hidx Hrange].
  set (idx := mxlTimestampToIndex (Some r) ts) in *.
  destruct (mxlIndexToTimestamp_exact r idx (conj Hn Hd)) as [Hq Heq]; [lia|].
  cbv zeta in *.
  destruct r as [N D]. cbn [numerator denominator] in *.
  change (10 ^ 9) with 1000000000 in *.
  destruct (index_quotient_spec N D idx) as (Hx & Hdiv & Hh); [lia | lia | lia|].
  cbv zeta in *.
  set (q := (idx * D * 1000000000 + N / 2) / N) in *.
  assert (Hs : MXL_UNDEFINED_INDEX = UINT64_MAX) by reflexivity.
  rewrite Heq in Hdef |- *.
  destruct (Z.gtb_spec q (UINT64_MAX / 2)); [congruence|].
  assert (Hlow : D * 1000000000 * idx <= ts * N + D * 500000000).
  { rewrite Hidx. apply Z.mul_div_le. lia. }
  assert (Hhigh : ts * N + D * 500000000 < D * 1000000000 * Z.succ idx).
  { rewrite Hidx. apply Z.mul_succ_div_gt. lia. }
  clearbody q idx. set (h := N / 2) in *. clearbody h.
  unfold Z.succ in Hhigh. split; lia.
Qed.

(** X5. For a rate with both components in 1 .. 10^9 and a timestamp
    [ts <= UINT64_MAX / 2]: when the timestamp of the index of [ts] is
    defined, it lies within half a period of [ts] (up to the rounding of the
    half numerator):
    [2 * numerator * |ts' - ts| <= denominator * 10^9 + numerator]. *)
Theorem timestamp_snaps_within_half_period (r : Rational) (ts : Z) :
  1 <= numerator r <= 10 ^ 9 ->
  1 <= denominator r <= 10 ^ 9 ->
  0 <= ts <= UINT64_MAX / 2 ->
  let ts' := mxlIndexToTimestamp (Some r) (mxlTimestampToIndex (Some r) ts) in
  ts' <> MXL_UNDEFINED_INDEX ->
  2 * numerator r * Z.abs (ts' - ts) <= denominator r * 10 ^ 9 + numerator r.
Proof.
  intros Hn Hd Hts ts' Hdef.
  destruct (snapped_timestamp_bounds r ts Hn Hd Hts Hdef) as [Hlate Hearly].
  fold ts' in Hlate, Hearly. clearbody ts'.
  destruct (Z.abs_spec (ts' - ts)) as [[_ ->] | [_ ->]]; [exact Hlate|].
  replace (- (ts' - ts)) with (ts - ts') by lia. exact Hearly.
Qed.

Lemma timestamp_snaps_within_half_period_witness :
  2 * 30000
  * Z.abs (mxlIndexToTimestamp rate_30000_1001
             (mxlTimestampToIndex rate_30000_1001 40000000) - 40000000)
  <= 1001 * 10 ^ 9 + 30000.
Proof.
  apply (timestamp_snaps_within_half_period (mkRational 30000 1001) 40000000);
    numerals.
Defined.

(** The result of [mxlGetNsUntilIndex] once the rate and index are valid,
    the timestamp of the index is defined and the clock was read. *)
Lemma mxlGetNsUntilIndex_defined (editRate : RationalPtr) (index : Z)
    (timepoint : Timepoint) :
  isValidEditRate editRate = true ->
  index <= UINT64_MAX / 2 ->
  mxlIndexToTimestamp editRate index <> MXL_UNDEFINED_INDEX ->
  mxlGetTime timepoint <> 0 ->
  mxlGetNsUntilIndex index editRate timepoint
  = Z.max 0 (mxlIndexToTimestamp editRate index - mxlGetTime timepoint).
Proof.
  intros Hvalid Hidx Hdef Hnow. unfold mxlGetNsUntilIndex.
  rewrite Hvalid. cbn [negb].
  rewrite (proj2 (isValidIndex_spec index)) by lia. cbn [negb]. cbv zeta.
  pose proof (mxlGetTime_range timepoint) as Hrange.
  destruct (mxlIndexToTimestamp_range editRate index) as [? | Htarget];
    [contradiction|].
  set (target := mxlIndexToTimestamp editRate index) in *.
  set (now := mxlGetTime timepoint) in *. clearbody target now.
  assert (Hm : MAX_REASONABLE_TIMESTAMP = UINT64_MAX / 2) by reflexivity.
  assert (Hh : UINT64_MAX / 2 < UINT64_MAX) by reflexivity.
  destruct (Z.eqb_spec target MXL_UNDEFINED_INDEX); [contradiction|].
  destruct (Z.eqb_spec now 0); [contradiction|].
  destruct (Z.ltb_spec target now); [lia|].
  rewrite u64_fits by lia.
  destruct (Z.gtb_spec (target - now) MAX_REASONABLE_TIMESTAMP); lia.
Qed.

Lemma mxlGetNsUntilIndex_range (index : Z) (editRate : RationalPtr)
    (timepoint : Timepoint) :
  mxlGetNsUntilIndex index editRate timepoint = MXL_UNDEFINED_INDEX
  \/ 0 <= mxlGetNsUntilIndex index editRate timepoint <= UINT64_MAX / 2.
Proof.
  unfold mxlGetNsUntilIndex.
  destruct (isValidEditRate editRate); cbn [negb]; [|by left].
  destruct (isValidIndex index); cbn [negb]; [|by left]. cbv zeta.
  destruct (_ =? _); [by left|].
  destruct (_ =? _); [by left|].
  assert (Hh : 0 <= UINT64_MAX / 2) by (vm_compute; discriminate).
  destruct (_ <? _); [right; lia|].
  assert (Hm : MAX_REASONABLE_TIMESTAMP = UINT64_MAX / 2) by reflexivity.
  match goal with |- context [u64 ?v] =>
    assert (0 <= u64 v) by (unfold u64; apply Z.mod_pos_bound; reflexivity);
    destruct (Z.gtb_spec (u64 v) MAX_REASONABLE_TIMESTAMP) end;
    [by left | right; lia].
Qed.

Lemma mxlGetCurrentIndex_range (editRate : RationalPtr) (timepoint : Timepoint) :
  mxlGetCurrentIndex editRate timepoint = MXL_UNDEFINED_INDEX
  \/ 0 <= mxlGetCurrentIndex editRate timepoint <= UINT64_MAX / 2.
Proof.
  unfold mxlGetCurrentIndex.
  destruct (isValidEditRate editRate); cbn [negb]; [|by left]. cbv zeta.
  destruct (_ =? _); [by left|]. apply mxlTimestampToIndex_range.
Qed.

Lemma isValidTimeResult_spec (v : Z) :
  isValidTimeResult v = true <-> v <= UINT64_MAX / 2.
Proof.
  unfold isValidTimeResult. limits.
  destruct (Z.eqb_spec v 18446744073709551615),
    (Z.leb_spec v 9223372036854775807); cbn; split; intros;
    try discriminate; try reflexivity; lia.
Qed.

(** X6. Whatever the arguments, [mxlGetCurrentIndex], [mxlGetNsUntilIndex],
    [mxlTimestampToIndex] and [mxlIndexToTimestamp] return either
    [MXL_UNDEFINED_INDEX], which [isValidTimeResult] rejects, or a value of
    [0 .. UINT64_MAX / 2], which [isValidTimeResult] accepts; [mxlGetTime]
    always returns a value of the second kind. *)
Theorem results_are_the_sentinel_or_valid (editRate : RationalPtr) (arg : Z)
    (timepoint : Timepoint) :
  let valid_or_sentinel (v : Z) :=
    (v = MXL_UNDEFINED_INDEX /\ isValidTimeResult v = false)
    \/ (0 <= v <= UINT64_MAX / 2 /\ isValidTimeResult v = true) in
  valid_or_sentinel (mxlGetCurrentIndex editRate timepoint)
  /\ valid_or_sentinel (mxlGetNsUntilIndex arg editRate timepoint)
  /\ valid_or_sentinel (mxlTimestampToIndex editRate arg)
  /\ valid_or_sentinel (mxlIndexToTimestamp editRate arg)
  /\ 0 <= mxlGetTime timepoint <= UINT64_MAX / 2
  /\ isValidTimeResult (mxlGetTime timepoint) = true.
Proof.
  intros valid_or_sentinel.
  assert (Hcase : forall v,
            v = MXL_UNDEFINED_INDEX \/ 0 <= v <= UINT64_MAX / 2 ->
            valid_or_sentinel v).
  { intros v [-> | Hv]; [left | right].
    - split; reflexivity.
    - split; [exact Hv | apply isValidTimeResult_spec; lia]. }
  repeat split.
  - apply Hcase, mxlGetCurrentIndex_range.
  - apply Hcase, mxlGetNsUntilIndex_range.
  - apply Hcase, mxlTimestampToIndex_range.
  - apply Hcase, mxlIndexToTimestamp_range.
  - apply mxlGetTime_range.
  - apply mxlGetTime_range.
  - apply isValidTimeResult_spec, mxlGetTime_range.
Qed.

(** [mxlGetCurrentIndex] once the rate is valid and the clock was read. *)
Lemma mxlGetCurrentIndex_defined (editRate : RationalPtr) (timepoint : Timepoint) :
  isValidEditRate editRate = true ->
  mxlGetTime timepoint <> 0 ->
  mxlGetCurrentIndex editRate timepoint
  = mxlTimestampToIndex editRate (mxlGetTime timepoint).
Proof.
  intros Hvalid Hnow. unfold mxlGetCurrentIndex. rewrite Hvalid. cbn [negb].
  cbv zeta. by destruct (Z.eqb_spec (mxlGetTime timepoint) 0).
Qed.

Lemma mxlGetCurrentIndex_undefined (editRate : RationalPtr)
    (timepoint : Timepoint) :
  mxlGetTime timepoint = 0 ->
  mxlGetCurrentIndex editRate timepoint = MXL_UNDEFINED_INDEX.
Proof.
  intros Hnow. unfold mxlGetCurrentIndex. rewrite Hnow.
  by destruct (isValidEditRate editRate).
Qed.

Lemma mxlGetNsUntilIndex_undefined_index (editRate : RationalPtr)
    (timepoint : Timepoint) :
  mxlGetNsUntilIndex MXL_UNDEFINED_INDEX editRate timepoint
  = MXL_UNDEFINED_INDEX.
Proof. unfold mxlGetNsUntilIndex. by destruct (isValidEditRate editRate). Qed.

Lemma mxlGetNsUntilIndex_undefined_target (index : Z) (editRate : RationalPtr)
    (timepoint : Timepoint) :
  mxlIndexToTimestamp editRate index = MXL_UNDEFINED_INDEX ->
  mxlGetNsUntilIndex index editRate timepoint = MXL_UNDEFINED_INDEX.
Proof.
  intros Htarget. unfold mxlGetNsUntilIndex. rewrite Htarget.
  destruct (isValidEditRate editRate); [|reflexivity].
  by destruct (isValidIndex index).
Qed.

(** X7. For a rate with both components in 1 .. 10^9 and one clock
    reading: the wait [mxlGetNsUntilIndex] reports for the index
    [mxlGetCurrentIndex] returns is, when it is not [MXL_UNDEFINED_INDEX],
    at most half a period:
    [2 * numerator * ns <= denominator * 10^9 + numerator]. *)
Theorem wait_for_current_index_within_half_period (r : Rational)
    (timepoint : Timepoint) :
  1 <= numerator r <= 10 ^ 9 ->
  1 <= denominator r <= 10 ^ 9 ->
  let index := mxlGetCurrentIndex (Some r) timepoint in
  let ns := mxlGetNsUntilIndex index (Some r) timepoint in
  ns <> MXL_UNDEFINED_INDEX ->
  0 <= ns /\ 2 * numerator r * ns <= denominator r * 10 ^ 9 + numerator r.
Proof.
  intros Hn Hd index ns Hdef. subst ns index.
  assert (Hvalid : isValidEditRate (Some r) = true)
    by (apply isValidEditRate_valid; split; assumption).
  destruct (Z.eq_dec (mxlGetTime timepoint) 0) as [Hzero | Hnow].
  { rewrite (mxlGetCurrentIndex_undefined _ _ Hzero) in Hdef.
    by rewrite mxlGetNsUntilIndex_undefined_index in Hdef. }
  rewrite (mxlGetCurrentIndex_defined _ _ Hvalid Hnow) in Hdef |- *.
  pose proof (mxlGetTime_range timepoint) as Hrange.
  set (now := mxlGetTime timepoint) in *.
  destruct (mxlTimestampToIndex_exact r now (conj Hn Hd)) as [_ Hidx]; [lia|].
  set (index := mxlTimestampToIndex (Some r) now) in *.
  destruct (Z.eq_dec (mxlIndexToTimestamp (Some r) index) MXL_UNDEFINED_INDEX)
    as [Hundef | Htarget].
  { by rewrite (mxlGetNsUntilIndex_undefined_target _ _ _ Hundef) in Hdef. }
  rewrite mxlGetNsUntilIndex_defined by (try assumption; lia). fold now.
  pose proof (snapped_timestamp_bounds r now Hn Hd) as Hsnap.
  cbv zeta in Hsnap. fold index in Hsnap.
  destruct (Hsnap ltac:(lia) Htarget) as [Hlate _].
  set (target := mxlIndexToTimestamp (Some r) index) in *.
  clearbody target now. split; [lia|].
  destruct (Z.max_spec 0 (target - now)) as [[_ ->] | [_ ->]]; [exact Hlate|].
  change (10 ^ 9) with 1000000000. nia.
Qed.

Lemma wait_for_current_index_within_half_period_witness :
  0 <= mxlGetNsUntilIndex
         (mxlGetCurrentIndex rate_30000_1001 (mkTimepoint true 30000000))
         rate_30000_1001 (mkTimepoint true 30000000)
  /\ 2 * 30000
     * mxlGetNsUntilIndex
         (mxlGetCurrentIndex rate_30000_1001 (mkTimepoint true 30000000))
         rate_30000_1001 (mkTimepoint true 30000000)
     <= 1001 * 10 ^ 9 + 30000.
Proof.
  apply (wait_for_current_index_within_half_period (mkRational 30000 1001)
           (mkTimepoint true 30000000)); numerals.
Defined.

(** X8. For a rate with both components in 1 .. 10^9 and two clock
    readings that [mxlGetTime] reports as [0 < earlier <= later],
    [mxlGetCurrentIndex] of the later reading is defined and not below that
    of the earlier one. *)
Theorem current_index_follows_the_clock (r : Rational)
    (earlier later : Timepoint) :
  1 <= numerator r <= 10 ^ 9 ->
  1 <= denominator r <= 10 ^ 9 ->
  0 < mxlGetTime earlier <= mxlGetTime later ->
  mxlGetCurrentIndex (Some r) earlier <= mxlGetCurrentIndex (Some r) later
  /\ mxlGetCurrentIndex (Some r) later <> MXL_UNDEFINED_INDEX.
Proof.
  intros Hn Hd Hclock.
  assert (Hvalid : isValidEditRate (Some r) = true)
    by (apply isValidEditRate_valid; split; assumption).
  pose proof (mxlGetTime_range later) as Hrange.
  rewrite !mxlGetCurrentIndex_defined by (try assumption; lia). split.
  - apply mxlTimestampToIndex_mono; try assumption; lia.
  - destruct (mxlTimestampToIndex_exact r (mxlGetTime later) (conj Hn Hd))
      as [_ Hr]; [lia|].
    assert (Hm : UINT64_MAX / 2 < MXL_UNDEFINED_INDEX) by reflexivity. lia.
Qed.

Lemma current_index_follows_the_clock_witness :
  mxlGetCurrentIndex rate_30000_1001 (mkTimepoint true 30000000)
  <= mxlGetCurrentIndex rate_30000_1001 (mkTimepoint true 90000000)
  /\ mxlGetCurrentIndex rate_30000_1001 (mkTimepoint true 90000000)
     <> MXL_UNDEFINED_INDEX.
Proof.
  apply (current_index_follows_the_clock (mkRational 30000 1001)
           (mkTimepoint true 30000000) (mkTimepoint true 90000000)); numerals.
Defined.

(** X9. For a 64-bit unsigned argument, [mxlSleepForNs] requests no sleep
    when the argument is 0, and otherwise a sleep of the argument clamped to
    [INT64_MAX] nanoseconds, a duration of [1 .. INT64_MAX]. *)
Theorem sleep_request_is_clamped (ns : Z) :
  0 <= ns <= UINT64_MAX ->
  (ns = 0 -> mxlSleepForNs ns = NoSleep)
  /\ (0 < ns -> mxlSleepForNs ns = Sleep (Z.min ns INT64_MAX)
                /\ 1 <= Z.min ns INT64_MAX <= INT64_MAX).
Proof.
  intros Hns. unfold mxlSleepForNs.
  assert (Hmax : INT64_MAX = 9223372036854775807) by reflexivity.
  split.
  - intros ->. reflexivity.
  - intros Hpos. split; [|lia].
    destruct (Z.gtb_spec ns INT64_MAX) as [Hbig | Hsmall].
    + rewrite Z.min_r by lia. reflexivity.
    + rewrite Z.min_l by lia.
      destruct (Z.eqb_spec ns 0); [lia|].
      rewrite i64_fits; [reflexivity|]. lia.
Qed.

Lemma sleep_request_is_clamped_witness :
  mxlSleepForNs MXL_UNDEFINED_INDEX = Sleep INT64_MAX
  /\ 1 <= INT64_MAX <= INT64_MAX.
Proof.
  refine (proj2 (sleep_request_is_clamped MXL_UNDEFINED_INDEX _) _); numerals.
Defined.

End TimeProperties.

(* ===================================================================== *)
(** ** Properties of the flow manager                                     *)
(* ===================================================================== *)

Module FlowsProperties.

Import Flows.

(** *** Paths and the file system *)

Lemma parent_path_append (p : path) (name : string) :
  parent_path (p // name) = p.
Proof. unfold parent_path, path_append. apply removelast_last. Qed.

Lemma last_path_append (p : path) (name : string) :
  List.last (p // name) "" = name.
Proof. unfold path_append. apply last_last. Qed.

Lemma below_refl (p : path) : below p p.
Proof. unfold below. done. Qed.

Lemma below_append (p q : path) (name : string) :
  below p q -> below p (q // name).
Proof. unfold below, path_append. intros Hpq. by apply prefix_app_r. Qed.

Lemma lookup_without_below (p q : path) (fs : FS) :
  below p q -> without p fs !! q = None.
Proof.
  intros Hb. unfold without. apply map_lookup_filter_None. right.
  intros x _ Hn. apply Hn. exact Hb.
Qed.

Lemma lookup_without_other (p q : path) (fs : FS) :
  ~ below p q -> without p fs !! q = fs !! q.
Proof.
  intros Hb. unfold without.
  destruct (fs !! q) as [x|] eqn:E.
  - apply map_lookup_filter_Some. split; [exact E | exact Hb].
  - apply map_lookup_filter_None. left. exact E.
Qed.

Lemma without_subseteq (p : path) (fs : FS) : without p fs ⊆ fs.
Proof. apply map_filter_subseteq. Qed.

(** What was at [source/rest] is at [dest/rest] after the move. *)
Lemma lookup_moved (source dest rest : path) (x : node) (fs : FS) :
  fs !! (source ++ rest) = Some x ->
  moved source dest fs !! (dest ++ rest) = Some x.
Proof.
  intros Hx. unfold moved. apply lookup_union_Some_l.
  apply elem_of_list_to_map_1.
  - rewrite <- list_fmap_compose.
    apply NoDup_fmap_2_strong; [|apply NoDup_map_to_list].
    intros [k1 v1] [k2 v2] H1 H2 Heq. simpl in Heq.
    apply elem_of_map_to_list in H1, H2.
    apply map_lookup_filter_Some in H1 as [H1 [r1 Hr1]].
    apply map_lookup_filter_Some in H2 as [H2 [r2 Hr2]].
    simpl in Hr1, Hr2. subst k1 k2.
    rewrite !drop_app_length in Heq. apply app_inv_head in Heq. subst r2.
    f_equal. congruence.
  - apply list_elem_of_fmap. exists (source ++ rest, x). split.
    + unfold prod_map. simpl. by rewrite drop_app_length.
    + apply elem_of_map_to_list. apply map_lookup_filter_Some.
      split; [exact Hx|]. simpl. by apply prefix_app_r.
Qed.

Lemma lookup_partly_without_other (removed : path -> bool) (p q : path) (fs : FS) :
  ~ below p q -> partly_without removed p fs !! q = fs !! q.
Proof.
  intros Hb. unfold partly_without.
  destruct (fs !! q) as [x|] eqn:E.
  - apply map_lookup_filter_Some. split; [exact E|]. simpl. by intros [? _].
  - apply map_lookup_filter_None. left. exact E.
Qed.

Lemma lookup_partly_without_removed (removed : path -> bool) (p q : path) (fs : FS) :
  below p q -> removed q = true -> partly_without removed p fs !! q = None.
Proof.
  intros Hb Hq. unfold partly_without. apply map_lookup_filter_None. right.
  intros x _ Hn. apply Hn. by split.
Qed.

Lemma partly_without_subseteq (removed : path -> bool) (p : path) (fs : FS) :
  partly_without removed p fs ⊆ fs.
Proof. apply map_filter_subseteq. Qed.

(** Two children of a directory, one below the other, are the same. *)
Lemma below_sibling (d q : path) (name name' : string) :
  below (d // name) q -> below (d // name') q -> name = name'.
Proof.
  unfold below, path_append. intros [r ->] [r' Heq].
  rewrite <- !app_assoc in Heq. apply app_inv_head in Heq. by injection Heq.
Qed.

Lemma string_length_app (s t : string) :
  String.length (s +:+ t) = String.length s + String.length t.
Proof. induction s as [|c s IH]; simpl; [done | by rewrite IH]. Qed.

(** The name of a staging directory, whose last six characters [mkdtemp]
    chose, is not the name of a flow directory. *)
Lemma staging_name_is_no_flow_name (six s : string) :
  String.length six = 6 ->
  ".mxl-tmp-XXXXXXXXXX" +:+ six <> s +:+ FLOW_DIRECTORY_NAME_SUFFIX.
Proof.
  intros Hsix Heq.
  assert (Hlen : String.length s = 16).
  { apply (f_equal String.length) in Heq. rewrite !string_length_app in Heq.
    rewrite Hsix in Heq. simpl in Heq. lia. }
  assert (Hleft : String.get 16 (".mxl-tmp-XXXXXXXXXX" +:+ six) = Some "X"%char)
    by reflexivity.
  assert (Hright : String.get 16 (s +:+ FLOW_DIRECTORY_NAME_SUFFIX) = Some "."%char).
  { rewrite <- Hlen. change (String.length s) with (0 + String.length s).
    by rewrite <- String.append_correct2. }
  rewrite Heq, Hright in Hleft. discriminate.
Qed.

Lemma writes_in_refl (S : path -> Prop) (fs : FS) : writes_in S fs fs.
Proof. done. Qed.

Lemma writes_in_trans (S : path -> Prop) (fs1 fs2 fs3 : FS) :
  writes_in S fs1 fs2 -> writes_in S fs2 fs3 -> writes_in S fs1 fs3.
Proof. intros H12 H23 q Hq. rewrite H23, H12; done. Qed.

Lemma writes_in_mono (S S' : path -> Prop) (fs fs' : FS) :
  (forall q, S q -> S' q) -> writes_in S fs fs' -> writes_in S' fs fs'.
Proof. intros HS Hw q Hq. apply Hw. intros HSq. apply Hq, HS, HSq. Qed.

Lemma writes_in_insert (S : path -> Prop) (p : path) (x : node) (fs : FS) :
  S p -> writes_in S fs (<[p := x]> fs).
Proof. intros Hp q Hq. apply lookup_insert_ne. congruence. Qed.

Lemma beside_descriptor_child (tmp : path) (name : string) :
  name <> "descriptor.json" -> beside_descriptor tmp (tmp // name).
Proof.
  intros Hne. split.
  - apply below_append, below_refl.
  - unfold makeFlowDescriptorFilePath, path_append. intros Heq.
    apply app_inv_head in Heq. congruence.
Qed.

Lemma beside_descriptor_grain (tmp : path) (k : nat) :
  beside_descriptor tmp (makeGrainDataFilePath (makeGrainDirectoryName tmp) k).
Proof.
  split.
  - apply below_append, below_append, below_refl.
  - unfold makeFlowDescriptorFilePath, makeGrainDataFilePath,
      makeGrainDirectoryName, path_append.
    intros Heq. apply (f_equal length) in Heq.
    rewrite !length_app in Heq. simpl in Heq. lia.
Qed.

Lemma beside_descriptor_below (tmp : path) (fs1 fs2 : FS) :
  writes_in (beside_descriptor tmp) fs1 fs2 -> writes_in (below tmp) fs1 fs2.
Proof. apply writes_in_mono. by intros q [Hq _]. Qed.

(** The removal of a staging directory, failed or not, after writes at or
    below it only: outside the directory the state is the first one, and
    a removal that did not fail leaves nothing of the directory. *)
Lemma rollback_restores (w : World) (tmp : path) (fs fsX : FS) :
  fs !! tmp = None ->
  writes_in (below tmp) (<[tmp := Directory]> fs) fsX ->
  let fs' := (remove_all_ec w tmp fsX).2 in
  (forall q, ~ below tmp q -> fs' !! q = fs !! q)
  /\ (remove_all_fails w = None -> forall q, below tmp q -> fs' !! q = None).
Proof.
  intros Hfree Hw fs'. subst fs'. unfold remove_all_ec.
  assert (Hkept : forall q, ~ below tmp q -> fsX !! q = fs !! q).
  { intros q Hq. rewrite Hw by done. apply lookup_insert_ne.
    intros ->. apply Hq, below_refl. }
  destruct (remove_all_fails w) as [removed|]; simpl; split.
  - intros q Hq. rewrite lookup_partly_without_other by done. by apply Hkept.
  - done.
  - intros q Hq. rewrite lookup_without_other by done. by apply Hkept.
  - intros _ q Hq. by apply lookup_without_below.
Qed.

(** *** Rules for [wp] *)

Section Rules.

Context {A : Type} (fs : FS) (Qr : A -> FS -> Prop)
  (Qt : exception -> FS -> Prop).

Lemma wp_ret (a : A) : Qr a fs -> wp (ret a) fs Qr Qt.
Proof. done. Qed.

Lemma wp_throw (e : exception) : Qt e fs -> wp (throw e) fs Qr Qt.
Proof. done. Qed.

Lemma wp_bind {B : Type} (m : M B) (k : B -> M A) :
  wp m fs (fun b fs' => wp (k b) fs' Qr Qt) Qt -> wp (bind m k) fs Qr Qt.
Proof. unfold wp, bind. by destruct (m fs) as [[b|e] fs']. Qed.

Lemma wp_try_catch_all (body : M A) (handler : exception -> M A) :
  wp body fs Qr (fun e fs' => wp (handler e) fs' Qr Qt) ->
  wp (try_catch_all body handler) fs Qr Qt.
Proof. unfold wp, try_catch_all. by destruct (body fs) as [[a|e] fs']. Qed.

Lemma wp_try_catch_std (body : M A) (handler : exception -> M A) :
  wp body fs Qr
    (fun e fs' =>
       if is_std_exception e then wp (handler e) fs' Qr Qt else Qt e fs') ->
  wp (try_catch_std body handler) fs Qr Qt.
Proof.
  unfold wp, try_catch_std. destruct (body fs) as [[a|e] fs']; [done|].
  by destruct (is_std_exception e).
Qed.

Lemma wp_mono (m : M A) (Qr' : A -> FS -> Prop) (Qt' : exception -> FS -> Prop) :
  wp m fs Qr' Qt' ->
  (forall a fs', Qr' a fs' -> Qr a fs') ->
  (forall e fs', Qt' e fs' -> Qt e fs') ->
  wp m fs Qr Qt.
Proof. unfold wp. destruct (m fs) as [[a|e] fs']; auto. Qed.

End Rules.

(** *** The steps of a creation *)

Section Steps.

Context (fs : FS) (Qt : exception -> FS -> Prop).

Lemma wp_ofstream_open (fails : bool) (p : path) (Qr : bool -> FS -> Prop) :
  (forall fs', fs' = <[p := RegularFile ""]> fs -> Qr true fs') ->
  Qr false fs ->
  wp (ofstream_open fails p) fs Qr Qt.
Proof.
  intros Hgood Hbad. unfold wp, ofstream_open.
  destruct (_ && _); [by apply Hgood | exact Hbad].
Qed.

Lemma wp_create_segment (throws : option exception) (p : path)
    (S : path -> Prop) (Qr : unit -> FS -> Prop) :
  S p ->
  (forall fs', writes_in S fs fs' -> Qr tt fs') ->
  (forall e, Qt e fs) ->
  wp (create_segment throws p) fs Qr Qt.
Proof.
  intros Hp Hr Ht. unfold wp, create_segment.
  destruct throws as [e|]; [apply Ht|].
  destruct (_ && _); [|apply Ht].
  apply Hr. by apply writes_in_insert.
Qed.

Lemma wp_create_directory (w : World) (p : path) (S : path -> Prop)
    (Qr : bool -> FS -> Prop) :
  S p ->
  (forall fs', writes_in S fs fs' -> Qr true fs') ->
  Qr false fs ->
  (forall e, Qt e fs) ->
  wp (create_directory w p) fs Qr Qt.
Proof.
  intros Hp Hr Hf Ht. unfold wp, create_directory.
  destruct (_ || _); [apply Ht|].
  destruct (fs !! p) as [[]|]; [apply Hf | apply Ht | apply Ht |].
  apply Hr. by apply writes_in_insert.
Qed.

Lemma wp_writeFlowDescriptor (w : World) (flowDir : path) (flowDef : string)
    (Qr : unit -> FS -> Prop) :
  (forall fs',
     writes_in (eq (makeFlowDescriptorFilePath flowDir)) fs fs' ->
     fs' !! makeFlowDescriptorFilePath flowDir
     = Some (RegularFile (written (descriptor_write_fails w) flowDef)) ->
     Qr tt fs') ->
  (forall e, Qt e fs) ->
  wp (writeFlowDescriptor w flowDir flowDef) fs Qr Qt.
Proof.
  intros Hr Ht. unfold writeFlowDescriptor.
  apply wp_bind, wp_ofstream_open.
  - intros fs' ->. unfold wp, ofstream_insert.
    rewrite lookup_insert_eq. apply Hr.
    + intros q Hq. rewrite !lookup_insert_ne by done. done.
    + by rewrite lookup_insert_eq.
  - apply wp_throw, Ht.
Qed.

Lemma wp_publishFlowDirectory (w : World) (source dest : path)
    (Qr : unit -> FS -> Prop) :
  (source = dest -> Qr tt fs) ->
  Qr tt (moved source dest fs) ->
  (forall e, Qt e fs) ->
  wp (publishFlowDirectory w source dest) fs Qr Qt.
Proof.
  intros Hsame Hmoved Ht. unfold publishFlowDirectory.
  apply wp_bind. unfold wp at 1, permissions.
  destruct (_ || _); [apply Ht|].
  unfold wp, rename.
  destruct (_ || _); [apply Ht|].
  case_bool_decide; [by apply Hsame | apply Hmoved].
Qed.

Lemma wp_createTemporaryFlowDirectory (w : World) (base : path)
    (Qr : path -> FS -> Prop) :
  (forall six,
     String.length six = 6 ->
     fs !! base = Some Directory ->
     fs !! (base // (".mxl-tmp-XXXXXXXXXX" +:+ six)) = None ->
     Qr (base // (".mxl-tmp-XXXXXXXXXX" +:+ six))
        (<[base // (".mxl-tmp-XXXXXXXXXX" +:+ six) := Directory]> fs)) ->
  (forall e, Qt e fs) ->
  wp (createTemporaryFlowDirectory w base) fs Qr Qt.
Proof.
  intros Hr Ht. unfold createTemporaryFlowDirectory.
  apply wp_bind. unfold wp at 1, mkdtemp.
  destruct (mkdtemp_suffix w) as [six|]; [|apply wp_throw, Ht].
  rewrite !parent_path_append, !last_path_append.
  change (String.substring 0 _ ".mxl-tmp-XXXXXXXXXXXXXXXX")
    with ".mxl-tmp-XXXXXXXXXX".
  destruct (Nat.eqb_spec (String.length six) 6) as [Hsix|];
    cbn [andb]; [|apply wp_throw, Ht].
  unfold is_directory. case_bool_decide as Hbase; cbn [andb];
    [|apply wp_throw, Ht].
  unfold exists_. case_bool_decide as Hex; cbn [negb]; [apply wp_throw, Ht|].
  apply wp_ret, Hr; [done | done |]. by apply eq_None_not_Some.
Qed.

End Steps.

Lemma wp_emplaceGrains (w : World) (grainDir : path) (size : nat)
    (S : path -> Prop) (i n : nat) (fs : FS)
    (Qr : list GrainInfo -> FS -> Prop) (Qt : exception -> FS -> Prop) :
  (forall k, S (makeGrainDataFilePath grainDir k)) ->
  (forall l fs', writes_in S fs fs' -> Qr l fs') ->
  (forall e fs', writes_in S fs fs' -> Qt e fs') ->
  wp (emplaceGrains w grainDir size i n) fs Qr Qt.
Proof.
  intros HS. revert i fs Qr Qt.
  induction n as [|n IH]; intros i fs Qr Qt Hr Ht; cbn [emplaceGrains].
  - apply wp_ret, Hr, writes_in_refl.
  - apply wp_bind. apply (wp_create_segment _ _ _ _ S); [apply HS | | ].
    + intros fs1 H1. apply wp_bind. apply IH.
      * intros l fs2 H2. apply wp_ret, Hr. by eapply writes_in_trans.
      * intros e fs2 H2. apply Ht. by eapply writes_in_trans.
    + intros e. apply Ht, writes_in_refl.
Qed.

(** What [createTemporaryFlowDirectory] has done when it returns, and
    when it throws. *)
Lemma createTemporaryFlowDirectory_returned (w : World) (base tmp : path)
    (fs fs1 : FS) :
  createTemporaryFlowDirectory w base fs = (Returned tmp, fs1) ->
  exists six,
    String.length six = 6 /\ tmp = base // (".mxl-tmp-XXXXXXXXXX" +:+ six)
    /\ fs !! base = Some Directory /\ fs !! tmp = None
    /\ fs1 = <[tmp := Directory]> fs.
Proof.
  intros Hrun.
  pose proof (wp_createTemporaryFlowDirectory fs (fun _ _ => True) w base
    (fun t f => exists six,
       String.length six = 6 /\ t = base // (".mxl-tmp-XXXXXXXXXX" +:+ six)
       /\ fs !! base = Some Directory /\ fs !! t = None
       /\ f = <[t := Directory]> fs)) as Hwp.
  unfold wp in Hwp. rewrite Hrun in Hwp. apply Hwp; [|done].
  intros six Hsix Hbase Hfree. by exists six.
Qed.

Lemma createTemporaryFlowDirectory_thrown (w : World) (base : path)
    (fs fs1 : FS) (e : exception) :
  createTemporaryFlowDirectory w base fs = (Thrown e, fs1) -> fs1 = fs.
Proof.
  intros Hrun.
  pose proof (wp_createTemporaryFlowDirectory fs (fun _ f => f = fs) w base
    (fun _ _ => True)) as Hwp.
  unfold wp in Hwp. rewrite Hrun in Hwp. by apply Hwp.
Qed.

(** The frame both creations share: the staging directory is made, the
    body runs in it, and a throw of the body runs the removal of the
    directory.  A body that on a throw has written at or below the staging
    directory only leaves the creation rolled back. *)
Lemma wp_staged_creation {A : Type} (w : World) (domain : path)
    (body : path -> M A) (fs : FS) (Qr : A -> FS -> Prop) :
  (forall tmp, fs !! tmp = None ->
     wp (body tmp) (<[tmp := Directory]> fs) Qr
        (fun _ fs' => writes_in (below tmp) (<[tmp := Directory]> fs) fs')) ->
  wp (let* tempDirectory := createTemporaryFlowDirectory w domain in
      try_catch_all (body tempDirectory)
        (fun e => remove_all_ec w tempDirectory >> throw e))
     fs Qr (fun _ fs' => rolled_back true w domain fs fs').
Proof.
  intros Hbody. apply wp_bind. unfold wp at 1.
  destruct (createTemporaryFlowDirectory w domain fs) as [[tmp|e0] fs1] eqn:Htmp.
  - destruct (createTemporaryFlowDirectory_returned _ _ _ _ _ Htmp)
      as (six & _ & _ & _ & Hfree & ->).
    apply wp_try_catch_all.
    eapply wp_mono; [apply (Hbody tmp Hfree) | done |].
    intros e fsX Hw. apply wp_bind. unfold wp at 1.
    pose proof (rollback_restores w tmp fs fsX Hfree Hw) as Hrestored.
    cbv zeta in Hrestored.
    destruct (remove_all_ec w tmp fsX) as [[[]|e1] fs'] eqn:Hremove.
    2:{ unfold remove_all_ec in Hremove. by destruct (remove_all_fails w). }
    apply wp_throw. simpl in Hrestored.
    split; [done|]. split; [intros e1 f Heq; by rewrite Htmp in Heq|].
    intros t f _ Heq. rewrite Htmp in Heq. injection Heq as <- _.
    exact Hrestored.
  - rewrite (createTemporaryFlowDirectory_thrown _ _ _ _ _ Htmp).
    split; [done|]. split; [done|].
    intros t f _ Heq. rewrite Htmp in Heq. discriminate.
Qed.

Section Creation.

Context {uuid : Type} `{UuidLibrary uuid}.

Lemma createDiscreteFlow_post (w : World) (domain : path) (flowId : uuid)
    (flowDef : string) (flowFormat : mxlDataFormat) (grainCount : nat)
    (grainRate : Time.Rational) (grainPayloadSize : nat) (fs : FS) :
  wp (createDiscreteFlow w domain flowId flowDef flowFormat grainCount grainRate
        grainPayloadSize) fs
    (fun _ fs' =>
       mxlIsDiscreteDataFormat (sanitizeFlowFormat flowFormat) = true
       /\ descriptor_published domain flowId
            (written (descriptor_write_fails w) flowDef) fs')
    (fun _ fs' =>
       rolled_back (mxlIsDiscreteDataFormat (sanitizeFlowFormat flowFormat))
         w domain fs fs').
Proof.
  unfold createDiscreteFlow, descriptor_published.
  destruct (mxlIsDiscreteDataFormat (sanitizeFlowFormat flowFormat)) eqn:Hshape;
    cbn [negb]; [|apply wp_throw; repeat split; done].
  set (final := makeFlowDirectoryName domain (to_string flowId)).
  set (stored := written (descriptor_write_fails w) flowDef).
  apply wp_mono with
    (Qr' := fun _ fs' =>
       fs' !! makeFlowDescriptorFilePath final = Some (RegularFile stored))
    (Qt' := fun _ fs' => rolled_back true w domain fs fs');
    [apply wp_staged_creation | by intros a fs' Hd | done].
  intros tmp Hfree.
  set (fs1 := <[tmp := Directory]> fs).
  apply wp_bind, wp_writeFlowDescriptor; [|intros e; apply writes_in_refl].
  intros fsA HA HdescA.
  assert (HA' : writes_in (below tmp) fs1 fsA).
  { eapply writes_in_mono; [|exact HA]. intros q <-.
    apply below_append, below_refl. }
  apply wp_bind, wp_ofstream_open; [|by apply wp_throw].
  intros fsB ->. cbn [negb].
  set (fsB := <[makeFlowAccessFilePath tmp := RegularFile ""]> fsA).
  assert (HB : writes_in (beside_descriptor tmp) fsA fsB).
  { apply writes_in_insert. by apply beside_descriptor_child. }
  assert (Hfail : forall fsX, writes_in (beside_descriptor tmp) fsB fsX ->
                    writes_in (below tmp) fs1 fsX).
  { intros fsX HX. eapply writes_in_trans; [exact HA'|].
    apply beside_descriptor_below. by eapply writes_in_trans. }
  assert (Hdesc : forall fsX, writes_in (beside_descriptor tmp) fsB fsX ->
            fsX !! makeFlowDescriptorFilePath tmp = Some (RegularFile stored)).
  { intros fsX HX. rewrite HX, HB; [done | by intros [_ ?] | by intros [_ ?]]. }
  apply wp_bind.
  apply (wp_create_segment _ _ _ _ (beside_descriptor tmp));
    [by apply beside_descriptor_child | | intros e; apply Hfail, writes_in_refl].
  intros fsC HC.
  apply wp_bind.
  apply (wp_create_directory _ _ _ _ (beside_descriptor tmp));
    [by apply beside_descriptor_child | | |]; cbn [negb].
  2:{ apply wp_throw, Hfail, HC. }
  2:{ intros e. apply Hfail, HC. }
  intros fsD HD.
  apply wp_bind.
  apply (wp_emplaceGrains _ _ _ (beside_descriptor tmp));
    [apply beside_descriptor_grain | |].
  2:{ intros e fsE HE. apply Hfail.
      eapply writes_in_trans; [|exact HE]. by eapply writes_in_trans. }
  intros l fsE HE.
  assert (HBE : writes_in (beside_descriptor tmp) fsB fsE).
  { eapply writes_in_trans; [|exact HE]. by eapply writes_in_trans. }
  apply wp_bind, wp_try_catch_std, wp_publishFlowDirectory.
  - intros <-. apply wp_ret. by apply Hdesc.
  - apply wp_ret. unfold makeFlowDescriptorFilePath, path_append.
    apply (lookup_moved tmp final ["descriptor.json"]). by apply Hdesc.
  - intros e. destruct (is_std_exception e); [apply wp_throw|]; by apply Hfail.
Qed.

Lemma createContinuousFlow_post (w : World) (domain : path) (flowId : uuid)
    (flowDef : string) (flowFormat : mxlDataFormat) (sampleRate : Time.Rational)
    (channelCount sampleWordSize bufferLength : nat) (fs : FS) :
  wp (createContinuousFlow w domain flowId flowDef flowFormat sampleRate
        channelCount sampleWordSize bufferLength) fs
    (fun _ fs' =>
       mxlIsContinuousDataFormat (sanitizeFlowFormat flowFormat) = true
       /\ descriptor_published domain flowId
            (written (descriptor_write_fails w) flowDef) fs')
    (fun _ fs' =>
       rolled_back (mxlIsContinuousDataFormat (sanitizeFlowFormat flowFormat))
         w domain fs fs').
Proof.
  unfold createContinuousFlow, descriptor_published.
  destruct (mxlIsContinuousDataFormat (sanitizeFlowFormat flowFormat)) eqn:Hshape;
    cbn [negb]; [|apply wp_throw; repeat split; done].
  set (final := makeFlowDirectoryName domain (to_string flowId)).
  set (stored := written (descriptor_write_fails w) flowDef).
  apply wp_mono with
    (Qr' := fun _ fs' =>
       fs' !! makeFlowDescriptorFilePath final = Some (RegularFile stored))
    (Qt' := fun _ fs' => rolled_back true w domain fs fs');
    [apply wp_staged_creation | by intros a fs' Hd | done].
  intros tmp Hfree.
  set (fs1 := <[tmp := Directory]> fs).
  apply wp_bind, wp_writeFlowDescriptor; [|intros e; apply writes_in_refl].
  intros fsA HA HdescA.
  assert (HA' : writes_in (below tmp) fs1 fsA).
  { eapply writes_in_mono; [|exact HA]. intros q <-.
    apply below_append, below_refl. }
  assert (Hfail : forall fsX, writes_in (beside_descriptor tmp) fsA fsX ->
                    writes_in (below tmp) fs1 fsX).
  { intros fsX HX. eapply writes_in_trans; [exact HA'|].
    by apply beside_descriptor_below. }
  assert (Hdesc : forall fsX, writes_in (beside_descriptor tmp) fsA fsX ->
            fsX !! makeFlowDescriptorFilePath tmp = Some (RegularFile stored)).
  { intros fsX HX. rewrite HX; [done | by intros [_ ?]]. }
  assert (Hcaught : forall (B : Type) (e : exception) (wrapped : exception)
                      (fsX : FS) (Qr : B -> FS -> Prop),
            writes_in (beside_descriptor tmp) fsA fsX ->
            if is_std_exception e
            then wp (throw wrapped) fsX Qr
                   (fun _ fs' => writes_in (below tmp) fs1 fs')
            else writes_in (below tmp) fs1 fsX).
  { intros B e wrapped fsX Qr HX. destruct (is_std_exception e);
      [apply wp_throw|]; by apply Hfail. }
  apply wp_bind, wp_try_catch_std.
  apply (wp_create_segment _ _ _ _ (beside_descriptor tmp));
    [by apply beside_descriptor_child | |].
  2:{ intros e. apply Hcaught, writes_in_refl. }
  intros fsB HB.
  apply wp_bind, wp_try_catch_std.
  apply (wp_create_segment _ _ _ _ (beside_descriptor tmp));
    [by apply beside_descriptor_child | |].
  2:{ intros e. by apply Hcaught. }
  intros fsC HC.
  assert (HAC : writes_in (beside_descriptor tmp) fsA fsC)
    by (by eapply writes_in_trans).
  apply wp_bind, wp_try_catch_std, wp_publishFlowDirectory.
  - intros <-. apply wp_ret. by apply Hdesc.
  - apply wp_ret. unfold makeFlowDescriptorFilePath, path_append.
    apply (lookup_moved tmp final ["descriptor.json"]). by apply Hdesc.
  - intros e. by apply Hcaught.
Qed.

(** [deleteFlow] always returns; what it returns and what it leaves. *)
Lemma deleteFlow_cases (w : World) (domain : path) (flowId : uuid) (fs : FS) :
  let flowPath := makeFlowDirectoryName domain (to_string flowId) in
  deleteFlow w domain flowId fs
  = match remove_all_fails w with
    | Some removed => (Returned false, partly_without removed flowPath fs)
    | None =>
        match fs !! flowPath with
        | None => (Returned false, fs)
        | Some _ => (Returned true, without flowPath fs)
        end
    end.
Proof.
  intros flowPath. unfold deleteFlow, try_catch_all, bind, remove_all.
  fold flowPath.
  destruct (remove_all_fails w) as [removed|]; [reflexivity|].
  destruct (fs !! flowPath) as [x|] eqn:Hx; [|reflexivity].
  assert (Hpos : count_below flowPath fs <> 0).
  { unfold count_below. intros Hz. apply map_size_empty_iff in Hz.
    assert (Hl : filter (fun entry : path * node => below flowPath entry.1) fs
                   !! flowPath = Some x).
    { apply map_lookup_filter_Some. split; [exact Hx | apply below_refl]. }
    rewrite Hz in Hl. by rewrite lookup_empty in Hl. }
  destruct (count_below flowPath fs) as [|k]; [done | reflexivity].
Qed.

End Creation.

(** *** File names and directory listings *)

Lemma substring_all (t : string) : String.substring 0 (String.length t) t = t.
Proof. induction t as [|c t IH]; simpl; [done | by rewrite IH]. Qed.

Lemma substring_app_suffix (s t : string) :
  String.substring (String.length s) (String.length t) (s +:+ t) = t.
Proof. induction s as [|c s IH]; simpl; [apply substring_all | exact IH]. Qed.

Lemma substring_app_prefix (s t : string) :
  String.substring 0 (String.length s) (s +:+ t) = s.
Proof.
  induction s as [|c s IH]; simpl; [by destruct t | by rewrite IH].
Qed.

Lemma substring_split (n : nat) (s : string) :
  n <= String.length s ->
  s = String.substring 0 n s +:+ String.substring n (String.length s - n) s.
Proof.
  revert n. induction s as [|c s IH]; intros n Hn; simpl in *.
  - by destruct n.
  - destruct n as [|n]; simpl.
    + by rewrite substring_all.
    + change (String c s = String c (String.substring 0 n s
                 +:+ String.substring n (String.length s - n) s)).
      f_equal. apply IH. lia.
Qed.

Lemma substring_prefix_length (n : nat) (s : string) :
  n <= String.length s -> String.length (String.substring 0 n s) = n.
Proof.
  revert n. induction s as [|c s IH]; intros n Hn; simpl in *.
  - destruct n; [done | lia].
  - destruct n as [|n]; simpl; [done|]. rewrite IH; lia.
Qed.

Lemma rfind_dot_lt (s : string) (n : nat) :
  rfind_dot s = Some n -> n < String.length s.
Proof.
  revert n. induction s as [|c s IH]; intros n; simpl; [done|].
  destruct (rfind_dot s) as [k|].
  - intros [= <-]. specialize (IH k eq_refl). lia.
  - destruct (Ascii.eqb _ _); [|done]. intros [= <-]. lia.
Qed.

Lemma rfind_dot_suffix (s : string) :
  rfind_dot (s +:+ FLOW_DIRECTORY_NAME_SUFFIX) = Some (String.length s).
Proof. induction s as [|c s IH]; simpl; [done | by rewrite IH]. Qed.

(** A name [<s>.mxl-flow] with [s] not empty has that extension and the
    stem [s]; a name with that extension is of this form. *)
Lemma extension_of_flow_directory (s : string) :
  s <> "" ->
  extension (s +:+ FLOW_DIRECTORY_NAME_SUFFIX) = FLOW_DIRECTORY_NAME_SUFFIX
  /\ stem (s +:+ FLOW_DIRECTORY_NAME_SUFFIX) = s.
Proof.
  intros Hs. unfold extension, stem, extension_start.
  case_bool_decide as Hdots.
  { exfalso. destruct Hdots as [Hd | Hd]; apply (f_equal String.length) in Hd;
      rewrite string_length_app in Hd; simpl in Hd; lia. }
  rewrite rfind_dot_suffix.
  destruct s as [|c s]; [done|]. cbn [String.length].
  change (S (String.length s)) with (String.length (String c s)).
  rewrite string_length_app.
  replace (String.length (String c s) + String.length FLOW_DIRECTORY_NAME_SUFFIX
           - String.length (String c s))
    with (String.length FLOW_DIRECTORY_NAME_SUFFIX) by lia.
  split; [apply substring_app_suffix | apply substring_app_prefix].
Qed.

Lemma flow_directory_of_extension (name : string) :
  extension name = FLOW_DIRECTORY_NAME_SUFFIX ->
  stem name <> "" /\ name = stem name +:+ FLOW_DIRECTORY_NAME_SUFFIX.
Proof.
  unfold extension, stem, extension_start.
  case_bool_decide as Hdots; [done|].
  destruct (rfind_dot name) as [[|n]|] eqn:Hdot; [done | | done].
  apply rfind_dot_lt in Hdot. intros Hext. split.
  - intros Hempty. apply (f_equal String.length) in Hempty.
    rewrite substring_prefix_length in Hempty by lia. done.
  - rewrite <- Hext. apply substring_split. lia.
Qed.

Lemma child_of_spec (d p : path) (name : string) :
  child_of d p = Some name <-> p = d // name.
Proof.
  unfold path_append. revert p. induction d as [|x d IH]; intros p; simpl.
  - destruct p as [|y [|z p]]; split; try done; by intros [= ->].
  - destruct p as [|y p]; [split; [done | by destruct d]|].
    case_decide as Hxy; [subst y|].
    + rewrite IH. split; [by intros -> | by intros [= ->]].
    + split; [done | by intros [= <-]].
Qed.

Lemma directory_iterator_entries (w : World) (d : path) (fs : FS)
    (entries : list (string * node)) (fs' : FS) :
  directory_iterator w d fs = (Returned entries, fs') ->
  fs' = fs /\ forall name x, (name, x) ∈ entries <-> fs !! (d // name) = Some x.
Proof.
  unfold directory_iterator. destruct (_ || _); [done|].
  intros [= <- <-]. split; [done|]. intros name x.
  rewrite list_elem_of_omap. split.
  - intros ([p y] & Hin & Hsome). simpl in Hsome.
    destruct (child_of d p) as [n|] eqn:Hc; [|done]. simpl in Hsome.
    injection Hsome as -> ->.
    apply child_of_spec in Hc as ->. by apply elem_of_map_to_list.
  - intros Hx. exists (d // name, x). split; [by apply elem_of_map_to_list|].
    simpl. by rewrite (proj2 (child_of_spec d (d // name) name) eq_refl).
Qed.

Section Listing.

Context {uuid : Type} `{UuidLibrary uuid}.

Lemma listFlows_step_elem_of (flowIds : list uuid) (entry : string * node) (u : uuid) :
  u ∈ listFlows_step flowIds entry <->
  u ∈ flowIds
  \/ (entry.2 = Directory /\ extension entry.1 = FLOW_DIRECTORY_NAME_SUFFIX
      /\ from_string (stem entry.1) = Some u).
Proof.
  unfold listFlows_step.
  case_bool_decide as Hdir; case_bool_decide as Hext; cbn [andb];
    try (split; [by left | by intros [? | (? & ? & ?)]]).
  destruct (from_string (stem entry.1)) as [v|] eqn:Hv.
  - rewrite elem_of_app, list_elem_of_singleton. split.
    + intros [? | ->]; [by left | by right].
    + intros [? | (_ & _ & [= ->])]; [by left | by right].
  - split; [by left | by intros [? | (? & ? & ?)]].
Qed.

Lemma listFlows_loop_elem_of (entries : list (string * node)) (flowIds : list uuid)
    (u : uuid) :
  u ∈ foldl listFlows_step flowIds entries <->
  u ∈ flowIds
  \/ exists entry, entry ∈ entries /\ entry.2 = Directory
       /\ extension entry.1 = FLOW_DIRECTORY_NAME_SUFFIX
       /\ from_string (stem entry.1) = Some u.
Proof.
  revert flowIds. induction entries as [|entry entries IH]; intros flowIds; simpl.
  - split; [by left|]. intros [? | (entry & Hin & _)]; [done|].
    by apply not_elem_of_nil in Hin.
  - rewrite IH, listFlows_step_elem_of. split.
    + intros [[? | Hentry] | (e & Hin & He)].
      * by left.
      * right. exists entry. split; [apply list_elem_of_here | done].
      * right. exists e. split; [by apply list_elem_of_further | done].
    + intros [? | (e & Hin & He)]; [by left; left|].
      apply elem_of_cons in Hin as [-> | Hin]; [by left; right|].
      right. by exists e.
Qed.

End Listing.

(** *** The properties of the specification *)

Section Properties.

Context {uuid : Type} `{UuidLibrary uuid}.

(** A creation that was rolled back has changed nothing at or below a
    flow directory of the domain: the staging directory is not one. *)
Lemma rolled_back_keeps_flow_directories (shape_ok : bool) (w : World)
    (domain : path) (fs fs' : FS) (s : string) (q : path) :
  rolled_back shape_ok w domain fs fs' ->
  below (makeFlowDirectoryName domain s) q ->
  fs' !! q = fs !! q.
Proof.
  intros (Hrejected & Hunmade & Hmade) Hq.
  destruct shape_ok; [|by rewrite Hrejected].
  destruct (createTemporaryFlowDirectory w domain fs) as [[tmp|e] fs1] eqn:Htmp.
  - destruct (createTemporaryFlowDirectory_returned _ _ _ _ _ Htmp)
      as (six & Hsix & -> & _).
    apply (Hmade _ _ eq_refl eq_refl). intros Hstaging.
    apply (staging_name_is_no_flow_name six s Hsix).
    by apply (below_sibling domain q).
  - by rewrite (Hunmade e fs1).
Qed.

(** C4. A creation of either shape that fails publishes nothing.  A format
    that does not match the requested shape is rejected with the file
    system untouched, and an unsupported format is first mapped to
    [MXL_DATA_FORMAT_UNSPECIFIED], which matches neither shape.  A failure
    after the staging directory exists runs the recursive removal of that
    directory, whose error is discarded, before the exception
    propagates: outside the staging directory the state is the one before
    the call, and the staging directory is gone with all below it when
    the removal did not fail.  In every case each path at or below
    [<uuid>.mxl-flow] holds what it held before the call: no flow
    directory has appeared. *)
Theorem failed_creation_publishes_nothing (w : World) (domain : path)
    (flowId : uuid) (flowDef : string) (flowFormat : mxlDataFormat)
    (fs fs' : FS) (e : exception) :
  let final := makeFlowDirectoryName domain (to_string flowId) in
  let discrete := mxlIsDiscreteDataFormat (sanitizeFlowFormat flowFormat) in
  let continuous := mxlIsContinuousDataFormat (sanitizeFlowFormat flowFormat) in
  (forall grainCount grainRate grainPayloadSize,
     createDiscreteFlow w domain flowId flowDef flowFormat grainCount grainRate
       grainPayloadSize fs = (Thrown e, fs') ->
     rolled_back discrete w domain fs fs'
     /\ forall q, below final q -> fs' !! q = fs !! q)
  /\ (forall sampleRate channelCount sampleWordSize bufferLength,
        createContinuousFlow w domain flowId flowDef flowFormat sampleRate
          channelCount sampleWordSize bufferLength fs = (Thrown e, fs') ->
        rolled_back continuous w domain fs fs'
        /\ forall q, below final q -> fs' !! q = fs !! q)
  /\ (discrete = false ->
      forall grainCount grainRate grainPayloadSize, exists e',
        createDiscreteFlow w domain flowId flowDef flowFormat grainCount grainRate
          grainPayloadSize fs = (Thrown e', fs))
  /\ (continuous = false ->
      forall sampleRate channelCount sampleWordSize bufferLength, exists e',
        createContinuousFlow w domain flowId flowDef flowFormat sampleRate
          channelCount sampleWordSize bufferLength fs = (Thrown e', fs))
  /\ (mxlIsSupportedDataFormat flowFormat = false ->
      sanitizeFlowFormat flowFormat = MXL_DATA_FORMAT_UNSPECIFIED
      /\ discrete = false /\ continuous = false).
Proof.
  intros final discrete continuous.
  split; [|split; [|split; [|split]]].
  - intros grainCount grainRate grainPayloadSize Hrun.
    pose proof (createDiscreteFlow_post w domain flowId flowDef flowFormat
                  grainCount grainRate grainPayloadSize fs) as Hpost.
    unfold wp in Hpost. rewrite Hrun in Hpost.
    split; [exact Hpost|]. intros q Hq.
    by apply (rolled_back_keeps_flow_directories _ _ _ _ _ _ _ Hpost Hq).
  - intros sampleRate channelCount sampleWordSize bufferLength Hrun.
    pose proof (createContinuousFlow_post w domain flowId flowDef flowFormat
                  sampleRate channelCount sampleWordSize bufferLength fs) as Hpost.
    unfold wp in Hpost. rewrite Hrun in Hpost.
    split; [exact Hpost|]. intros q Hq.
    by apply (rolled_back_keeps_flow_directories _ _ _ _ _ _ _ Hpost Hq).
  - intros Hno grainCount grainRate grainPayloadSize.
    unfold createDiscreteFlow. fold discrete. rewrite Hno. by eexists.
  - intros Hno sampleRate channelCount sampleWordSize bufferLength.
    unfold createContinuousFlow. fold continuous. rewrite Hno. by eexists.
  - intros Hun. subst discrete continuous. unfold sanitizeFlowFormat.
    by rewrite Hun.
Qed.



(** C6. [deleteFlow(id)] never throws.  It returns false when
    [<domain>/<uuid>.mxl-flow] is absent and false when the removal fails
    with a file-system error, in which case the entries removed before
    the failure stay removed.  It returns true exactly when the removal
    completed without an error and removed at least one entry of the file
    system, and then all at or below the flow directory is gone. *)
Theorem deleteFlow_reports_removal (w : World) (domain : path) (flowId : uuid)
    (fs : FS) :
  let flowPath := makeFlowDirectoryName domain (to_string flowId) in
  exists (deleted : bool) (fs' : FS),
    deleteFlow w domain flowId fs = (Returned deleted, fs')
    /\ fs' ⊆ fs
    /\ (fs !! flowPath = None -> deleted = false)
    /\ (forall e fs1, remove_all w flowPath fs = (Thrown e, fs1) ->
          deleted = false /\ fs' = fs1)
    /\ (deleted = true <->
          (exists removed, remove_all w flowPath fs = (Returned removed, fs'))
          /\ exists q, is_Some (fs !! q) /\ fs' !! q = None)
    /\ (deleted = true -> fs' = without flowPath fs).
Proof.
  intros flowPath.
  pose proof (deleteFlow_cases w domain flowId fs) as Hcases.
  cbv zeta in Hcases. fold flowPath in Hcases. unfold remove_all.
  destruct (remove_all_fails w) as [removed|] eqn:Hfails.
  { exists false, (partly_without removed flowPath fs).
    split; [exact Hcases|]. split; [apply partly_without_subseteq|].
    split; [done|]. split; [by intros e fs1 [= _ <-]|].
    split; [|done]. split; [done|]. by intros [[n Hn] _]. }
  destruct (fs !! flowPath) as [x|] eqn:Hx.
  - exists true, (without flowPath fs). split; [exact Hcases|].
    split; [apply without_subseteq|]. split; [done|]. split; [done|].
    split; [|done]. split; [|done]. intros _. split; [by eexists|].
    exists flowPath. split; [by eexists|].
    apply lookup_without_below, below_refl.
  - exists false, fs. split; [exact Hcases|]. split; [done|].
    split; [done|]. split; [done|]. split; [|done]. split; [done|].
    intros [_ (q & [y Hy] & Hq)]. congruence.
Qed.

(** C5. [listFlows] returns exactly the UUIDs [u] for which the domain has
    a directory [<stem>.mxl-flow] whose stem parses to [u]; every other
    entry of the domain (not a directory, another suffix, a stem that does
    not parse) is skipped.  In particular the directory
    [<domain>/<u>.mxl-flow] of a UUID whose text parses back to it puts [u]
    in the list, and where only that text parses to [u], a listed [u] has
    this directory.  When the domain directory does not exist the call
    does not return a list but throws the file-system error "no such file
    or directory". *)
Theorem listFlows_lists_flow_directories (w : World) (domain : path) (fs : FS) :
  (fs !! domain <> Some Directory ->
   exists msg,
     listFlows (uuid := uuid) w domain fs
     = (Thrown (filesystem_error msg domain no_such_file_or_directory), fs))
  /\ (forall (flowIds : list uuid) (fs' : FS),
        listFlows w domain fs = (Returned flowIds, fs') ->
        fs' = fs
        /\ (forall u : uuid,
              u ∈ flowIds <->
              exists stem : string,
                stem <> ""
                /\ fs !! (domain // (stem +:+ ".mxl-flow")) = Some Directory
                /\ from_string stem = Some u)
        /\ (forall u : uuid,
              from_string (to_string u) = Some u -> to_string u <> "" ->
              fs !! makeFlowDirectoryName domain (to_string u) = Some Directory ->
              u ∈ flowIds)
        /\ (forall u : uuid,
              (forall s, from_string s = Some u -> s = to_string u) ->
              u ∈ flowIds ->
              fs !! makeFlowDirectoryName domain (to_string u) = Some Directory))
  /\ (fs !! domain = Some Directory -> directory_iterator_fails w = false ->
      exists flowIds : list uuid, listFlows w domain fs = (Returned flowIds, fs)).
Proof.
  unfold listFlows, bind, query, exists_, is_directory.
  split; [|split].
  - intros Habsent. rewrite (bool_decide_eq_false_2 (fs !! domain = Some Directory))
      by done.
    rewrite andb_false_r. by eexists.
  - intros flowIds fs'.
    destruct (bool_decide _ && bool_decide _); [|done].
    unfold try_catch_all, bind.
    destruct (directory_iterator w domain fs) as [[entries|e] fs1] eqn:Hiter.
    2:{ by destruct e. }
    apply directory_iterator_entries in Hiter as [-> Hentries].
    unfold ret. intros [= <- <-]. split; [done|].
    assert (Hmain : forall u : uuid,
              u ∈ foldl listFlows_step [] entries <->
              exists stem : string,
                stem <> ""
                /\ fs !! (domain // (stem +:+ ".mxl-flow")) = Some Directory
                /\ from_string stem = Some u).
    { intros u. rewrite listFlows_loop_elem_of. split.
      + intros [Hnil | ([name x] & Hin & Hdir & Hext & Hparse)].
        { by apply not_elem_of_nil in Hnil. }
        simpl in *. subst x.
        apply flow_directory_of_extension in Hext as [Hne Hname].
        exists (Flows.stem name). split; [exact Hne|]. split; [|exact Hparse].
        change ".mxl-flow" with FLOW_DIRECTORY_NAME_SUFFIX.
        rewrite <- Hname. by apply Hentries.
      + intros (s & Hne & Hdir & Hparse). right.
        exists (s +:+ ".mxl-flow", Directory).
        destruct (extension_of_flow_directory s Hne) as [Hext Hstem].
        split; [by apply Hentries|]. simpl.
        change ".mxl-flow" with FLOW_DIRECTORY_NAME_SUFFIX.
        rewrite Hext, Hstem. done. }
    split; [exact Hmain|]. split.
    + intros u Hparse Hne Hdir. apply Hmain. by exists (to_string u).
    + intros u Honly Hin. apply Hmain in Hin as (s & _ & Hdir & Hparse).
      by rewrite <- (Honly s Hparse).
  - intros Hdir Hiter.
    rewrite (bool_decide_eq_true_2 (is_Some (fs !! domain))) by (by eexists).
    rewrite (bool_decide_eq_true_2 (fs !! domain = Some Directory)) by done.
    cbn [andb]. unfold try_catch_all, bind, directory_iterator, is_directory.
    rewrite Hiter, (bool_decide_eq_true_2 (fs !! domain = Some Directory)) by done.
    by eexists.
Qed.

End Properties.

(** *** The properties on the sample data *)

Lemma run_of_outcome {A : Type} (r : outcome A * FS) (o : outcome A) :
  r.1 = o -> r = (o, r.2).
Proof. destruct r as [o' fs']. simpl. by intros ->. Qed.

Lemma failed_creation_publishes_nothing_witness :
  let discrete :=
    createDiscreteFlow (H := text_uuid) world_without_access sample_domain
      sample_id sample_descriptor MXL_DATA_FORMAT_VIDEO 2 sample_rate 1024
      empty_domain in
  let continuous :=
    createContinuousFlow (H := text_uuid) calm_world sample_domain sample_id
      sample_descriptor MXL_DATA_FORMAT_AUDIO (Time.mkRational 48000 1) 8 4 4096
      domain_with_flow in
  let flowDir := sample_domain // "5fbec3b1-1b0f-417d-9059-8b94a47197ed.mxl-flow" in
  (discrete.1
   = Thrown (filesystem_error "FlowManager: Failed to create flow access file."
               (sample_domain // ".mxl-tmp-XXXXXXXXXXa1B2c3" // "access")
               file_exists)
   /\ rolled_back true world_without_access sample_domain empty_domain discrete.2
   /\ discrete.2 !! flowDir = empty_domain !! flowDir)
  /\ ((exists message,
         continuous.1
         = Thrown (runtime_error
                     ("FlowManager: Failed to publish flow dir: " +:+ message)))
      /\ rolled_back true calm_world sample_domain domain_with_flow continuous.2
      /\ continuous.2 !! (flowDir // "data") = domain_with_flow !! (flowDir // "data")).
Proof.
  intros discrete continuous flowDir.
  assert (Hdiscrete :
    discrete.1
    = Thrown (filesystem_error "FlowManager: Failed to create flow access file."
                (sample_domain // ".mxl-tmp-XXXXXXXXXXa1B2c3" // "access")
                file_exists)) by (vm_compute; reflexivity).
  assert (Hcontinuous :
    continuous.1
    = Thrown (runtime_error "FlowManager: Failed to publish flow dir: rename"))
    by (vm_compute; reflexivity).
  split; (split; [first [assumption | exists "rename"; exact Hcontinuous]|]).
  - destruct (proj1 (failed_creation_publishes_nothing (H := text_uuid)
                world_without_access sample_domain sample_id sample_descriptor
                MXL_DATA_FORMAT_VIDEO empty_domain discrete.2 _)
              2 sample_rate 1024 (run_of_outcome discrete _ Hdiscrete))
      as [Hrolled Hkept].
    split; [exact Hrolled|]. apply Hkept, below_refl.
  - destruct (proj1 (proj2 (failed_creation_publishes_nothing (H := text_uuid)
                calm_world sample_domain sample_id sample_descriptor
                MXL_DATA_FORMAT_AUDIO domain_with_flow continuous.2 _))
              (Time.mkRational 48000 1) 8 4 4096
              (run_of_outcome continuous _ Hcontinuous))
      as [Hrolled Hkept].
    split; [exact Hrolled|]. apply Hkept, below_append, below_refl.
Defined.

(** The claim C4 as the specification states it, with the staging
    directory removed after any failure, does not hold: when the removal
    fails as well, its error is discarded and the staging directory stays
    with what was written to it. *)
Lemma failed_rollback_leaves_staging_directory :
  let run :=
    createDiscreteFlow (H := text_uuid) world_without_access_and_removal
      sample_domain sample_id sample_descriptor MXL_DATA_FORMAT_VIDEO 2
      sample_rate 1024 empty_domain in
  run.1 = Thrown (filesystem_error "FlowManager: Failed to create flow access file."
                    (sample_domain // ".mxl-tmp-XXXXXXXXXXa1B2c3" // "access")
                    file_exists)
  /\ run.2 !! (sample_domain // ".mxl-tmp-XXXXXXXXXXa1B2c3") = Some Directory
  /\ run.2 !! (sample_domain // ".mxl-tmp-XXXXXXXXXXa1B2c3" // "descriptor.json")
     = Some (RegularFile sample_descriptor).
Proof. split; [|split]; vm_compute; reflexivity. Qed.



Lemma deleteFlow_reports_removal_witness :
  exists fs' : FS,
    deleteFlow (H := text_uuid) calm_world sample_domain sample_id domain_with_flow
    = (Returned true, fs')
    /\ fs' ⊆ domain_with_flow.
Proof.
  destruct (deleteFlow_reports_removal (H := text_uuid) calm_world sample_domain
              sample_id domain_with_flow)
    as (deleted & fs' & Hrun & Hsub & _).
  assert (Hcomputed :
    (deleteFlow (H := text_uuid) calm_world sample_domain sample_id
       domain_with_flow).1 = Returned true) by (vm_compute; reflexivity).
  rewrite Hrun in Hcomputed. simpl in Hcomputed. injection Hcomputed as ->.
  exists fs'. split; [exact Hrun | exact Hsub].
Defined.

(** The claim C6 as the specification states it, with true returned
    exactly when an entry was removed, does not hold: a removal that fails
    after it has removed the grains makes [deleteFlow] return false. *)
Lemma failed_removal_reports_false_after_removing :
  let run :=
    deleteFlow (H := text_uuid) world_without_removal sample_domain sample_id
      domain_with_flow in
  let grain :=
    sample_domain // "5fbec3b1-1b0f-417d-9059-8b94a47197ed.mxl-flow" // "grains"
      // "0" in
  run.1 = Returned false
  /\ domain_with_flow !! grain = Some SharedMemory
  /\ run.2 !! grain = None.
Proof. split; [|split]; vm_compute; reflexivity. Qed.

Lemma listFlows_lists_flow_directories_witness :
  (listFlows (H := text_uuid) calm_world sample_domain cluttered_domain).1
  = Returned [sample_id]
  /\ exists stem : string,
       stem <> ""
       /\ cluttered_domain !! (sample_domain // (stem +:+ ".mxl-flow"))
          = Some Directory
       /\ from_string (UuidLibrary := text_uuid) stem = Some sample_id.
Proof.
  assert (Hlisted :
    (listFlows (H := text_uuid) calm_world sample_domain cluttered_domain).1
    = Returned [sample_id]) by (vm_compute; reflexivity).
  split; [exact Hlisted|].
  apply (proj1 (proj2 (proj1 (proj2 (listFlows_lists_flow_directories
           (H := text_uuid) calm_world sample_domain cluttered_domain))
           [sample_id] _ (run_of_outcome _ _ Hlisted))) sample_id).
  apply list_elem_of_here.
Defined.

Example listFlows_without_domain :
  (listFlows (H := text_uuid) calm_world sample_domain ∅).1
  = Thrown (filesystem_error "FlowManager: Base directory not found."
              sample_domain no_such_file_or_directory).
Proof. vm_compute. reflexivity. Qed.

Example staging_directory_is_not_listed :
  extension ".mxl-tmp-XXXXXXXXXXa1B2c3" = ""
  /\ extension "not-a-valid-uuid.mxl-flow" = ".mxl-flow"
  /\ stem "not-a-valid-uuid.mxl-flow" = "not-a-valid-uuid".
Proof. repeat split; vm_compute; reflexivity. Qed.

Example deleteFlow_of_absent_flow :
  (deleteFlow (H := text_uuid) calm_world sample_domain sample_id empty_domain).1
  = Returned false.
Proof. vm_compute. reflexivity. Qed.

Example deleteFlow_when_removal_fails :
  (deleteFlow (H := text_uuid) world_without_removal sample_domain sample_id
     domain_with_flow).1
  = Returned false.
Proof. vm_compute. reflexivity. Qed.

Example mismatched_shape_is_rejected :
  (createContinuousFlow (H := text_uuid) calm_world sample_domain sample_id
     sample_descriptor MXL_DATA_FORMAT_VIDEO (Time.mkRational 48000 1) 1 4 1024
     empty_domain).1
  = Thrown (runtime_error
      "FlowManager: Attempt to create continuous flow with unsupported or non matching format.").
Proof. vm_compute. reflexivity. Qed.

Example existing_flow_is_not_replaced :
  (createDiscreteFlow (H := text_uuid) calm_world sample_domain sample_id
     sample_descriptor MXL_DATA_FORMAT_VIDEO 5 sample_rate 1024 domain_with_flow).1
  = Thrown (filesystem_error "FlowManager: Failed to publish flow directory"
              (sample_domain // "5fbec3b1-1b0f-417d-9059-8b94a47197ed.mxl-flow")
              io_error).
Proof. vm_compute. reflexivity. Qed.

(** *** More on paths and the file system *)

(** After the move, [dest/rest] holds what [source/rest] held. *)
Lemma lookup_moved_at (source dest rest : path) (fs : FS) :
  moved source dest fs !! (dest ++ rest) = fs !! (source ++ rest).
Proof.
  destruct (fs !! (source ++ rest)) as [x|] eqn:Hx; [by apply lookup_moved|].
  unfold moved. apply lookup_union_None. split.
  - apply not_elem_of_list_to_map_1. intros Hin.
    apply list_elem_of_fmap in Hin as ([k v] & Hk & Hin). simpl in Hk.
    apply list_elem_of_fmap in Hin as ([k0 v0] & Heq & Hin).
    apply elem_of_map_to_list, map_lookup_filter_Some in Hin as [Hin [r Hr]].
    simpl in Hr. subst k0. unfold prod_map in Heq. simpl in Heq.
    injection Heq as -> ->. rewrite drop_app_length in Hk.
    apply app_inv_head in Hk as ->. congruence.
  - apply lookup_without_below. by apply prefix_app_r.
Qed.

(** Outside [dest], the move takes away what was at or below [source]. *)
Lemma lookup_moved_outside (source dest q : path) (fs : FS) :
  ~ below dest q ->
  moved source dest fs !! q = if decide (below source q) then None else fs !! q.
Proof.
  intros Hout. unfold moved. rewrite lookup_union_r.
  - rewrite lookup_without_other by done.
    destruct (decide (below source q));
      [by apply lookup_without_below | by apply lookup_without_other].
  - apply not_elem_of_list_to_map_1. intros Hin.
    apply list_elem_of_fmap in Hin as ([k v] & Hk & Hin). simpl in Hk.
    apply list_elem_of_fmap in Hin as ([k0 v0] & Heq & Hin).
    unfold prod_map in Heq. simpl in Heq. injection Heq as -> ->.
    apply Hout. subst q. by apply prefix_app_r.
Qed.

Lemma nothing_below_absent (domain p q : path) (fs : FS) :
  nested domain fs -> below domain p -> fs !! p = None -> below p q ->
  fs !! q = None.
Proof.
  intros Hnested Hp Habsent [rest ->].
  induction rest as [|name rest IH] using rev_ind.
  - by rewrite app_nil_r.
  - destruct (fs !! (p ++ rest ++ [name])) as [x|] eqn:Hx; [|done].
    rewrite app_assoc in Hx.
    rewrite (Hnested (p ++ rest) name) in IH; [done | | by eexists].
    unfold below in *. by apply prefix_app_r.
Qed.

Lemma below_child_inv (d : path) (name name' : string) :
  below (d // name) (d // name') -> name = name'.
Proof.
  unfold below, path_append. intros [rest Hrest].
  rewrite <- app_assoc in Hrest. apply app_inv_head in Hrest.
  by injection Hrest.
Qed.

Lemma not_below_parent (d : path) (name : string) : ~ below (d // name) d.
Proof.
  unfold below, path_append. intros [rest Hrest].
  apply (f_equal length) in Hrest. rewrite !length_app in Hrest.
  simpl in Hrest. lia.
Qed.

(** A directory that holds an entry counts more than itself. *)
Lemma count_below_occupied (p : path) (name : string) (fs : FS) :
  is_Some (fs !! p) -> is_Some (fs !! (p // name)) -> count_below p fs <> 1.
Proof.
  intros [x Hx] [y Hy] Hone. unfold count_below in Hone.
  set (m := filter (fun entry : path * node => below p entry.1) fs) in *.
  assert (H1 : m !! p = Some x).
  { apply map_lookup_filter_Some. split; [done | apply below_refl]. }
  assert (H2 : delete p m !! (p // name) = Some y).
  { rewrite lookup_delete_ne.
    - apply map_lookup_filter_Some. split; [done|]. apply below_append, below_refl.
    - intros Heq. apply (f_equal length) in Heq. unfold path_append in Heq.
      rewrite length_app in Heq. simpl in Heq. lia. }
  apply (map_size_ne_0_lookup_2 (delete p m) (p // name)); [by eexists|].
  rewrite map_size_delete_Some by (by eexists). by rewrite Hone.
Qed.

(** *** Runs that return *)

Lemma bind_returned {A B : Type} (m : M A) (k : A -> M B) (fs fs' : FS) (b : B) :
  bind m k fs = (Returned b, fs') ->
  exists a fs1, m fs = (Returned a, fs1) /\ k a fs1 = (Returned b, fs').
Proof. unfold bind. destruct (m fs) as [[a|e] fs1]; [eauto | done]. Qed.

Lemma try_catch_all_returned {A : Type} (body : M A) (handler : exception -> M A)
    (fs fs' : FS) (a : A) :
  (forall e fs1, exists e' fs2, handler e fs1 = (Thrown e', fs2)) ->
  try_catch_all body handler fs = (Returned a, fs') ->
  body fs = (Returned a, fs').
Proof.
  intros Hthrows. unfold try_catch_all.
  destruct (body fs) as [[a'|e] fs1]; [done|].
  destruct (Hthrows e fs1) as (e' & fs2 & ->). done.
Qed.

Lemma try_catch_std_returned {A : Type} (body : M A) (handler : exception -> M A)
    (fs fs' : FS) (a : A) :
  (forall e fs1, exists e' fs2, handler e fs1 = (Thrown e', fs2)) ->
  try_catch_std body handler fs = (Returned a, fs') ->
  body fs = (Returned a, fs').
Proof.
  intros Hthrows. unfold try_catch_std.
  destruct (body fs) as [[a'|e] fs1]; [done|].
  destruct (is_std_exception e); [|done].
  destruct (Hthrows e fs1) as (e' & fs2 & ->). done.
Qed.

Lemma ofstream_open_returned (fails : bool) (p : path) (fs fs' : FS) :
  ofstream_open fails p fs = (Returned true, fs') ->
  fs' = <[p := RegularFile ""]> fs.
Proof. unfold ofstream_open. destruct (_ && _); by intros [= <-]. Qed.

Lemma writeFlowDescriptor_returned (w : World) (flowDir : path) (flowDef : string)
    (fs fs' : FS) :
  writeFlowDescriptor w flowDir flowDef fs = (Returned tt, fs') ->
  fs' = <[makeFlowDescriptorFilePath flowDir
          := RegularFile (written (descriptor_write_fails w) flowDef)]> fs.
Proof.
  unfold writeFlowDescriptor. intros Hrun.
  apply bind_returned in Hrun as ([] & fs1 & Hopen & Hrun); [|done].
  apply ofstream_open_returned in Hopen as ->.
  unfold ofstream_insert in Hrun. rewrite lookup_insert_eq in Hrun.
  injection Hrun as <-. by rewrite insert_insert_eq.
Qed.

Lemma create_segment_returned (throws : option exception) (p : path)
    (fs fs' : FS) :
  create_segment throws p fs = (Returned tt, fs') -> fs' = <[p := SharedMemory]> fs.
Proof.
  unfold create_segment. destruct throws; [done|].
  destruct (_ && _); by intros [= <-].
Qed.

Lemma create_directory_returned (w : World) (p : path) (fs fs' : FS) :
  create_directory w p fs = (Returned true, fs') -> fs' = <[p := Directory]> fs.
Proof.
  unfold create_directory. destruct (_ || _); [done|].
  destruct (fs !! p) as [[]|]; by intros [= <-].
Qed.

Lemma emplaceGrains_returned (w : World) (grainDir : path) (size : nat)
    (i n : nat) (fs fs' : FS) (l : list GrainInfo) :
  emplaceGrains w grainDir size i n fs = (Returned l, fs') ->
  l = replicate n (mkGrainInfo size 1 (-1))
  /\ forall q,
       fs' !! q = if decide (q ∈ (makeGrainDataFilePath grainDir <$> seq i n))
                  then Some SharedMemory else fs !! q.
Proof.
  revert i fs l. induction n as [|n IH]; intros i fs l; cbn [emplaceGrains].
  - intros [= <- <-]. split; [done|]. intros q. cbn [seq fmap list_fmap].
    rewrite decide_False; [done | apply not_elem_of_nil].
  - intros Hrun.
    apply bind_returned in Hrun as ([] & fs1 & Hseg & Hrun).
    apply create_segment_returned in Hseg as ->.
    apply bind_returned in Hrun as (rest & fs2 & Hrest & Hrun).
    injection Hrun as <- <-.
    apply IH in Hrest as [-> Hlook]. split; [done|].
    intros q. rewrite Hlook. cbn [seq fmap list_fmap].
    destruct (decide (q ∈ makeGrainDataFilePath grainDir <$> seq (S i) n))
      as [Hin | Hout].
    + rewrite decide_True; [done|]. by apply list_elem_of_further.
    + destruct (decide (q = makeGrainDataFilePath grainDir i)) as [-> | Hne].
      * rewrite lookup_insert_eq, decide_True; [done | apply list_elem_of_here].
      * rewrite lookup_insert_ne by done. rewrite decide_False; [done|].
        intros Hin. apply elem_of_cons in Hin as [? | ?]; done.
Qed.

Lemma publishFlowDirectory_returned (w : World) (source dest : path)
    (fs fs' : FS) :
  publishFlowDirectory w source dest fs = (Returned tt, fs') ->
  (forall rest, fs' !! (dest ++ rest) = fs !! (source ++ rest))
  /\ (forall q, ~ below dest q ->
        fs' !! q = if decide (below source q) then None else fs !! q)
  /\ (fs !! source = Some Directory -> is_Some (fs !! dest) -> source <> dest ->
      count_below dest fs = 1).
Proof.
  unfold publishFlowDirectory, bind, permissions.
  destruct (_ || _); [done|]. unfold rename.
  destruct (rename_fails w); [done|]. cbn [orb].
  destruct (fs !! source) as [x|] eqn:Hsrc; [|by cbn].
  match goal with |- context [negb ?b] => destruct b eqn:Hrep end;
    cbn [negb orb]; [|done].
  destruct (negb (is_directory fs (parent_path dest))); [done|]. cbn [orb].
  destruct (decide (source = dest)) as [<- | Hne].
  - rewrite (bool_decide_eq_true_2 (source = source)) by done.
    rewrite andb_false_r. intros [= <-]. split; [done|]. split; [|done].
    intros q Hq. by rewrite decide_False.
  - rewrite (bool_decide_eq_false_2 (source = dest)) by done.
    destruct (bool_decide (below source dest)); cbn [negb andb]; [done|].
    intros [= <-]. split; [intros rest; apply lookup_moved_at|].
    split; [intros q Hq; by apply lookup_moved_outside|].
    intros [= ->] [y Hy] _. rewrite Hy in Hrep.
    destruct y; try done. by apply bool_decide_eq_true_1 in Hrep.
Qed.

(** *** Creations that return *)

Lemma lookup_insert_relative (d r rest : path) (x : node) (fs : FS) :
  <[d ++ r := x]> fs !! (d ++ rest)
  = if decide (rest = r) then Some x else fs !! (d ++ rest).
Proof.
  destruct (decide (rest = r)) as [-> | Hne]; [apply lookup_insert_eq|].
  apply lookup_insert_ne. intros Heq. by apply app_inv_head in Heq.
Qed.

Lemma lookup_insert_root (d rest : path) (x : node) (fs : FS) :
  <[d := x]> fs !! (d ++ rest)
  = match rest with [] => Some x | _ => fs !! (d ++ rest) end.
Proof.
  destruct rest as [|name rest]; [rewrite app_nil_r; apply lookup_insert_eq|].
  apply lookup_insert_ne. intros Heq. apply (f_equal length) in Heq.
  rewrite length_app in Heq. simpl in Heq. lia.
Qed.

Lemma lookup_insert_root_outside (d q : path) (x : node) (fs : FS) :
  ~ below d q -> <[d := x]> fs !! q = fs !! q.
Proof.
  intros Hout. apply lookup_insert_ne. intros <-. apply Hout, below_refl.
Qed.

Lemma lookup_insert_outside (d r q : path) (x : node) (fs : FS) :
  ~ below d q -> <[d ++ r := x]> fs !! q = fs !! q.
Proof.
  intros Hout. apply lookup_insert_ne. intros <-. apply Hout.
  unfold below. by apply prefix_app_r.
Qed.

Lemma grain_path_relative (d rest : path) (n : nat) :
  d ++ rest ∈ (makeGrainDataFilePath (makeGrainDirectoryName d) <$> seq 0 n)
  <-> exists i, i < n /\ rest = makeGrainDataFilePath (makeGrainDirectoryName []) i.
Proof.
  rewrite list_elem_of_fmap. split.
  - intros (i & Heq & Hin). apply elem_of_seq in Hin. exists i. split; [lia|].
    unfold makeGrainDataFilePath, makeGrainDirectoryName, path_append in *.
    rewrite <- app_assoc in Heq. apply app_inv_head in Heq. exact Heq.
  - intros (i & Hi & ->). exists i. split; [|apply elem_of_seq; lia].
    unfold makeGrainDataFilePath, makeGrainDirectoryName, path_append.
    cbn [app]. rewrite <- app_assoc. reflexivity.
Qed.

Lemma rollback_throws {A : Type} (w : World) (tmp : path) (e : exception)
    (fs1 : FS) :
  exists e' fs2, (remove_all_ec w tmp >> throw (A := A) e) fs1 = (Thrown e', fs2).
Proof.
  unfold bind, remove_all_ec. destruct (remove_all_fails w); by eexists _, _.
Qed.

Lemma throw_throws {A : Type} (e : exception) (fs1 : FS) :
  exists e' fs2, throw (A := A) e fs1 = (Thrown e', fs2).
Proof. by eexists _, _. Qed.

(** [rename] moves a staging directory onto the flow directory only when
    that holds nothing. *)
Lemma staged_into_free_directory (domain : path) (name final : string)
    (fs fsE : FS) :
  let tmp := domain // name in
  let flowDir := makeFlowDirectoryName domain final in
  nested domain fs ->
  fs !! tmp = None ->
  (forall q, ~ below tmp q -> fsE !! q = fs !! q) ->
  fsE !! tmp = Some Directory ->
  (fsE !! tmp = Some Directory -> is_Some (fsE !! flowDir) -> tmp <> flowDir ->
   count_below flowDir fsE = 1) ->
  forall entry, fs !! (flowDir // entry) = None.
Proof.
  intros tmp flowDir Hnested Hfree Hkept Hstaged Hempty entry.
  destruct (fs !! (flowDir // entry)) as [x|] eqn:Hentry; [|done]. exfalso.
  assert (Hdir : fs !! flowDir = Some Directory).
  { apply (Hnested flowDir entry); [|by eexists].
    apply below_append, below_refl. }
  assert (Hne : tmp <> flowDir) by congruence.
  assert (Hout : ~ below tmp flowDir).
  { intros Hb. apply Hne. unfold tmp, flowDir, makeFlowDirectoryName in *.
    by rewrite (below_child_inv _ _ _ Hb). }
  assert (Hout' : ~ below tmp (flowDir // entry)).
  { intros [rest Hrest]. apply Hout. unfold below.
    destruct rest as [|r rest _] using rev_ind.
    - rewrite app_nil_r in Hrest. apply (f_equal length) in Hrest.
      unfold tmp, flowDir, makeFlowDirectoryName, path_append in Hrest.
      rewrite !length_app in Hrest. simpl in Hrest. lia.
    - unfold path_append in Hrest. rewrite app_assoc in Hrest.
      apply app_inj_tail in Hrest as [-> _]. by apply prefix_app_r. }
  apply (count_below_occupied flowDir entry fsE).
  - rewrite Hkept by done. by eexists.
  - rewrite Hkept by done. by eexists.
  - apply Hempty; [done | | done]. rewrite Hkept by done. by eexists.
Qed.

Section Created.

Context {uuid : Type} `{UuidLibrary uuid}.

Lemma discrete_format (flowFormat : mxlDataFormat) :
  mxlIsDiscreteDataFormat (sanitizeFlowFormat flowFormat) = true ->
  sanitizeFlowFormat flowFormat = MXL_DATA_FORMAT_VIDEO.
Proof. by destruct flowFormat. Qed.

Lemma continuous_format (flowFormat : mxlDataFormat) :
  mxlIsContinuousDataFormat (sanitizeFlowFormat flowFormat) = true ->
  sanitizeFlowFormat flowFormat = MXL_DATA_FORMAT_AUDIO.
Proof. by destruct flowFormat. Qed.

(** What a discrete creation that returns has done, in a domain whose
    entries are nested: the handle it returns, the entries of the flow
    directory, and the rest of the file system, which is as before. *)
Lemma createDiscreteFlow_returned (w : World) (domain : path) (flowId : uuid)
    (flowDef : string) (flowFormat : mxlDataFormat) (grainCount : nat)
    (grainRate : Time.Rational) (grainPayloadSize : nat) (fs fs' : FS)
    (flowData : DiscreteFlowData uuid) :
  nested domain fs ->
  createDiscreteFlow w domain flowId flowDef flowFormat grainCount grainRate
    grainPayloadSize fs = (Returned flowData, fs') ->
  let flowDir := makeFlowDirectoryName domain (to_string flowId) in
  flowData
  = mkDiscreteFlowData 1 (initCommonFlowInfo w flowId MXL_DATA_FORMAT_VIDEO)
      grainRate grainCount 0 (replicate grainCount (mkGrainInfo grainPayloadSize 1 (-1)))
  /\ fs !! domain = Some Directory
  /\ (forall name, fs !! (flowDir // name) = None)
  /\ (forall rest x,
        fs' !! (flowDir ++ rest) = Some x <-> discrete_entry (written (descriptor_write_fails w) flowDef) grainCount rest x)
  /\ (forall q, ~ below flowDir q -> fs' !! q = fs !! q).
Proof.
  intros Hnested Hrun flowDir. unfold createDiscreteFlow in Hrun.
  destruct (mxlIsDiscreteDataFormat (sanitizeFlowFormat flowFormat)) eqn:Hshape;
    cbn [negb] in Hrun; [|done].
  apply discrete_format in Hshape. rewrite Hshape in Hrun.
  apply bind_returned in Hrun as (tmp & fs1 & Htmp & Hrun).
  apply createTemporaryFlowDirectory_returned in Htmp
    as (six & Hsix & -> & Hdomain & Hfree & ->).
  set (name := ".mxl-tmp-XXXXXXXXXX" +:+ six) in *.
  set (tmp := domain // name) in *.
  assert (Hbelow : below domain tmp) by apply below_append, below_refl.
  apply try_catch_all_returned in Hrun; [|apply rollback_throws].
  apply bind_returned in Hrun as ([] & fsA & HA & Hrun).
  apply writeFlowDescriptor_returned in HA as ->.
  apply bind_returned in Hrun as (out & fsB & HB & Hrun).
  destruct out; cbn [negb] in Hrun; [|done].
  apply ofstream_open_returned in HB as ->.
  apply bind_returned in Hrun as ([] & fsC & HC & Hrun).
  apply create_segment_returned in HC as ->.
  apply bind_returned in Hrun as (created & fsD & HD & Hrun).
  destruct created; cbn [negb] in Hrun; [|done].
  apply create_directory_returned in HD as ->.
  apply bind_returned in Hrun as (grains & fsE & HE & Hrun).
  apply emplaceGrains_returned in HE as [-> HE].
  apply bind_returned in Hrun as ([] & fsF & HF & Hrun).
  injection Hrun as <- <-.
  apply try_catch_std_returned in HF; [|intros; apply throw_throws].
  apply publishFlowDirectory_returned in HF as (Hat & Hout & Hempty).
  fold flowDir in Hat, Hout, Hempty.
  assert (Hkept : forall q, ~ below tmp q -> fsE !! q = fs !! q).
  { intros q Hnot. rewrite HE, decide_False.
    - unfold makeFlowDescriptorFilePath, makeFlowAccessFilePath,
        makeFlowDataFilePath, makeGrainDirectoryName, path_append.
      by rewrite !lookup_insert_outside, lookup_insert_root_outside.
    - intros Hin. apply list_elem_of_fmap in Hin as (i & -> & _).
      apply Hnot. apply below_append, below_append, below_refl. }
  assert (Hstaged : fsE !! tmp = Some Directory).
  { rewrite HE, decide_False.
    - unfold makeFlowDescriptorFilePath, makeFlowAccessFilePath,
        makeFlowDataFilePath, makeGrainDirectoryName, path_append.
      rewrite !lookup_insert_ne
        by (intros Heq; apply (f_equal length) in Heq; rewrite length_app in Heq;
            simpl in Heq; lia).
      apply lookup_insert_eq.
    - intros Hin. apply list_elem_of_fmap in Hin as (i & Heq & _).
      apply (f_equal length) in Heq.
      unfold makeGrainDataFilePath, makeGrainDirectoryName, path_append in Heq.
      rewrite !length_app in Heq. simpl in Heq. lia. }
  split; [reflexivity|]. split; [exact Hdomain|]. split.
  { by apply (staged_into_free_directory domain name (to_string flowId) fs fsE). }
  split.
  - intros rest x. rewrite Hat, HE.
    case_decide as Hgrain; rewrite grain_path_relative in Hgrain.
    { destruct Hgrain as (i & Hi & ->).
      split; [intros [= <-]; do 5 right; by exists i|]. intros Hcase.
      destruct Hcase as [[? ?] | [[? ?] | [[? ?] | [[? ?] | [[? ?] | (? & ? & ? & ?)]]]]];
        by subst. }
    unfold discrete_entry, makeFlowDescriptorFilePath, makeFlowAccessFilePath,
      makeFlowDataFilePath, makeGrainDataFilePath, makeGrainDirectoryName,
      path_append in Hgrain |- *.
    cbn [app] in Hgrain |- *.
    rewrite !lookup_insert_relative, lookup_insert_root.
    assert (Habsent : fs !! (tmp ++ rest) = None).
    { apply (nothing_below_absent domain tmp); try done. by apply prefix_app_r. }
    destruct rest as [|entry rest]; [|rewrite Habsent]; repeat case_decide;
      (split;
       [ intros Hx; simplify_eq; tauto
       | intros Hcase; destruct_or!; destruct_and?; simplify_eq; try done;
         destruct Hcase as (i & Hi & Hrest & _); exfalso; apply Hgrain;
         by exists i ]).
  - intros q Hq. rewrite (Hout q Hq).
    destruct (decide (below tmp q)) as [Hin | Hnot]; [|by apply Hkept].
    symmetry. by apply (nothing_below_absent domain tmp q fs).
Qed.

(** The same for a continuous creation. *)
Lemma createContinuousFlow_returned (w : World) (domain : path) (flowId : uuid)
    (flowDef : string) (flowFormat : mxlDataFormat) (sampleRate : Time.Rational)
    (channelCount sampleWordSize bufferLength : nat) (fs fs' : FS)
    (flowData : ContinuousFlowData uuid) :
  nested domain fs ->
  createContinuousFlow w domain flowId flowDef flowFormat sampleRate channelCount
    sampleWordSize bufferLength fs = (Returned flowData, fs') ->
  let flowDir := makeFlowDirectoryName domain (to_string flowId) in
  flowData
  = mkContinuousFlowData 1 (initCommonFlowInfo w flowId MXL_DATA_FORMAT_AUDIO)
      sampleRate channelCount bufferLength sampleWordSize
  /\ fs !! domain = Some Directory
  /\ (forall name, fs !! (flowDir // name) = None)
  /\ (forall rest x,
        fs' !! (flowDir ++ rest) = Some x <-> continuous_entry (written (descriptor_write_fails w) flowDef) rest x)
  /\ (forall q, ~ below flowDir q -> fs' !! q = fs !! q).
Proof.
  intros Hnested Hrun flowDir. unfold createContinuousFlow in Hrun.
  destruct (mxlIsContinuousDataFormat (sanitizeFlowFormat flowFormat)) eqn:Hshape;
    cbn [negb] in Hrun; [|done].
  apply continuous_format in Hshape. rewrite Hshape in Hrun.
  apply bind_returned in Hrun as (tmp & fs1 & Htmp & Hrun).
  apply createTemporaryFlowDirectory_returned in Htmp
    as (six & Hsix & -> & Hdomain & Hfree & ->).
  set (name := ".mxl-tmp-XXXXXXXXXX" +:+ six) in *.
  set (tmp := domain // name) in *.
  assert (Hbelow : below domain tmp) by apply below_append, below_refl.
  apply try_catch_all_returned in Hrun; [|apply rollback_throws].
  apply bind_returned in Hrun as ([] & fsA & HA & Hrun).
  apply writeFlowDescriptor_returned in HA as ->.
  apply bind_returned in Hrun as ([] & fsB & HB & Hrun).
  apply try_catch_std_returned in HB; [|intros; apply throw_throws].
  apply create_segment_returned in HB as ->.
  apply bind_returned in Hrun as ([] & fsC & HC & Hrun).
  apply try_catch_std_returned in HC; [|intros; apply throw_throws].
  apply create_segment_returned in HC as ->.
  apply bind_returned in Hrun as ([] & fsF & HF & Hrun).
  injection Hrun as <- <-.
  apply try_catch_std_returned in HF; [|intros; apply throw_throws].
  match type of HF with publishFlowDirectory _ _ _ ?staged = _ =>
    set (fsE := staged) in * end.
  apply publishFlowDirectory_returned in HF as (Hat & Hout & Hempty).
  fold flowDir in Hat, Hout, Hempty.
  unfold makeFlowDescriptorFilePath, makeFlowDataFilePath, makeChannelDataFilePath,
    path_append in fsE.
  fold (path_append domain name) in fsE. fold tmp in fsE.
  assert (Hkept : forall q, ~ below tmp q -> fsE !! q = fs !! q).
  { intros q Hnot. unfold fsE.
    by rewrite !lookup_insert_outside, lookup_insert_root_outside. }
  assert (Hstaged : fsE !! tmp = Some Directory).
  { unfold fsE.
    rewrite !lookup_insert_ne
      by (intros Heq; apply (f_equal length) in Heq; rewrite length_app in Heq;
          simpl in Heq; lia).
    apply lookup_insert_eq. }
  split; [reflexivity|]. split; [exact Hdomain|]. split.
  { by apply (staged_into_free_directory domain name (to_string flowId) fs fsE). }
  split.
  - intros rest x. rewrite Hat. unfold fsE.
    unfold continuous_entry, makeFlowDescriptorFilePath, makeFlowDataFilePath,
      makeChannelDataFilePath, path_append.
    cbn [app].
    rewrite !lookup_insert_relative, lookup_insert_root.
    assert (Habsent : fs !! (tmp ++ rest) = None).
    { apply (nothing_below_absent domain tmp); try done. by apply prefix_app_r. }
    destruct rest as [|entry rest]; [|rewrite Habsent]; repeat case_decide;
      (split;
       [ intros Hx; simplify_eq; tauto
       | intros Hcase; destruct_or!; destruct_and?; simplify_eq; done ]).
  - intros q Hq. rewrite (Hout q Hq).
    destruct (decide (below tmp q)) as [Hin | Hnot]; [|by apply Hkept].
    symmetry. by apply (nothing_below_absent domain tmp q fs).
Qed.

(** *** Creations that throw *)

(** In a domain whose entries are nested, a creation that was rolled back
    by a removal that did not fail has left the file system as it was. *)
Lemma rolled_back_restores (shape_ok : bool) (w : World) (domain : path)
    (fs fs' : FS) :
  nested domain fs ->
  remove_all_fails w = None ->
  rolled_back shape_ok w domain fs fs' ->
  fs' = fs.
Proof.
  intros Hnested Hremoves (Hrejected & Hunmade & Hmade).
  destruct shape_ok; [|by apply Hrejected].
  destruct (createTemporaryFlowDirectory w domain fs) as [[tmp|e] fs1] eqn:Htmp;
    [|by apply (Hunmade e fs1)].
  destruct (Hmade tmp fs1 eq_refl eq_refl) as [Hkept Hgone].
  destruct (createTemporaryFlowDirectory_returned _ _ _ _ _ Htmp)
    as (six & _ & -> & _ & Hfree & _).
  apply map_eq. intros q.
  destruct (decide (below (domain // (".mxl-tmp-XXXXXXXXXX" +:+ six)) q))
    as [Hin | Hout]; [|by apply Hkept].
  rewrite (Hgone Hremoves q Hin). symmetry.
  apply (nothing_below_absent domain (domain // (".mxl-tmp-XXXXXXXXXX" +:+ six)));
    try done.
  apply below_append, below_refl.
Qed.

End Created.

(** *** Nested domains *)

Lemma nested_singleton (domain : path) : nested domain {[ domain := Directory ]}.
Proof.
  intros p name [rest ->] [x Hx]. apply lookup_singleton_Some in Hx as [Heq _].
  apply (f_equal length) in Heq. unfold path_append in Heq.
  rewrite !length_app in Heq. simpl in Heq. lia.
Qed.

Lemma below_trans (p q r : path) : below p q -> below q r -> below p r.
Proof. unfold below. by intros ? ?; etrans. Qed.

Lemma path_append_inj (p q : path) (name name' : string) :
  p // name = q // name' -> p = q /\ name = name'.
Proof. unfold path_append. intros Heq. by apply app_inj_tail in Heq. Qed.

(** A state that inside [flowDir], a child of the domain, holds a
    directory with entries in directories, and outside it a nested state,
    is nested. *)
Lemma nested_published (domain : path) (final : string) (fs fs' : FS)
    (entry : path -> node -> Prop) :
  let flowDir := domain // final in
  nested domain fs ->
  fs !! domain = Some Directory ->
  (forall rest x, fs' !! (flowDir ++ rest) = Some x <-> entry rest x) ->
  (forall q, ~ below flowDir q -> fs' !! q = fs !! q) ->
  (forall rest name x, entry (rest ++ [name]) x -> entry rest Directory) ->
  nested domain fs'.
Proof.
  intros flowDir Hnested Hdomain Hentries Hframe Hparents p name Hp [x Hx].
  destruct (decide (below flowDir (p // name))) as [[rest Hrest] | Hout].
  - destruct rest as [|last rest _] using rev_ind.
    + rewrite app_nil_r in Hrest. apply path_append_inj in Hrest as [-> _].
      rewrite Hframe; [done | apply not_below_parent].
    + unfold path_append in Hrest. rewrite app_assoc in Hrest.
      apply app_inj_tail in Hrest as [-> ->].
      apply Hentries. apply (Hparents rest last x). apply Hentries.
      unfold path_append in Hx. by rewrite <- app_assoc in Hx.
  - rewrite Hframe in Hx by done. rewrite Hframe.
    + apply (Hnested p name Hp). by eexists.
    + intros Hin. apply Hout. by apply below_append.
Qed.

Lemma discrete_entry_parent (flowDef : string) (grainCount : nat) (rest : path)
    (name : string) (x : node) :
  discrete_entry flowDef grainCount (rest ++ [name]) x ->
  discrete_entry flowDef grainCount rest Directory.
Proof.
  unfold discrete_entry, makeFlowDescriptorFilePath, makeFlowAccessFilePath,
    makeFlowDataFilePath, makeGrainDataFilePath, makeGrainDirectoryName,
    path_append.
  cbn [app]. intros Hcase.
  destruct Hcase as [[Heq _] | [[Heq _] | [[Heq _] | [[Heq _] | [[Heq _] | (i & _ & Heq & _)]]]]].
  - by destruct rest.
  - left. by destruct rest as [|? [|? ?]].
  - left. by destruct rest as [|? [|? ?]].
  - left. by destruct rest as [|? [|? ?]].
  - left. by destruct rest as [|? [|? ?]].
  - do 4 right. left. destruct rest as [|? [|? [|? ?]]]; try done.
    by injection Heq as -> _.
Qed.

Lemma continuous_entry_parent (flowDef : string) (rest : path) (name : string)
    (x : node) :
  continuous_entry flowDef (rest ++ [name]) x ->
  continuous_entry flowDef rest Directory.
Proof.
  unfold continuous_entry, makeFlowDescriptorFilePath, makeFlowDataFilePath,
    makeChannelDataFilePath, path_append.
  cbn [app]. intros Hcase.
  destruct Hcase as [[Heq _] | [[Heq _] | [[Heq _] | [Heq _]]]].
  - by destruct rest.
  - left. by destruct rest as [|? [|? ?]].
  - left. by destruct rest as [|? [|? ?]].
  - left. by destruct rest as [|? [|? ?]].
Qed.

Lemma nested_without (domain p : path) (fs : FS) :
  nested domain fs -> nested domain (without p fs).
Proof.
  intros Hnested q name Hq [x Hx].
  destruct (decide (below p (q // name))) as [Hin | Hout].
  { by rewrite lookup_without_below in Hx. }
  rewrite lookup_without_other in Hx by done.
  rewrite lookup_without_other.
  - apply (Hnested q name Hq). by eexists.
  - intros Hin. apply Hout. by apply below_append.
Qed.

(** *** Listing *)

Lemma flow_directory_name_inj (s t : string) :
  s +:+ FLOW_DIRECTORY_NAME_SUFFIX = t +:+ FLOW_DIRECTORY_NAME_SUFFIX -> s = t.
Proof.
  revert t. induction s as [|c s IH]; intros [|c' t]; simpl; try done.
  - intros Heq. apply (f_equal String.length) in Heq. simpl in Heq.
    rewrite string_length_app in Heq. simpl in Heq. lia.
  - intros Heq. apply (f_equal String.length) in Heq. simpl in Heq.
    rewrite string_length_app in Heq. simpl in Heq. lia.
  - intros [= -> Heq]. f_equal. by apply IH.
Qed.

Section Listed.

Context {uuid : Type} `{UuidLibrary uuid}.

(** In an existing domain whose iteration does not fail, [listFlows]
    returns, and lists the UUIDs that the stems of the flow directories
    parse to. *)
Lemma listFlows_returned (w : World) (domain : path) (fs : FS) :
  fs !! domain = Some Directory ->
  directory_iterator_fails w = false ->
  exists flowIds : list uuid,
    listFlows w domain fs = (Returned flowIds, fs)
    /\ forall u : uuid,
         u ∈ flowIds <->
         exists stem : string,
           stem <> ""
           /\ fs !! (domain // (stem +:+ FLOW_DIRECTORY_NAME_SUFFIX)) = Some Directory
           /\ from_string stem = Some u.
Proof.
  intros Hdir Hiter.
  unfold listFlows, bind, query, exists_, is_directory.
  rewrite (bool_decide_eq_true_2 (is_Some (fs !! domain))) by (by eexists).
  rewrite (bool_decide_eq_true_2 (fs !! domain = Some Directory)) by done.
  cbn [andb]. unfold try_catch_all, bind.
  destruct (directory_iterator w domain fs) as [[entries|e] fs1] eqn:Hrun.
  2:{ unfold directory_iterator, is_directory in Hrun.
      rewrite Hiter, (bool_decide_eq_true_2 (fs !! domain = Some Directory)) in Hrun
        by done. done. }
  apply directory_iterator_entries in Hrun as [-> Hentries].
  eexists. split; [reflexivity|]. intros u.
  rewrite listFlows_loop_elem_of. split.
  - intros [Hnil | ([name x] & Hin & Hisdir & Hext & Hparse)].
    { by apply not_elem_of_nil in Hnil. }
    simpl in *. subst x.
    apply flow_directory_of_extension in Hext as [Hne Hname].
    exists (Flows.stem name). split; [exact Hne|]. split; [|exact Hparse].
    rewrite <- Hname. by apply Hentries.
  - intros (s & Hne & Hisdir & Hparse). right.
    exists (s +:+ FLOW_DIRECTORY_NAME_SUFFIX, Directory).
    destruct (extension_of_flow_directory s Hne) as [Hext Hstem].
    split; [by apply Hentries|]. simpl. by rewrite Hext, Hstem.
Qed.

(** Publishing a flow directory adds its UUID to the list and keeps the
    UUIDs that were listed. *)
Lemma published_flow_is_listed (w : World) (domain : path) (flowId : uuid)
    (fs fs' : FS) :
  let flowDir := makeFlowDirectoryName domain (to_string flowId) in
  fs !! domain = Some Directory ->
  fs' !! flowDir = Some Directory ->
  (forall q, ~ below flowDir q -> fs' !! q = fs !! q) ->
  from_string (to_string flowId) = Some flowId ->
  to_string flowId <> "" ->
  directory_iterator_fails w = false ->
  exists flowIds : list uuid,
    listFlows w domain fs' = (Returned flowIds, fs')
    /\ flowId ∈ flowIds
    /\ forall before : list uuid,
         listFlows w domain fs = (Returned before, fs) ->
         forall u, u ∈ before -> u ∈ flowIds.
Proof.
  intros flowDir Hdomain Hpublished Hframe Hparse Hne Hiter.
  assert (Hdomain' : fs' !! domain = Some Directory).
  { rewrite Hframe; [done | apply not_below_parent]. }
  destruct (listFlows_returned w domain fs' Hdomain' Hiter) as (flowIds & Hrun & Hin).
  exists flowIds. split; [exact Hrun|]. split.
  - apply Hin. by exists (to_string flowId).
  - intros before Hbefore u Hu.
    destruct (listFlows_returned w domain fs Hdomain Hiter) as (ids & Hrun0 & Hin0).
    rewrite Hrun0 in Hbefore. injection Hbefore as ->.
    apply Hin0 in Hu as (s & Hs & Hdir & Hu). apply Hin. exists s.
    split; [done|]. split; [|done].
    destruct (decide (s = to_string flowId)) as [-> | Hother]; [done|].
    rewrite Hframe; [done|]. intros Hin'. apply Hother.
    apply below_child_inv in Hin'. symmetry. by apply flow_directory_name_inj.
Qed.

End Listed.

(** *** Further properties of the flow manager *)

Lemma grain_directory_child (d : path) (name : string) :
  makeGrainDirectoryName d // name = d ++ (makeGrainDirectoryName [] // name).
Proof.
  unfold makeGrainDirectoryName, path_append. cbn [app].
  by rewrite <- app_assoc.
Qed.

Lemma lookup_partly_without_kept (removed : path -> bool) (p q : path) (fs : FS) :
  ~ (below p q /\ removed q = true) -> partly_without removed p fs !! q = fs !! q.
Proof.
  intros Hkept. unfold partly_without.
  destruct (fs !! q) as [x|] eqn:E.
  - apply map_lookup_filter_Some. by split.
  - apply map_lookup_filter_None. by left.
Qed.

Section MoreProperties.

Context {uuid : Type} `{UuidLibrary uuid}.



(** X12. When the flow directory of a UUID already holds an entry, every
    creation of a flow with that UUID, discrete or continuous, throws, and
    whatever is at or below the flow directory is as before the call; when
    moreover the removal of the staging directory does not fail, the whole
    file system is as before the call. *)
Theorem occupied_flow_directory_is_kept (w : World) (domain : path)
    (flowId : uuid) (flowDef : string) (flowFormat : mxlDataFormat) (fs : FS)
    (name : string) :
  let flowDir := makeFlowDirectoryName domain (to_string flowId) in
  nested domain fs ->
  is_Some (fs !! (flowDir // name)) ->
  let kept (fs' : FS) :=
    (forall q, below flowDir q -> fs' !! q = fs !! q)
    /\ (remove_all_fails w = None -> fs' = fs) in
  (forall count grainRate grainPayloadSize, exists e fs',
     createDiscreteFlow w domain flowId flowDef flowFormat count grainRate
       grainPayloadSize fs = (Thrown e, fs')
     /\ kept fs')
  /\ (forall sampleRate channelCount sampleWordSize bufferLength, exists e fs',
        createContinuousFlow w domain flowId flowDef flowFormat sampleRate
          channelCount sampleWordSize bufferLength fs = (Thrown e, fs')
        /\ kept fs').
Proof.
  intros flowDir Hnested [x Hx] kept. split.
  - intros count grainRate grainPayloadSize.
    pose proof (createDiscreteFlow_post w domain flowId flowDef flowFormat count
                  grainRate grainPayloadSize fs) as Hpost.
    unfold wp in Hpost.
    destruct (createDiscreteFlow w domain flowId flowDef flowFormat count grainRate
                grainPayloadSize fs) as [[flowData|e] fs'] eqn:Hrun.
    + destruct (createDiscreteFlow_returned _ _ _ _ _ _ _ _ _ _ _ Hnested Hrun)
        as (_ & _ & Hempty & _).
      fold flowDir in Hempty. by rewrite Hempty in Hx.
    + exists e, fs'. split; [done|]. split.
      * intros q Hq.
        by apply (rolled_back_keeps_flow_directories _ _ _ _ _ (to_string flowId) q Hpost).
      * intros Hremoves. by apply (rolled_back_restores _ _ _ _ _ Hnested Hremoves Hpost).
  - intros sampleRate channelCount sampleWordSize bufferLength.
    pose proof (createContinuousFlow_post w domain flowId flowDef flowFormat
                  sampleRate channelCount sampleWordSize bufferLength fs) as Hpost.
    unfold wp in Hpost.
    destruct (createContinuousFlow w domain flowId flowDef flowFormat sampleRate
                channelCount sampleWordSize bufferLength fs)
      as [[flowData|e] fs'] eqn:Hrun.
    + destruct (createContinuousFlow_returned _ _ _ _ _ _ _ _ _ _ _ _ Hnested Hrun)
        as (_ & _ & Hempty & _).
      fold flowDir in Hempty. by rewrite Hempty in Hx.
    + exists e, fs'. split; [done|]. split.
      * intros q Hq.
        by apply (rolled_back_keeps_flow_directories _ _ _ _ _ (to_string flowId) q Hpost).
      * intros Hremoves. by apply (rolled_back_restores _ _ _ _ _ Hnested Hremoves Hpost).
Qed.

(** X13. When [deleteFlow] of a UUID returns [true], nothing is left at or
    below the flow directory, every other path holds what it held, and
    deleting the same UUID again returns [false] and changes nothing. *)
Theorem deleteFlow_removes_the_flow_directory (w : World) (domain : path)
    (flowId : uuid) (fs fs' : FS) :
  deleteFlow w domain flowId fs = (Returned true, fs') ->
  let flowPath := makeFlowDirectoryName domain (to_string flowId) in
  (forall q, below flowPath q -> fs' !! q = None)
  /\ (forall q, ~ below flowPath q -> fs' !! q = fs !! q)
  /\ (forall w', deleteFlow w' domain flowId fs' = (Returned false, fs')).
Proof.
  intros Hrun flowPath. rewrite deleteFlow_cases in Hrun. cbv zeta in Hrun.
  fold flowPath in Hrun.
  destruct (remove_all_fails w) as [removed|]; [done|].
  destruct (fs !! flowPath) as [x|]; [|done]. injection Hrun as <-.
  split; [|split].
  - intros q Hq. by apply lookup_without_below.
  - intros q Hq. by apply lookup_without_other.
  - intros w'. rewrite deleteFlow_cases. cbv zeta. fold flowPath.
    rewrite lookup_without_below by apply below_refl.
    destruct (remove_all_fails w') as [removed|]; [|done].
    f_equal. apply map_eq. intros q.
    destruct (decide (below flowPath q /\ removed q = true)) as [[Hq Hr] | Hout].
    + rewrite lookup_partly_without_removed by done.
      symmetry. by apply lookup_without_below.
    + by apply lookup_partly_without_kept.
Qed.

(** X14. In a domain in which whatever exists lies in an existing
    directory and that has no flow directory for the UUID: deleting a flow
    through the handle its creation returned, discrete or continuous, returns
    [true] when the recursive removal does not fail, and leaves the file
    system exactly as it was before the creation.  Deleting through a null
    handle returns [false] and changes nothing. *)
Theorem created_flow_deleted_through_its_handle (w w' : World) (domain : path)
    (flowId : uuid) (flowDef : string) (flowFormat : mxlDataFormat) (fs fs' : FS) :
  nested domain fs ->
  fs !! makeFlowDirectoryName domain (to_string flowId) = None ->
  remove_all_fails w' = None ->
  (forall count grainRate grainPayloadSize flowData,
     createDiscreteFlow w domain flowId flowDef flowFormat count grainRate
       grainPayloadSize fs = (Returned flowData, fs') ->
     deleteFlowData w' domain (Some (Discrete flowData)) fs' = (Returned true, fs))
  /\ (forall sampleRate channelCount sampleWordSize bufferLength flowData,
        createContinuousFlow w domain flowId flowDef flowFormat sampleRate
          channelCount sampleWordSize bufferLength fs = (Returned flowData, fs') ->
        deleteFlowData w' domain (Some (Continuous flowData)) fs'
        = (Returned true, fs))
  /\ deleteFlowData w' domain None fs' = (Returned false, fs').
Proof.
  intros Hnested Habsent Hremoves.
  set (flowDir := makeFlowDirectoryName domain (to_string flowId)) in *.
  assert (Hdelete : forall fs1 : FS,
            fs1 !! flowDir = Some Directory ->
            (forall q, ~ below flowDir q -> fs1 !! q = fs !! q) ->
            try_catch_all (deleteFlow w' domain flowId) (fun _ => ret false) fs1
            = (Returned true, fs)).
  { intros fs1 Hdir Hframe. unfold try_catch_all.
    rewrite deleteFlow_cases. cbv zeta. fold flowDir. rewrite Hremoves, Hdir.
    f_equal. apply map_eq. intros q.
    destruct (decide (below flowDir q)) as [Hin | Hout].
    - rewrite lookup_without_below by done. symmetry.
      apply (nothing_below_absent domain flowDir); try done.
      apply below_append, below_refl.
    - rewrite lookup_without_other by done. by apply Hframe. }
  split; [|split; [|done]].
  - intros count grainRate grainPayloadSize flowData Hrun.
    destruct (createDiscreteFlow_returned _ _ _ _ _ _ _ _ _ _ _ Hnested Hrun)
      as (-> & _ & _ & Hentries & Hframe).
    apply Hdelete; [|exact Hframe].
    fold flowDir in Hentries. rewrite <- (app_nil_r flowDir). apply Hentries. by left.
  - intros sampleRate channelCount sampleWordSize bufferLength flowData Hrun.
    destruct (createContinuousFlow_returned _ _ _ _ _ _ _ _ _ _ _ _ Hnested Hrun)
      as (-> & _ & _ & Hentries & Hframe).
    apply Hdelete; [|exact Hframe].
    fold flowDir in Hentries. rewrite <- (app_nil_r flowDir). apply Hentries. by left.
Qed.

(** X15. For a UUID that [from_string] reads back from its text: after a
    creation that returned, discrete or continuous, [listFlows] returns a
    list that contains the UUID, and every UUID listed before the creation
    is still listed. *)
Theorem created_flow_is_listed (w w' : World) (domain : path) (flowId : uuid)
    (flowDef : string) (flowFormat : mxlDataFormat) (fs fs' : FS) :
  nested domain fs ->
  from_string (to_string flowId) = Some flowId ->
  to_string flowId <> "" ->
  directory_iterator_fails w' = false ->
  let listed :=
    exists flowIds : list uuid,
      listFlows w' domain fs' = (Returned flowIds, fs')
      /\ flowId ∈ flowIds
      /\ forall before : list uuid,
           listFlows w' domain fs = (Returned before, fs) ->
           forall u, u ∈ before -> u ∈ flowIds in
  (forall count grainRate grainPayloadSize flowData,
     createDiscreteFlow w domain flowId flowDef flowFormat count grainRate
       grainPayloadSize fs = (Returned flowData, fs') -> listed)
  /\ (forall sampleRate channelCount sampleWordSize bufferLength flowData,
        createContinuousFlow w domain flowId flowDef flowFormat sampleRate
          channelCount sampleWordSize bufferLength fs = (Returned flowData, fs') ->
        listed).
Proof.
  intros Hnested Hparse Hne Hiter listed. split.
  - intros count grainRate grainPayloadSize flowData Hrun.
    destruct (createDiscreteFlow_returned _ _ _ _ _ _ _ _ _ _ _ Hnested Hrun)
      as (_ & Hdomain & _ & Hentries & Hframe).
    apply published_flow_is_listed; try done.
    rewrite <- (app_nil_r (makeFlowDirectoryName _ _)). apply Hentries. by left.
  - intros sampleRate channelCount sampleWordSize bufferLength flowData Hrun.
    destruct (createContinuousFlow_returned _ _ _ _ _ _ _ _ _ _ _ _ Hnested Hrun)
      as (_ & Hdomain & _ & Hentries & Hframe).
    apply published_flow_is_listed; try done.
    rewrite <- (app_nil_r (makeFlowDirectoryName _ _)). apply Hentries. by left.
Qed.

End MoreProperties.


(** *** Staging names, the constructor and opening *)

Lemma reads_only_ret {A : Type} (a : A) : reads_only (ret a).
Proof. done. Qed.

Lemma reads_only_throw {A : Type} (e : exception) : reads_only (throw (A := A) e).
Proof. done. Qed.

Lemma reads_only_query {A : Type} (f : FS -> A) : reads_only (query f).
Proof. done. Qed.

Lemma reads_only_bind {A B : Type} (m : M A) (k : A -> M B) :
  reads_only m -> (forall a, reads_only (k a)) -> reads_only (bind m k).
Proof.
  intros Hm Hk fs. unfold bind. specialize (Hm fs).
  destruct (m fs) as [[a|e] fs1]; simpl in *; subst; [apply Hk | done].
Qed.

Lemma reads_only_try_catch_all {A : Type} (body : M A) (handler : exception -> M A) :
  reads_only body -> (forall e, reads_only (handler e)) ->
  reads_only (try_catch_all body handler).
Proof.
  intros Hm Hk fs. unfold try_catch_all. specialize (Hm fs).
  destruct (body fs) as [[a|e] fs1]; simpl in *; subst; [done | apply Hk].
Qed.

Lemma reads_only_try_catch_std {A : Type} (body : M A) (handler : exception -> M A) :
  reads_only body -> (forall e, reads_only (handler e)) ->
  reads_only (try_catch_std body handler).
Proof.
  intros Hm Hk fs. unfold try_catch_std. specialize (Hm fs).
  destruct (body fs) as [[a|e] fs1]; simpl in *; subst; [done|].
  destruct (is_std_exception e); [apply Hk | done].
Qed.

Lemma reads_only_open_segment {A : Type} (mapped : exception + A) (p : path) :
  reads_only (open_segment mapped p).
Proof.
  intros fs. unfold open_segment. destruct mapped; [done|]. by destruct (_ && _).
Qed.

Section Opening.

Context {uuid : Type} `{UuidLibrary uuid}.

Lemma reads_only_openGrains (s : Segments uuid) (grainDir : path) (i n : nat) :
  reads_only (openGrains s grainDir i n).
Proof.
  revert i. induction n as [|n IH]; intros i; cbn [openGrains];
    [apply reads_only_ret|].
  apply reads_only_bind.
  - apply reads_only_try_catch_all; [apply reads_only_open_segment|].
    intros e. destruct (is_std_exception e); apply reads_only_throw.
  - intros grain. apply reads_only_bind; [apply IH|].
    intros rest. apply reads_only_ret.
Qed.

Lemma reads_only_openDiscreteFlow (s : Segments uuid) (flowDir : path)
    (flow : FlowInfo uuid) :
  reads_only (openDiscreteFlow s flowDir flow).
Proof.
  unfold openDiscreteFlow. destruct (0 <? _); [|apply reads_only_ret].
  apply reads_only_bind; [apply reads_only_query|]. intros present.
  apply reads_only_bind; [apply reads_only_query|]. intros isdir.
  destruct (present && isdir); [|apply reads_only_throw].
  apply reads_only_bind; [apply reads_only_openGrains|].
  intros grains. apply reads_only_ret.
Qed.

Lemma reads_only_openContinuousFlow (s : Segments uuid) (flowDir : path)
    (flow : FlowInfo uuid) :
  reads_only (openContinuousFlow s flowDir flow).
Proof.
  unfold openContinuousFlow.
  apply reads_only_bind; [apply reads_only_query|]. intros present.
  destruct (negb present); [apply reads_only_throw|].
  apply reads_only_bind.
  - apply reads_only_try_catch_std; [apply reads_only_open_segment|].
    intros e. apply reads_only_throw.
  - intros size. apply reads_only_ret.
Qed.

Lemma reads_only_openFlow (s : Segments uuid) (domain : path) (flowId : uuid)
    (mode : AccessMode) :
  reads_only (openFlow s domain flowId mode).
Proof.
  assert (Hopen : reads_only
    (let* present :=
       query (fun fs => exists_ fs
                (makeFlowDataFilePath
                   (makeFlowDirectoryName domain (to_string flowId)))) in
     if present
     then
       let* flowSegment :=
         try_catch_std
           (open_segment (flow_segment s)
              (makeFlowDataFilePath
                 (makeFlowDirectoryName domain (to_string flowId))))
           (fun e =>
              throw (filesystem_error "FlowManager: Failed to open flow data segment"
                       (makeFlowDataFilePath
                          (makeFlowDirectoryName domain (to_string flowId)))
                       io_error)) in
       match flowSegment with
       | None =>
           throw (runtime_error
             "FlowManager: Failed to access flow data: invalid shared memory segment")
       | Some flow =>
           if mxlIsDiscreteDataFormat (format (info_common flow))
           then
             try_catch_std
               (let* opened :=
                  openDiscreteFlow s
                    (makeFlowDirectoryName domain (to_string flowId)) flow in
                ret (Discrete opened))
               (fun e =>
                  throw (filesystem_error "FlowManager: Failed to open discrete flow"
                           (makeFlowDirectoryName domain (to_string flowId))
                           io_error))
           else if mxlIsContinuousDataFormat (format (info_common flow))
           then
             try_catch_std
               (let* opened :=
                  openContinuousFlow s
                    (makeFlowDirectoryName domain (to_string flowId)) flow in
                ret (Continuous opened))
               (fun e =>
                  throw (runtime_error
                    ("FlowManager: Failed to open continuous flow: " +:+ what e)))
           else
             throw (runtime_error
               "FlowManager: Attempt to open flow with unsupported data format.")
       end
     else throw (filesystem_error "FlowManager: Flow file not found"
                   (makeFlowDataFilePath
                      (makeFlowDirectoryName domain (to_string flowId)))
                   no_such_file_or_directory))).
  { apply reads_only_bind; [apply reads_only_query|]. intros present.
    destruct present; [|apply reads_only_throw].
    apply reads_only_bind.
    - apply reads_only_try_catch_std; [apply reads_only_open_segment|].
      intros e. apply reads_only_throw.
    - intros [flow|]; [|apply reads_only_throw].
      destruct (mxlIsDiscreteDataFormat _).
      + apply reads_only_try_catch_std; [|intros e; apply reads_only_throw].
        apply reads_only_bind; [apply reads_only_openDiscreteFlow|].
        intros opened. apply reads_only_ret.
      + destruct (mxlIsContinuousDataFormat _); [|apply reads_only_throw].
        apply reads_only_try_catch_std; [|intros e; apply reads_only_throw].
        apply reads_only_bind; [apply reads_only_openContinuousFlow|].
        intros opened. apply reads_only_ret. }
  destruct mode; [exact Hopen | exact Hopen | apply reads_only_throw].
Qed.

(** A run that does not change the file system is its outcome and the
    file system. *)
Lemma reads_only_run {A : Type} (m : M A) (fs : FS) :
  reads_only m -> m fs = ((m fs).1, fs).
Proof. intros Hm. specialize (Hm fs). destruct (m fs). simpl in *. by subst. Qed.

(** What [openGrains] does when every grain file of the range is there and
    maps, and when one is not. *)
Lemma openGrains_returned (s : Segments uuid) (grainDir : path) (i n : nat)
    (fs : FS) (grain : nat -> GrainInfo) :
  (forall k, i <= k < i + n ->
     grain_segment s k = inr (grain k)
     /\ fs !! makeGrainDataFilePath grainDir k = Some SharedMemory) ->
  openGrains s grainDir i n fs = (Returned (grain <$> seq i n), fs).
Proof.
  revert i. induction n as [|n IH]; intros i Hall; cbn [openGrains]; [done|].
  destruct (Hall i) as [Hmapped Hfile]; [lia|].
  unfold bind at 1, try_catch_all, open_segment, exists_, is_directory.
  rewrite Hmapped, Hfile.
  rewrite (bool_decide_eq_true_2 (is_Some (Some SharedMemory))) by (by eexists).
  rewrite (bool_decide_eq_false_2 (Some SharedMemory = Some Directory)) by done.
  cbn [andb negb]. unfold bind. rewrite IH; [done|].
  intros k Hk. apply Hall. lia.
Qed.

Lemma openGrains_outcome (s : Segments uuid) (grainDir : path) (i n : nat)
    (fs : FS) :
  (exists grains, (openGrains s grainDir i n fs).1 = Returned grains
                  /\ length grains = n)
  \/ (exists message k, (openGrains s grainDir i n fs).1
                        = Thrown (filesystem_error message
                                    (makeGrainDataFilePath grainDir k) io_error)).
Proof.
  revert i. induction n as [|n IH]; intros i; cbn [openGrains].
  { left. by exists []. }
  unfold bind, try_catch_all.
  pose proof (reads_only_open_segment (grain_segment s i)
                (makeGrainDataFilePath grainDir i) fs) as Hsame.
  destruct (open_segment (grain_segment s i) (makeGrainDataFilePath grainDir i) fs)
    as [[grain|e] fs1]; simpl in Hsame; subst fs1.
  - destruct (IH (S i)) as [(grains & Hrun & Hlen) | (message & k & Hrun)].
    + left. exists (grain :: grains).
      destruct (openGrains s grainDir (S i) n fs) as [[l|e] fs2]; simpl in *;
        [|done].
      injection Hrun as ->. by rewrite <- Hlen.
    + right. exists message, k.
      destruct (openGrains s grainDir (S i) n fs) as [[l|e] fs2]; simpl in *; done.
  - right. destruct (is_std_exception e); by eexists _, i.
Qed.

(** X16. The directory [createTemporaryFlowDirectory] returns is a
    directory directly in the domain whose name does not have the extension
    [.mxl-flow]: the loop of [listFlows] skips it, so a flow under
    construction is never listed. *)
Theorem staging_directories_are_skipped (w : World) (base tmp : path)
    (fs fs1 : FS) :
  createTemporaryFlowDirectory w base fs = (Returned tmp, fs1) ->
  exists name,
    tmp = base // name
    /\ fs1 !! tmp = Some Directory
    /\ extension name <> FLOW_DIRECTORY_NAME_SUFFIX
    /\ forall flowIds : list uuid, listFlows_step flowIds (name, Directory) = flowIds.
Proof.
  intros Hrun.
  destruct (createTemporaryFlowDirectory_returned _ _ _ _ _ Hrun)
    as (six & Hsix & -> & _ & _ & ->).
  exists (".mxl-tmp-XXXXXXXXXX" +:+ six).
  assert (Hext : extension (".mxl-tmp-XXXXXXXXXX" +:+ six)
                 <> FLOW_DIRECTORY_NAME_SUFFIX).
  { intros Hext. apply flow_directory_of_extension in Hext as [_ Hname].
    by apply (staging_name_is_no_flow_name six
                (stem (".mxl-tmp-XXXXXXXXXX" +:+ six)) Hsix). }
  split; [done|]. split; [apply lookup_insert_eq|]. split; [exact Hext|].
  intros flowIds. unfold listFlows_step. cbn [fst snd].
  by rewrite (bool_decide_eq_false_2 _ Hext), andb_false_r.
Qed.


(** X18. [openFlow] with mode [CREATE_READ_WRITE] throws
    [invalid_argument] whatever the file system holds; with another mode and
    no [data] file in the flow directory it throws the [filesystem_error]
    "FlowManager: Flow file not found" for that file with code
    [no_such_file_or_directory]; it never changes the file system; and after
    [deleteFlow] has returned [true] for a UUID, opening that flow throws
    the "Flow file not found" error. *)
Theorem openFlow_rejections (s : Segments uuid) (domain : path) (flowId : uuid) :
  let flowDir := makeFlowDirectoryName domain (to_string flowId) in
  let flowFile := makeFlowDataFilePath flowDir in
  (forall fs,
     openFlow s domain flowId CREATE_READ_WRITE fs
     = (Thrown (invalid_argument
                  "FlowManager: Attempt to open flow with invalid access mode."), fs))
  /\ (forall mode fs,
        mode <> CREATE_READ_WRITE -> fs !! flowFile = None ->
        openFlow s domain flowId mode fs
        = (Thrown (filesystem_error "FlowManager: Flow file not found" flowFile
                     no_such_file_or_directory), fs))
  /\ (forall mode fs, (openFlow s domain flowId mode fs).2 = fs)
  /\ (forall w mode fs fs',
        mode <> CREATE_READ_WRITE ->
        deleteFlow w domain flowId fs = (Returned true, fs') ->
        openFlow s domain flowId mode fs'
        = (Thrown (filesystem_error "FlowManager: Flow file not found" flowFile
                     no_such_file_or_directory), fs')).
Proof.
  intros flowDir flowFile.
  assert (Hmissing : forall mode fs,
            mode <> CREATE_READ_WRITE -> fs !! flowFile = None ->
            openFlow s domain flowId mode fs
            = (Thrown (filesystem_error "FlowManager: Flow file not found" flowFile
                         no_such_file_or_directory), fs)).
  { intros mode fs Hmode Hnone.
    assert (Hexists : exists_ fs flowFile = false).
    { unfold exists_. apply bool_decide_eq_false_2. rewrite Hnone. by intros [? ?]. }
    destruct mode; [| |done]; unfold openFlow, bind, query; fold flowDir flowFile;
      by rewrite Hexists. }
  split; [done|]. split; [exact Hmissing|].
  split; [intros mode; apply reads_only_openFlow|].
  intros w mode fs fs' Hmode Hdeleted. apply Hmissing; [done|].
  rewrite deleteFlow_cases in Hdeleted. cbv zeta in Hdeleted.
  fold flowDir in Hdeleted.
  destruct (remove_all_fails w); [done|].
  destruct (fs !! flowDir); [|done]. injection Hdeleted as <-.
  apply lookup_without_below, below_append, below_refl.
Qed.

(** What [openDiscreteFlow] returns or throws. *)
Lemma openDiscreteFlow_outcome (s : Segments uuid) (flowDir : path)
    (flow : FlowInfo uuid) (fs : FS) :
  (exists grains,
     (openDiscreteFlow s flowDir flow fs).1
     = Returned (mkDiscreteFlowData (info_version flow) (info_common flow)
                   (info_grainRate flow) (info_grainCount flow)
                   (info_syncCounter flow) grains)
     /\ length grains = info_grainCount flow)
  \/ (exists message p code,
        (openDiscreteFlow s flowDir flow fs).1
        = Thrown (filesystem_error message p code)
        /\ (0 < info_grainCount flow))
  .
Proof.
  unfold openDiscreteFlow, bind, query.
  destruct (Nat.ltb_spec 0 (info_grainCount flow)) as [Hpos | Hzero].
  2:{ left. exists []. split; [done|]. simpl. lia. }
  destruct (exists_ fs (makeGrainDirectoryName flowDir)
            && is_directory fs (makeGrainDirectoryName flowDir)).
  - destruct (openGrains_outcome s (makeGrainDirectoryName flowDir) 0
                (info_grainCount flow) fs)
      as [(grains & Hgrains & Hlen) | (message & k & Hgrains)];
      destruct (openGrains s (makeGrainDirectoryName flowDir) 0
                  (info_grainCount flow) fs) as [[l|e] fs1];
      simpl in Hgrains; try done.
    + injection Hgrains as ->. left. by exists grains.
    + injection Hgrains as ->. right. by eexists _, _, _.
  - right. by eexists _, _, _.
Qed.

Lemma openDiscreteFlow_without_grains (s : Segments uuid) (flowDir : path)
    (flow : FlowInfo uuid) (fs : FS) :
  0 < info_grainCount flow ->
  fs !! makeGrainDirectoryName flowDir <> Some Directory ->
  (openDiscreteFlow s flowDir flow fs).1
  = Thrown (filesystem_error "FlowManager: Grain directory not found."
              (makeGrainDirectoryName flowDir) no_such_file_or_directory).
Proof.
  intros Hpos Hnot. unfold openDiscreteFlow, bind, query.
  destruct (Nat.ltb_spec 0 (info_grainCount flow)); [|lia].
  unfold is_directory.
  rewrite (bool_decide_eq_false_2 (fs !! makeGrainDirectoryName flowDir
                                   = Some Directory)) by done.
  by rewrite andb_false_r.
Qed.

(** How [openFlow] passes on what [openDiscreteFlow] does. *)
Lemma openFlow_of_discrete_flow (s : Segments uuid) (domain : path)
    (flowId : uuid) (mode : AccessMode) (fs : FS) (flow : FlowInfo uuid) :
  let flowDir := makeFlowDirectoryName domain (to_string flowId) in
  mode <> CREATE_READ_WRITE ->
  fs !! makeFlowDataFilePath flowDir = Some SharedMemory ->
  flow_segment s = inr (Some flow) ->
  mxlIsDiscreteDataFormat (format (info_common flow)) = true ->
  openFlow s domain flowId mode fs
  = (match (openDiscreteFlow s flowDir flow fs).1 with
     | Returned opened => Returned (Discrete opened)
     | Thrown e =>
         if is_std_exception e
         then Thrown (filesystem_error "FlowManager: Failed to open discrete flow"
                        flowDir io_error)
         else Thrown e
     end, fs).
Proof.
  intros flowDir Hmode Hfile Hmapped Hdiscrete.
  rewrite (reads_only_run _ fs (reads_only_openFlow s domain flowId mode)).
  f_equal.
  pose proof (reads_only_openDiscreteFlow s flowDir flow fs) as Hsame.
  destruct mode; [| |done];
    unfold openFlow, bind at 1, query, exists_; fold flowDir;
    rewrite Hfile;
    rewrite (bool_decide_eq_true_2 (is_Some (Some SharedMemory))) by (by eexists);
    unfold bind at 1, try_catch_std at 1, open_segment, exists_, is_directory;
    rewrite Hmapped, Hfile;
    rewrite (bool_decide_eq_true_2 (is_Some (Some SharedMemory))) by (by eexists);
    rewrite (bool_decide_eq_false_2 (Some SharedMemory = Some Directory)) by done;
    cbn [andb negb]; rewrite Hdiscrete;
    unfold try_catch_std, bind;
    destruct (openDiscreteFlow s flowDir flow fs) as [[opened|e] fs1];
    simpl in *; subst; [done | by destruct (is_std_exception e)
                      | done | by destruct (is_std_exception e)].
Qed.

(** X19. When the [data] file of a flow maps to a header with a discrete
    format and a grain count below [2 ^ 32], [openFlow] in an open mode
    either returns a discrete handle with the header's common part and grain
    count and one grain per grain of that count, or throws the
    [filesystem_error] "FlowManager: Failed to open discrete flow" for the
    flow directory with code [io_error]: every error of
    [openDiscreteFlow] is reported as that one.  It is thrown in particular
    when the grain count is positive and [grains] is no directory. *)
Theorem discrete_flow_opens_or_reports_io_error (s : Segments uuid)
    (domain : path) (flowId : uuid) (mode : AccessMode) (fs : FS)
    (flow : FlowInfo uuid) :
  let flowDir := makeFlowDirectoryName domain (to_string flowId) in
  mode <> CREATE_READ_WRITE ->
  fs !! makeFlowDataFilePath flowDir = Some SharedMemory ->
  flow_segment s = inr (Some flow) ->
  mxlIsDiscreteDataFormat (format (info_common flow)) = true ->
  (Z.of_nat (info_grainCount flow) < 2 ^ 32)%Z ->
  ((exists opened,
      openFlow s domain flowId mode fs = (Returned (Discrete opened), fs)
      /\ grainCount opened = info_grainCount flow
      /\ length (grains opened) = info_grainCount flow
      /\ discrete_common opened = info_common flow)
   \/ openFlow s domain flowId mode fs
      = (Thrown (filesystem_error "FlowManager: Failed to open discrete flow"
                   flowDir io_error), fs))
  /\ (0 < info_grainCount flow ->
      fs !! makeGrainDirectoryName flowDir <> Some Directory ->
      openFlow s domain flowId mode fs
      = (Thrown (filesystem_error "FlowManager: Failed to open discrete flow"
                   flowDir io_error), fs)).
Proof.
  intros flowDir Hmode Hfile Hmapped Hdiscrete Hcount.
  rewrite (openFlow_of_discrete_flow s domain flowId mode fs flow Hmode Hfile
             Hmapped Hdiscrete).
  fold flowDir. split.
  - destruct (openDiscreteFlow_outcome s flowDir flow fs)
      as [(grains & -> & Hlen) | (message & p & code & -> & _)].
    + left. eexists. split; [reflexivity|]. done.
    + by right.
  - intros Hpos Hnot.
    by rewrite (openDiscreteFlow_without_grains s flowDir flow fs Hpos Hnot).
Qed.

(** X20. After [createDiscreteFlow] has returned for a grain count below
    [2 ^ 32]: when the [data] segment maps to a discrete header with that
    grain count and each grain file maps, [openFlow] in an open mode returns
    the discrete handle made of that header and of the grain headers in
    index order, and leaves the file system as it is. *)
Theorem created_discrete_flow_opens (w : World) (s : Segments uuid)
    (domain : path) (flowId : uuid) (flowDef : string) (flowFormat : mxlDataFormat)
    (count : nat) (grainRate : Time.Rational) (grainPayloadSize : nat)
    (fs fs' : FS) (flowData : DiscreteFlowData uuid) (mode : AccessMode)
    (flow : FlowInfo uuid) (grain : nat -> GrainInfo) :
  nested domain fs ->
  createDiscreteFlow w domain flowId flowDef flowFormat count grainRate
    grainPayloadSize fs = (Returned flowData, fs') ->
  mode <> CREATE_READ_WRITE ->
  flow_segment s = inr (Some flow) ->
  mxlIsDiscreteDataFormat (format (info_common flow)) = true ->
  info_grainCount flow = count ->
  (Z.of_nat count < 2 ^ 32)%Z ->
  (forall i, i < count -> grain_segment s i = inr (grain i)) ->
  openFlow s domain flowId mode fs'
  = (Returned (Discrete
       (mkDiscreteFlowData (info_version flow) (info_common flow)
          (info_grainRate flow) count (info_syncCounter flow)
          (grain <$> seq 0 count))), fs').
Proof.
  intros Hnested Hrun Hmode Hmapped Hdiscrete Hcount Hsmall Hgrains.
  destruct (createDiscreteFlow_returned _ _ _ _ _ _ _ _ _ _ _ Hnested Hrun)
    as (_ & _ & _ & Hentries & _).
  set (flowDir := makeFlowDirectoryName domain (to_string flowId)) in *.
  assert (Hfile : fs' !! makeFlowDataFilePath flowDir = Some SharedMemory).
  { apply (Hentries (makeFlowDataFilePath [])). do 3 right. by left. }
  assert (Hdir : fs' !! makeGrainDirectoryName flowDir = Some Directory).
  { apply (Hentries (makeGrainDirectoryName [])). do 4 right. by left. }
  rewrite (openFlow_of_discrete_flow s domain flowId mode fs' flow Hmode Hfile
             Hmapped Hdiscrete).
  fold flowDir. f_equal.
  unfold openDiscreteFlow. rewrite Hcount.
  destruct (Nat.ltb_spec 0 count) as [Hpos | Hzero].
  2:{ by replace count with 0 by lia. }
  unfold bind, query, exists_, is_directory. rewrite Hdir.
  rewrite (bool_decide_eq_true_2 (is_Some (Some Directory))) by (by eexists).
  rewrite (bool_decide_eq_true_2 (Some Directory = Some Directory)) by done.
  cbn [andb].
  rewrite (openGrains_returned s (makeGrainDirectoryName flowDir) 0 count fs' grain);
    [done|].
  intros k Hk. split; [apply Hgrains; lia|].
  unfold makeGrainDataFilePath. rewrite grain_directory_child.
  apply Hentries. do 5 right. exists k. split; [lia | done].
Qed.

(** What [openContinuousFlow] returns or throws. *)
Lemma openContinuousFlow_outcome (s : Segments uuid) (flowDir : path)
    (flow : FlowInfo uuid) (fs : FS) :
  (exists sampleWordSize,
     (openContinuousFlow s flowDir flow fs).1
     = Returned (mkContinuousFlowData (info_version flow) (info_common flow)
                   (info_sampleRate flow) (info_channelCount flow)
                   (info_bufferLength flow) sampleWordSize)
     /\ channel_buffers s = inr sampleWordSize
     /\ is_Some (fs !! makeChannelDataFilePath flowDir))
  \/ (exists e, (openContinuousFlow s flowDir flow fs).1 = Thrown e
                /\ is_std_exception e = true)
  \/ ((openContinuousFlow s flowDir flow fs).1 = Thrown foreign_exception
      /\ channel_buffers s = inl foreign_exception).
Proof.
  unfold openContinuousFlow, bind, query, try_catch_std, open_segment.
  destruct (exists_ fs (makeChannelDataFilePath flowDir)) eqn:Hexists;
    cbn [negb]; [|right; left; by eexists].
  destruct (channel_buffers s) as [e|size].
  - destruct e; cbn [is_std_exception]; try (right; left; by eexists).
    by right; right.
  - rewrite ?Hexists.
    destruct (is_directory fs (makeChannelDataFilePath flowDir));
      cbn [andb negb]; [right; left; eexists; split; reflexivity|].
    left. exists size. split; [done|]. split; [done|].
    unfold exists_ in Hexists. by apply bool_decide_eq_true_1 in Hexists.
Qed.

Lemma openContinuousFlow_without_channels (s : Segments uuid) (flowDir : path)
    (flow : FlowInfo uuid) (fs : FS) :
  fs !! makeChannelDataFilePath flowDir = None ->
  (openContinuousFlow s flowDir flow fs).1
  = Thrown (filesystem_error "FlowManager: Channel buffer file not found."
              (makeChannelDataFilePath flowDir) no_such_file_or_directory).
Proof.
  intros Hnone. unfold openContinuousFlow, bind, query, exists_.
  rewrite Hnone. rewrite bool_decide_eq_false_2; [done | by intros [? ?]].
Qed.

(** How [openFlow] passes on what [openContinuousFlow] does. *)
Lemma openFlow_of_continuous_flow (s : Segments uuid) (domain : path)
    (flowId : uuid) (mode : AccessMode) (fs : FS) (flow : FlowInfo uuid) :
  let flowDir := makeFlowDirectoryName domain (to_string flowId) in
  mode <> CREATE_READ_WRITE ->
  fs !! makeFlowDataFilePath flowDir = Some SharedMemory ->
  flow_segment s = inr (Some flow) ->
  mxlIsContinuousDataFormat (format (info_common flow)) = true ->
  openFlow s domain flowId mode fs
  = (match (openContinuousFlow s flowDir flow fs).1 with
     | Returned opened => Returned (Continuous opened)
     | Thrown e =>
         if is_std_exception e
         then Thrown (runtime_error
                        ("FlowManager: Failed to open continuous flow: " +:+ what e))
         else Thrown e
     end, fs).
Proof.
  intros flowDir Hmode Hfile Hmapped Hcontinuous.
  assert (Hdiscrete : mxlIsDiscreteDataFormat (format (info_common flow)) = false)
    by (by destruct (format (info_common flow))).
  rewrite (reads_only_run _ fs (reads_only_openFlow s domain flowId mode)).
  f_equal.
  pose proof (reads_only_openContinuousFlow s flowDir flow fs) as Hsame.
  destruct mode; [| |done];
    unfold openFlow, bind at 1, query, exists_; fold flowDir;
    rewrite Hfile;
    rewrite (bool_decide_eq_true_2 (is_Some (Some SharedMemory))) by (by eexists);
    unfold bind at 1, try_catch_std at 1, open_segment, exists_, is_directory;
    rewrite Hmapped, Hfile;
    rewrite (bool_decide_eq_true_2 (is_Some (Some SharedMemory))) by (by eexists);
    rewrite (bool_decide_eq_false_2 (Some SharedMemory = Some Directory)) by done;
    cbn [andb negb]; rewrite Hdiscrete, Hcontinuous;
    unfold try_catch_std, bind;
    destruct (openContinuousFlow s flowDir flow fs) as [[opened|e] fs1];
    simpl in *; subst; [done | by destruct (is_std_exception e)
                      | done | by destruct (is_std_exception e)].
Qed.

(** X21. When the [data] file of a flow maps to a header with a
    continuous format, [openFlow] in an open mode returns a continuous handle
    with the header's common part and channel count and the sample word size
    of the mapped [channels] file, or throws a [runtime_error] whose message
    starts with "FlowManager: Failed to open continuous flow: ", or passes on
    an exception of [openChannelBuffers] that is no [std::exception].  When
    the [channels] file is missing, the message ends with the [what()] of the
    [filesystem_error] "FlowManager: Channel buffer file not found." *)
Theorem continuous_flow_opens_or_reports_runtime_error (s : Segments uuid)
    (domain : path) (flowId : uuid) (mode : AccessMode) (fs : FS)
    (flow : FlowInfo uuid) :
  let flowDir := makeFlowDirectoryName domain (to_string flowId) in
  mode <> CREATE_READ_WRITE ->
  fs !! makeFlowDataFilePath flowDir = Some SharedMemory ->
  flow_segment s = inr (Some flow) ->
  mxlIsContinuousDataFormat (format (info_common flow)) = true ->
  ((exists opened,
      openFlow s domain flowId mode fs = (Returned (Continuous opened), fs)
      /\ continuous_common opened = info_common flow
      /\ channelCount opened = info_channelCount flow
      /\ channel_buffers s = inr (sampleWordSize opened))
   \/ (exists message,
         openFlow s domain flowId mode fs
         = (Thrown (runtime_error
                      ("FlowManager: Failed to open continuous flow: " +:+ message)),
            fs))
   \/ (openFlow s domain flowId mode fs = (Thrown foreign_exception, fs)
       /\ channel_buffers s = inl foreign_exception))
  /\ (fs !! makeChannelDataFilePath flowDir = None ->
      openFlow s domain flowId mode fs
      = (Thrown (runtime_error
                   ("FlowManager: Failed to open continuous flow: "
                    +:+ what (filesystem_error
                                "FlowManager: Channel buffer file not found."
                                (makeChannelDataFilePath flowDir)
                                no_such_file_or_directory))), fs)).
Proof.
  intros flowDir Hmode Hfile Hmapped Hcontinuous.
  rewrite (openFlow_of_continuous_flow s domain flowId mode fs flow Hmode Hfile
             Hmapped Hcontinuous).
  fold flowDir. split.
  - destruct (openContinuousFlow_outcome s flowDir flow fs)
      as [(size & -> & Hsize & _) | [(e & -> & Hstd) | [-> Hforeign]]].
    + left. eexists. split; [reflexivity|]. done.
    + right. left. rewrite Hstd. by eexists.
    + right. right. done.
  - intros Hnone.
    by rewrite (openContinuousFlow_without_channels s flowDir flow fs Hnone).
Qed.

(** X22. After [createContinuousFlow] has returned: when the [data]
    segment maps to a continuous header and the [channels] file maps,
    [openFlow] in an open mode returns the continuous handle made of that
    header and of the mapped sample word size, and leaves the file system as
    it is. *)
Theorem created_continuous_flow_opens (w : World) (s : Segments uuid)
    (domain : path) (flowId : uuid) (flowDef : string) (flowFormat : mxlDataFormat)
    (sampleRate : Time.Rational) (channels wordSize bufferLength : nat)
    (fs fs' : FS) (flowData : ContinuousFlowData uuid) (mode : AccessMode)
    (flow : FlowInfo uuid) (mappedWordSize : nat) :
  nested domain fs ->
  createContinuousFlow w domain flowId flowDef flowFormat sampleRate channels
    wordSize bufferLength fs = (Returned flowData, fs') ->
  mode <> CREATE_READ_WRITE ->
  flow_segment s = inr (Some flow) ->
  mxlIsContinuousDataFormat (format (info_common flow)) = true ->
  channel_buffers s = inr mappedWordSize ->
  openFlow s domain flowId mode fs'
  = (Returned (Continuous
       (mkContinuousFlowData (info_version flow) (info_common flow)
          (info_sampleRate flow) (info_channelCount flow) (info_bufferLength flow)
          mappedWordSize)), fs').
Proof.
  intros Hnested Hrun Hmode Hmapped Hcontinuous Hbuffers.
  destruct (createContinuousFlow_returned _ _ _ _ _ _ _ _ _ _ _ _ Hnested Hrun)
    as (_ & _ & _ & Hentries & _).
  set (flowDir := makeFlowDirectoryName domain (to_string flowId)) in *.
  assert (Hfile : fs' !! makeFlowDataFilePath flowDir = Some SharedMemory).
  { apply (Hentries (makeFlowDataFilePath [])). do 2 right. by left. }
  assert (Hchannels : fs' !! makeChannelDataFilePath flowDir = Some SharedMemory).
  { apply (Hentries (makeChannelDataFilePath [])). by do 3 right. }
  rewrite (openFlow_of_continuous_flow s domain flowId mode fs' flow Hmode Hfile
             Hmapped Hcontinuous).
  fold flowDir. f_equal.
  unfold openContinuousFlow, bind, query, try_catch_std, open_segment, exists_,
    is_directory.
  rewrite Hchannels, Hbuffers.
  rewrite (bool_decide_eq_true_2 (is_Some (Some SharedMemory))) by (by eexists).
  cbn [negb]. rewrite Hchannels.
  rewrite (bool_decide_eq_true_2 (is_Some (Some SharedMemory))) by (by eexists).
  by rewrite (bool_decide_eq_false_2 (Some SharedMemory = Some Directory)).
Qed.

End Opening.

(** *** The further properties on the sample data *)



Lemma nested_domain_with_flow : nested sample_domain domain_with_flow.
Proof.
  assert (Hreturned :
    (createDiscreteFlow (H := text_uuid) calm_world sample_domain sample_id
       sample_descriptor MXL_DATA_FORMAT_VIDEO 2 sample_rate 1024 empty_domain).1
    = Returned sample_flow_data) by (vm_compute; reflexivity).
  apply run_of_outcome in Hreturned.
  destruct (createDiscreteFlow_returned (H := text_uuid) _ _ _ _ _ _ _ _ _ _ _
              (nested_singleton sample_domain) Hreturned)
    as (_ & Hdomain & _ & Hentries & Hframe).
  eapply nested_published; [apply nested_singleton | exact Hdomain | exact Hentries
                           | exact Hframe | apply discrete_entry_parent].
Qed.

Lemma occupied_flow_directory_is_kept_witness :
  (exists e,
     createDiscreteFlow (H := text_uuid) calm_world sample_domain sample_id
       sample_descriptor MXL_DATA_FORMAT_VIDEO 5 sample_rate 1024 domain_with_flow
     = (Thrown e, domain_with_flow))
  /\ (exists e,
        createContinuousFlow (H := text_uuid) calm_world sample_domain sample_id
          sample_descriptor MXL_DATA_FORMAT_AUDIO (Time.mkRational 48000 1) 8 4 4096
          domain_with_flow
        = (Thrown e, domain_with_flow)).
Proof.
  assert (Hdata : is_Some (domain_with_flow
            !! (makeFlowDirectoryName sample_domain
                  (to_string (UuidLibrary := text_uuid) sample_id) // "data"))).
  { exists SharedMemory. vm_compute. reflexivity. }
  pose proof (occupied_flow_directory_is_kept (H := text_uuid) calm_world
                sample_domain sample_id sample_descriptor MXL_DATA_FORMAT_VIDEO
                domain_with_flow "data" nested_domain_with_flow Hdata)
    as [Hdiscrete _].
  pose proof (occupied_flow_directory_is_kept (H := text_uuid) calm_world
                sample_domain sample_id sample_descriptor MXL_DATA_FORMAT_AUDIO
                domain_with_flow "data" nested_domain_with_flow Hdata)
    as [_ Hcontinuous].
  split.
  - destruct (Hdiscrete 5 sample_rate 1024) as (e & fs' & Hrun & _ & Hsame).
    exists e. rewrite Hrun. f_equal. by apply Hsame.
  - destruct (Hcontinuous (Time.mkRational 48000 1) 8 4 4096)
      as (e & fs' & Hrun & _ & Hsame).
    exists e. rewrite Hrun. f_equal. by apply Hsame.
Defined.

Lemma deleteFlow_removes_the_flow_directory_witness :
  let run :=
    deleteFlow (H := text_uuid) calm_world sample_domain sample_id domain_with_flow in
  run.1 = Returned true
  /\ run.2 !! (sample_domain // "5fbec3b1-1b0f-417d-9059-8b94a47197ed.mxl-flow"
                 // "descriptor.json") = None
  /\ run.2 !! sample_domain = domain_with_flow !! sample_domain
  /\ deleteFlow (H := text_uuid) world_without_removal sample_domain sample_id run.2
     = (Returned false, run.2).
Proof.
  intros run.
  assert (Hreturned : run.1 = Returned true) by (vm_compute; reflexivity).
  split; [exact Hreturned|].
  destruct (deleteFlow_removes_the_flow_directory (H := text_uuid) calm_world
              sample_domain sample_id domain_with_flow run.2
              (run_of_outcome run _ Hreturned))
    as (Hgone & Hkept & Hagain).
  split; [apply Hgone, below_append, below_refl|].
  split; [apply Hkept, not_below_parent | apply Hagain].
Defined.

Lemma created_flow_deleted_through_its_handle_witness :
  let run :=
    createDiscreteFlow (H := text_uuid) calm_world sample_domain sample_id
      sample_descriptor MXL_DATA_FORMAT_VIDEO 2 sample_rate 1024 empty_domain in
  run.1 = Returned sample_flow_data
  /\ deleteFlowData (H := text_uuid) calm_world sample_domain
       (Some (Discrete sample_flow_data)) run.2
     = (Returned true, empty_domain).
Proof.
  intros run.
  assert (Hreturned : run.1 = Returned sample_flow_data)
    by (vm_compute; reflexivity).
  assert (Habsent :
    empty_domain !! makeFlowDirectoryName sample_domain
                      (to_string (UuidLibrary := text_uuid) sample_id) = None)
    by (vm_compute; reflexivity).
  split; [exact Hreturned|].
  exact (proj1 (created_flow_deleted_through_its_handle (H := text_uuid) calm_world
                  calm_world sample_domain sample_id sample_descriptor
                  MXL_DATA_FORMAT_VIDEO empty_domain run.2
                  (nested_singleton sample_domain) Habsent eq_refl)
           2 sample_rate 1024 sample_flow_data (run_of_outcome run _ Hreturned)).
Defined.

Lemma created_flow_is_listed_witness :
  let run :=
    createDiscreteFlow (H := text_uuid) calm_world sample_domain sample_id
      sample_descriptor MXL_DATA_FORMAT_VIDEO 2 sample_rate 1024 empty_domain in
  run.1 = Returned sample_flow_data
  /\ exists flowIds : list string,
       listFlows (H := text_uuid) calm_world sample_domain run.2
       = (Returned flowIds, run.2)
       /\ sample_id ∈ flowIds.
Proof.
  intros run.
  assert (Hreturned : run.1 = Returned sample_flow_data)
    by (vm_compute; reflexivity).
  assert (Hparse :
    from_string (UuidLibrary := text_uuid) (to_string (UuidLibrary := text_uuid) sample_id)
    = Some sample_id) by (vm_compute; reflexivity).
  assert (Hne : to_string (UuidLibrary := text_uuid) sample_id <> "")
    by (vm_compute; discriminate).
  split; [exact Hreturned|].
  destruct (proj1 (created_flow_is_listed (H := text_uuid) calm_world calm_world
                     sample_domain sample_id sample_descriptor MXL_DATA_FORMAT_VIDEO
                     empty_domain run.2 (nested_singleton sample_domain) Hparse
                     Hne eq_refl)
              2 sample_rate 1024 sample_flow_data (run_of_outcome run _ Hreturned))
    as (flowIds & Hlist & Hin & _).
  exists flowIds. split; [exact Hlist | exact Hin].
Defined.

Lemma staging_directories_are_skipped_witness :
  let run := createTemporaryFlowDirectory calm_world sample_domain empty_domain in
  let tmp := sample_domain // ".mxl-tmp-XXXXXXXXXXa1B2c3" in
  run.1 = Returned tmp
  /\ exists name,
       tmp = sample_domain // name
       /\ run.2 !! tmp = Some Directory
       /\ listFlows_step (H := text_uuid) [sample_id] (name, Directory) = [sample_id].
Proof.
  intros run tmp.
  assert (Hreturned : run.1 = Returned tmp) by (vm_compute; reflexivity).
  split; [exact Hreturned|].
  destruct (staging_directories_are_skipped (H := text_uuid) calm_world sample_domain
              tmp empty_domain run.2 (run_of_outcome run _ Hreturned))
    as (name & Hname & Hdir & _ & Hskipped).
  exists name. split; [exact Hname|]. split; [exact Hdir | apply Hskipped].
Defined.

Lemma discrete_flow_opens_or_reports_io_error_witness :
  let flowDir := sample_domain // "5fbec3b1-1b0f-417d-9059-8b94a47197ed.mxl-flow" in
  let without_grains := delete (flowDir // "grains") domain_with_flow in
  openFlow (H := text_uuid) sample_segments sample_domain sample_id OPEN_READ_ONLY
    without_grains
  = (Thrown (filesystem_error "FlowManager: Failed to open discrete flow" flowDir
               io_error), without_grains).
Proof.
  intros flowDir without_grains.
  assert (Hfile : without_grains
                  !! makeFlowDataFilePath
                       (makeFlowDirectoryName sample_domain
                          (to_string (UuidLibrary := text_uuid) sample_id))
                  = Some SharedMemory) by (vm_compute; reflexivity).
  assert (Hgrains : without_grains
                    !! makeGrainDirectoryName
                         (makeFlowDirectoryName sample_domain
                            (to_string (UuidLibrary := text_uuid) sample_id))
                    = None) by (vm_compute; reflexivity).
  assert (Hmode : OPEN_READ_ONLY <> CREATE_READ_WRITE) by discriminate.
  assert (Hsmall : (Z.of_nat (info_grainCount sample_flow_info) < 2 ^ 32)%Z)
    by (vm_compute; reflexivity).
  assert (Hpos : 0 < info_grainCount sample_flow_info) by (simpl; lia).
  apply (proj2 (discrete_flow_opens_or_reports_io_error (H := text_uuid)
                  sample_segments sample_domain sample_id OPEN_READ_ONLY
                  without_grains sample_flow_info Hmode Hfile eq_refl eq_refl
                  Hsmall) Hpos).
  rewrite Hgrains. discriminate.
Defined.

Lemma created_discrete_flow_opens_witness :
  let run :=
    createDiscreteFlow (H := text_uuid) calm_world sample_domain sample_id
      sample_descriptor MXL_DATA_FORMAT_VIDEO 2 sample_rate 1024 empty_domain in
  run.1 = Returned sample_flow_data
  /\ openFlow (H := text_uuid) sample_segments sample_domain sample_id
       OPEN_READ_WRITE run.2
     = (Returned (Discrete sample_flow_data), run.2).
Proof.
  intros run.
  assert (Hreturned : run.1 = Returned sample_flow_data)
    by (vm_compute; reflexivity).
  assert (Hmode : OPEN_READ_WRITE <> CREATE_READ_WRITE) by discriminate.
  assert (Hsmall : (Z.of_nat 2 < 2 ^ 32)%Z) by (vm_compute; reflexivity).
  split; [exact Hreturned|].
  exact (created_discrete_flow_opens (H := text_uuid) calm_world sample_segments
           sample_domain sample_id sample_descriptor MXL_DATA_FORMAT_VIDEO 2
           sample_rate 1024 empty_domain run.2 sample_flow_data OPEN_READ_WRITE
           sample_flow_info (fun _ => mkGrainInfo 1024 1 (-1))
           (nested_singleton sample_domain) (run_of_outcome run _ Hreturned)
           Hmode eq_refl eq_refl eq_refl Hsmall (fun i _ => eq_refl)).
Defined.

Lemma continuous_flow_opens_or_reports_runtime_error_witness :
  let flowDir := sample_domain // "b3bb5be7-9fe9-4324-a5bb-4c70e1084449.mxl-flow" in
  let without_channels := delete (flowDir // "channels") domain_with_audio_flow in
  openFlow (H := text_uuid) sample_audio_segments sample_domain sample_audio_id
    OPEN_READ_ONLY without_channels
  = (Thrown (runtime_error
               ("FlowManager: Failed to open continuous flow: "
                +:+ what (filesystem_error
                            "FlowManager: Channel buffer file not found."
                            (flowDir // "channels") no_such_file_or_directory))),
     without_channels).
Proof.
  intros flowDir without_channels.
  assert (Hfile : without_channels
                  !! makeFlowDataFilePath
                       (makeFlowDirectoryName sample_domain
                          (to_string (UuidLibrary := text_uuid) sample_audio_id))
                  = Some SharedMemory) by (vm_compute; reflexivity).
  assert (Hchannels : without_channels
                      !! makeChannelDataFilePath
                           (makeFlowDirectoryName sample_domain
                              (to_string (UuidLibrary := text_uuid) sample_audio_id))
                      = None) by (vm_compute; reflexivity).
  assert (Hmode : OPEN_READ_ONLY <> CREATE_READ_WRITE) by discriminate.
  exact (proj2 (continuous_flow_opens_or_reports_runtime_error (H := text_uuid)
                  sample_audio_segments sample_domain sample_audio_id OPEN_READ_ONLY
                  without_channels sample_audio_info Hmode Hfile eq_refl eq_refl)
           Hchannels).
Defined.

Lemma created_continuous_flow_opens_witness :
  let run :=
    createContinuousFlow (H := text_uuid) calm_world sample_domain sample_audio_id
      sample_descriptor MXL_DATA_FORMAT_AUDIO (Time.mkRational 48000 1) 2 4 4096
      empty_domain in
  run.1 = Returned sample_audio_data
  /\ openFlow (H := text_uuid) sample_audio_segments sample_domain sample_audio_id
       OPEN_READ_ONLY run.2
     = (Returned (Continuous sample_audio_data), run.2).
Proof.
  intros run.
  assert (Hreturned : run.1 = Returned sample_audio_data)
    by (vm_compute; reflexivity).
  assert (Hmode : OPEN_READ_ONLY <> CREATE_READ_WRITE) by discriminate.
  split; [exact Hreturned|].
  exact (created_continuous_flow_opens (H := text_uuid) calm_world
           sample_audio_segments sample_domain sample_audio_id sample_descriptor
           MXL_DATA_FORMAT_AUDIO (Time.mkRational 48000 1) 2 4 4096 empty_domain
           run.2 sample_audio_data OPEN_READ_ONLY sample_audio_info 4
           (nested_singleton sample_domain) (run_of_outcome run _ Hreturned)
           Hmode eq_refl eq_refl eq_refl).
Defined.

End FlowsProperties.
